(** * wb-demo: the constellation ingestion pipeline of [fetch_constellation.py]

    A shallow embedding of the decoder ladder, the record enumerator, the
    field normaliser, the geo/altitude/time extractors, the deduplicator, the
    output writer and [main], and of the table reader of [utils.py], followed
    by the properties of the pipeline.

    Conventions of the embedding.
    - A Python [int] is a [Z]; a Python [float] is an IEEE binary64 value,
      represented by [spec_float] with precision 53 and maximal exponent 1024,
      every operation rounding to nearest-even.
    - A Python [str] is a [string]; its characters are read as code points
      below 256.
    - A Python [dict] is a list of key/value pairs in insertion order.
    - A call that may raise returns an [outcome]; [try ... except Exception]
      is [try_except].  Exceptions outside [Exception] (keyboard interrupts)
      and resource exhaustion are not modelled.
    - A run of [main], which starts once the options are parsed, returns,
      aborts with an exception or blocks for ever: a [run].  The standard
      streams accept every line that is printed, and the text of an
      exception can always be formed.
    - The libraries the program calls (json, json5, datetime, dateutil, the
      HTTP client, the file system, [round], float [repr]) are variables of
      the section. *)

From Stdlib Require Import ZArith List String Ascii Bool Lia Arith.
From Stdlib Require Import Permutation Sorted SpecFloat DecimalString.
Import ListNotations.

Set Warnings "-register-all".

Local Open Scope list_scope.
Local Open Scope string_scope.

(** ** Exceptions *)

Inductive exn : Type :=
| Exn (name : string) (msg : string).

Inductive outcome (A : Type) : Type :=
| Ret (a : A)
| Raise (e : exn).

Arguments Ret {A} a.
Arguments Raise {A} e.

Definition bind {A B : Type} (c : outcome A) (k : A -> outcome B) : outcome B :=
  match c with
  | Ret a => k a
  | Raise e => Raise e
  end.

Definition try_except {A : Type} (c : outcome A) (handler : exn -> outcome A) : outcome A :=
  match c with
  | Ret a => Ret a
  | Raise e => handler e
  end.

Notation "x <- c ;; k" := (bind c (fun x => k))
  (at level 61, c at next level, right associativity).

(** How a run of the event loop, and of the program, ends: it returns, it
    aborts with an exception that nothing catches, or it never ends. *)
Inductive run (A : Type) : Type :=
| Returns (v : A)
| Aborts (e : exn)
| Hangs.

Arguments Returns {A} v.
Arguments Aborts {A} e.
Arguments Hangs {A}.

(** ** Binary64 floats *)

Module F.

Definition prec : Z := 53.
Definition emax : Z := 1024.

Definition float : Type := spec_float.

Definition nan : float := S754_nan.
Definition mul : float -> float -> float := SFmul prec emax.
Definition div : float -> float -> float := SFdiv prec emax.
Definition ltb : float -> float -> bool := SFltb.
Definition eqb : float -> float -> bool := SFeqb.
Definition leb : float -> float -> bool := SFleb.

(** [a > b] of Python. *)
Definition gtb (a b : float) : bool := ltb b a.

(** The float nearest to an integer. *)
Definition of_Z (z : Z) : float := binary_normalize prec emax z 0 false.

(** The float nearest to [n / d], with the sign [s]. *)
Definition of_ratio (s : bool) (n : Z) (d : positive) : float :=
  match n with
  | Zpos _ =>
      let '(mz, ez, lz) := SFdiv_core_binary prec emax n 0 (Zpos d) 0 in
      binary_round_aux prec emax s mz ez lz
  | _ => S754_zero s
  end.

Definition is_finite (f : float) : bool :=
  match f with
  | S754_zero _ | S754_finite _ _ _ => true
  | _ => false
  end.

Definition is_nan (f : float) : bool :=
  match f with
  | S754_nan => true
  | _ => false
  end.

Definition is_zero (f : float) : bool :=
  match f with
  | S754_zero _ => true
  | _ => false
  end.

End F.

Definition float : Type := F.float.

(** ** Characters and strings *)

Definition code (c : ascii) : nat := nat_of_ascii c.

Definition between (lo hi n : nat) : bool := (lo <=? n)%nat && (n <=? hi)%nat.

(** Whitespace as [str.strip] and the regex class [\s] see it. *)
Definition is_space (c : ascii) : bool :=
  let n := code c in
  between 9 13 n || between 28 32 n || (n =? 133)%nat || (n =? 160)%nat.

Definition is_digit (c : ascii) : bool := between 48 57 (code c).

Definition is_lower_az (c : ascii) : bool := between 97 122 (code c).

Definition is_upper_az (c : ascii) : bool := between 65 90 (code c).

(** The regex class [\w] on code points below 256. *)
Definition is_word (c : ascii) : bool :=
  let n := code c in
  is_digit c || is_lower_az c || is_upper_az c || (n =? 95)%nat
  || (n =? 170)%nat || (n =? 178)%nat || (n =? 179)%nat || (n =? 181)%nat
  || (n =? 185)%nat || (n =? 186)%nat || between 188 190 n
  || between 192 214 n || between 216 246 n || between 248 255 n.

Definition lower_char (c : ascii) : ascii :=
  let n := code c in
  if is_upper_az c || (between 192 222 n && negb (n =? 215)%nat)
  then ascii_of_nat (n + 32) else c.

Fixpoint lower (s : string) : string :=
  match s with
  | EmptyString => EmptyString
  | String c r => String (lower_char c) (lower r)
  end.

Fixpoint lstrip (s : string) : string :=
  match s with
  | EmptyString => EmptyString
  | String c r => if is_space c then lstrip r else s
  end.

Fixpoint all_space (s : string) : bool :=
  match s with
  | EmptyString => true
  | String c r => is_space c && all_space r
  end.

Fixpoint rstrip (s : string) : string :=
  match s with
  | EmptyString => EmptyString
  | String c r => if all_space s then EmptyString else String c (rstrip r)
  end.

Definition strip (s : string) : string := rstrip (lstrip s).

(** Whitespace as [float] strips it from a text: the ASCII whitespace, and
    U+0085 and U+00A0, which the conversion first rewrites to spaces.  The
    separators U+001C to U+001F, which [str.strip] removes, are kept. *)
Definition is_float_space (c : ascii) : bool :=
  let n := code c in
  between 9 13 n || (n =? 32)%nat || (n =? 133)%nat || (n =? 160)%nat.

Fixpoint float_lstrip (s : string) : string :=
  match s with
  | EmptyString => EmptyString
  | String c r => if is_float_space c then float_lstrip r else s
  end.

Fixpoint all_float_space (s : string) : bool :=
  match s with
  | EmptyString => true
  | String c r => is_float_space c && all_float_space r
  end.

Fixpoint float_rstrip (s : string) : string :=
  match s with
  | EmptyString => EmptyString
  | String c r => if all_float_space s then EmptyString else String c (float_rstrip r)
  end.

Definition float_strip (s : string) : string := float_rstrip (float_lstrip s).

Fixpoint filter_chars (p : ascii -> bool) (s : string) : string :=
  match s with
  | EmptyString => EmptyString
  | String c r => if p c then String c (filter_chars p r) else filter_chars p r
  end.

Fixpoint drop (n : nat) (s : string) : string :=
  match n, s with
  | O, _ => s
  | S k, EmptyString => EmptyString
  | S k, String _ r => drop k r
  end.

Fixpoint take (n : nat) (s : string) : string :=
  match n, s with
  | O, _ => EmptyString
  | S k, EmptyString => EmptyString
  | S k, String c r => String c (take k r)
  end.

(** [s[i:j]] for [0 <= i] and [0 <= j]. *)
Definition slice (i j : nat) (s : string) : string := take (j - i) (drop i s).

(** [str.replace(old, new)] for a non-empty [old]: leftmost matches, not
    overlapping.  [skip] counts the characters of a match still to pass. *)
Fixpoint replace_go (old new : string) (skip : nat) (s : string) : string :=
  match s with
  | EmptyString => EmptyString
  | String c r =>
      match skip with
      | S k => replace_go old new k r
      | O =>
          if prefix old s
          then new ++ replace_go old new (String.length old - 1) r
          else String c (replace_go old new 0 r)
      end
  end.

Definition replace (old new s : string) : string := replace_go old new 0 s.

Fixpoint join (sep : string) (l : list string) : string :=
  match l with
  | [] => EmptyString
  | [x] => x
  | x :: r => x ++ sep ++ join sep r
  end.

Definition starts_with (p s : string) : bool := prefix p s.

Definition str_of_Z (z : Z) : string := NilZero.string_of_int (Z.to_int z).

Definition dquote : string := String (ascii_of_nat 34) EmptyString.

(** ** Decimal numbers in text *)

Definition digit_val (c : ascii) : Z := Z.of_nat (code c - 48).

(** The longest prefix of digits, [\d*], and what follows it. *)
Fixpoint span_digits (s : string) : string * string :=
  match s with
  | String c r =>
      if is_digit c
      then let '(ds, rest) := span_digits r in (String c ds, rest)
      else (EmptyString, s)
  | EmptyString => (EmptyString, EmptyString)
  end.

Definition is_sign (c : ascii) : bool := (code c =? 43)%nat || (code c =? 45)%nat.

Definition is_dot (c : ascii) : bool := (code c =? 46)%nat.

Definition split_sign (s : string) : string * string :=
  match s with
  | String c r => if is_sign c then (String c EmptyString, r) else (EmptyString, s)
  | EmptyString => (EmptyString, EmptyString)
  end.

(** The regex [[-+]?\d+(?:\.\d+)?] anchored at the start of [s]: the text it
    matches and the rest of [s]. *)
Definition match_number (s : string) : option (string * string) :=
  let '(sign, r0) := split_sign s in
  let '(ds, r1) := span_digits r0 in
  match ds with
  | EmptyString => None
  | _ =>
      match r1 with
      | String c r2 =>
          if is_dot c
          then
            let '(fs, r3) := span_digits r2 in
            match fs with
            | EmptyString => Some (sign ++ ds, r1)
            | _ => Some (sign ++ ds ++ String c fs, r3)
            end
          else Some (sign ++ ds, r1)
      | EmptyString => Some (sign ++ ds, r1)
      end
  end.

(** [re.search] of that regex: the leftmost match. *)
Fixpoint search_number (s : string) : option string :=
  match match_number s with
  | Some (m, _) => Some m
  | None =>
      match s with
      | String _ r => search_number r
      | EmptyString => None
      end
  end.

(** [re.fullmatch] of that regex. *)
Definition fullmatch_number (s : string) : bool :=
  match match_number s with
  | Some (_, EmptyString) => true
  | _ => false
  end.

(** *** [float(str)] *)

(** After a digit: more digits, each optionally preceded by one underscore. *)
Fixpoint digits_go (acc : Z) (n : nat) (s : string) : Z * nat * string :=
  match s with
  | String c r =>
      if is_digit c then digits_go (acc * 10 + digit_val c) (S n) r
      else if (code c =? 95)%nat then
        match r with
        | String d r' =>
            if is_digit d then digits_go (acc * 10 + digit_val d) (S n) r'
            else (acc, n, s)
        | EmptyString => (acc, n, s)
        end
      else (acc, n, s)
  | EmptyString => (acc, n, s)
  end.

(** A digit part continuing the number [acc]: its value, how many digits it
    has, and the rest. *)
Definition digitpart (acc : Z) (s : string) : option (Z * nat * string) :=
  match s with
  | String c r =>
      if is_digit c then Some (digits_go (acc * 10 + digit_val c) 1 r) else None
  | EmptyString => None
  end.

(** Mantissa [digits [. [digits]]] or [. digits]: the digits read as one
    integer, the number of fraction digits, the rest. *)
Definition mantissa (s : string) : option (Z * nat * string) :=
  match digitpart 0 s with
  | Some (a, _, r1) =>
      match r1 with
      | String c r2 =>
          if is_dot c then
            match digitpart a r2 with
            | Some (a', k, r3) => Some (a', k, r3)
            | None => Some (a, O, r2)
            end
          else Some (a, O, r1)
      | EmptyString => Some (a, O, r1)
      end
  | None =>
      match s with
      | String c r2 => if is_dot c then digitpart 0 r2 else None
      | EmptyString => None
      end
  end.

(** Exponent [(e|E) [sign] digits], when there is one. *)
Definition exponent (s : string) : option (Z * string) :=
  match s with
  | String c r =>
      if (code c =? 101)%nat || (code c =? 69)%nat then
        let '(sg, r1) := split_sign r in
        match digitpart 0 r1 with
        | Some (e, _, r2) => Some (if String.eqb sg "-" then (- e)%Z else e, r2)
        | None => None
        end
      else Some (0%Z, s)
  | EmptyString => Some (0%Z, s)
  end.

Definition value_error : exn := Exn "ValueError" "could not convert string to float".

Definition float_of_str (s : string) : outcome float :=
  let '(sg, r) := split_sign (float_strip s) in
  let neg := String.eqb sg "-" in
  let lr := lower r in
  if String.eqb lr "inf" || String.eqb lr "infinity" then Ret (S754_infinity neg)
  else if String.eqb lr "nan" then Ret F.nan
  else
    match mantissa r with
    | Some (m, k, r1) =>
        match exponent r1 with
        | Some (e, EmptyString) =>
            let x := (e - Z.of_nat k)%Z in
            if (0 <=? x)%Z
            then Ret (F.of_ratio neg (m * 10 ^ x) 1)
            else Ret (F.of_ratio neg m (Z.to_pos (10 ^ (- x))))
        | _ => Raise value_error
        end
    | None => Raise value_error
    end.

(** *** Altitude with a unit *)

Definition unit_tokens : list string :=
  ["m"; "meter"; "meters"; "km"; "kilometer"; "kilometers"; "ft"; "feet"].

(** [\b] after a unit token: the text ends or goes on with a non-word
    character. *)
Definition word_boundary (rest : string) : bool :=
  match rest with
  | EmptyString => true
  | String c _ => negb (is_word c)
  end.

(** The alternation [(m|meter|...|feet)\b]: the first token, in the order of
    the alternation, that is a prefix followed by a boundary. *)
Definition match_unit (s : string) : option string :=
  find (fun t => prefix t s && word_boundary (drop (String.length t) s)) unit_tokens.

(** [re.match] of [([-+]?\d+(?:\.\d+)?)\s*(m|...|feet)\b]: groups 1 and 2. *)
Definition match_number_unit (s : string) : option (string * string) :=
  match match_number s with
  | Some (num, r) =>
      match match_unit (lstrip r) with
      | Some u => Some (num, u)
      | None => None
      end
  | None => None
  end.

(** *** Repair of a payload text *)

Definition is_comma (c : ascii) : bool := (code c =? 44)%nat.

(** The class [[\[\{]]. *)
Definition is_opener (c : ascii) : bool := (code c =? 91)%nat || (code c =? 123)%nat.

(** The class [[\]\}]]. *)
Definition is_closer (c : ascii) : bool := (code c =? 93)%nat || (code c =? 125)%nat.

(** [re.sub(r",\s*([\]\}])", r"\1", text)]; [skip] counts the whitespace of a
    match still to pass. *)
Fixpoint sub_trailing_commas (skip : nat) (s : string) : string :=
  match s with
  | EmptyString => EmptyString
  | String c r =>
      match skip with
      | S k => sub_trailing_commas k r
      | O =>
          if is_comma c then
            match lstrip r with
            | String b _ =>
                if is_closer b
                then sub_trailing_commas (String.length r - String.length (lstrip r)) r
                else String c (sub_trailing_commas 0 r)
            | EmptyString => String c (sub_trailing_commas 0 r)
            end
          else String c (sub_trailing_commas 0 r)
      end
  end.

(** Index of the first character in the class [p]. *)
Fixpoint find_index (p : ascii -> bool) (s : string) : option nat :=
  match s with
  | EmptyString => None
  | String c r =>
      if p c then Some O
      else match find_index p r with
           | Some i => Some (S i)
           | None => None
           end
  end.

(** Index of the last character in the class [p]. *)
Fixpoint find_last_index (p : ascii -> bool) (s : string) : option nat :=
  match s with
  | EmptyString => None
  | String c r =>
      match find_last_index p r with
      | Some i => Some (S i)
      | None => if p c then Some O else None
      end
  end.

(** The text between the first opening and the last closing bracket. *)
Definition trim_to_brackets (repaired : string) : string :=
  match find_index is_opener repaired with
  | Some start =>
      match find_last_index is_closer repaired with
      | Some last => slice start (last + 1) repaired
      | None => repaired
      end
  | None => repaired
  end.

(** ** Decoded values *)

Inductive value : Type :=
| VNone
| VBool (b : bool)
| VInt (z : Z)
| VFloat (f : float)
| VStr (s : string)
| VList (l : list value)
| VDict (d : list (string * value)).

Definition dict : Type := list (string * value).

Definition is_dict (v : value) : bool :=
  match v with
  | VDict _ => true
  | _ => false
  end.

(** [d.get(k)]; [None] when [k not in d]. *)
Fixpoint dict_get (d : dict) (k : string) : option value :=
  match d with
  | [] => None
  | (k', v) :: r => if String.eqb k k' then Some v else dict_get r k
  end.

(** [d[k] = v]: an existing key keeps its place, a new key goes last. *)
Fixpoint dict_set (d : dict) (k : string) (v : value) : dict :=
  match d with
  | [] => [(k, v)]
  | (k', v') :: r =>
      if String.eqb k k' then (k', v) :: r else (k', v') :: dict_set r k v
  end.

(** [k in flat and flat[k] is not None]. *)
Definition get_present (flat : dict) (k : string) : option value :=
  match dict_get flat k with
  | Some VNone => None
  | r => r
  end.

(** The value of the first key of [keys] that is present and not [None]. *)
Fixpoint first_present (flat : dict) (keys : list string) : option value :=
  match keys with
  | [] => None
  | k :: r =>
      match get_present flat k with
      | Some v => Some v
      | None => first_present flat r
      end
  end.

(** Truth value of a Python object. *)
Definition truthy (v : value) : bool :=
  match v with
  | VNone => false
  | VBool b => b
  | VInt z => negb (z =? 0)%Z
  | VFloat f => negb (F.is_zero f)
  | VStr s => negb (String.eqb s "")
  | VList l => match l with [] => false | _ => true end
  | VDict d => match d with [] => false | _ => true end
  end.

(** ** Float constants of the program *)

Definition c_1e7 : float := F.of_Z 10000000.
Definition c_1000 : float := F.of_Z 1000.
Definition c_0_3048 : float := F.of_ratio false 3048 10000.
Definition c_1e10 : float := F.of_Z 10000000000.
Definition c_1e12 : float := F.of_Z 1000000000000.

(** [float(v)]. *)
Definition py_float (v : value) : outcome float :=
  match v with
  | VBool b => Ret (F.of_Z (if b then 1 else 0))
  | VInt z =>
      let f := F.of_Z z in
      if F.is_finite f then Ret f
      else Raise (Exn "OverflowError" "int too large to convert to float")
  | VFloat f => Ret f
  | VStr s => float_of_str s
  | _ => Raise (Exn "TypeError" "float() argument must be a string or a real number")
  end.

(** [try: return c  except Exception: return default]. *)
Definition catch {A : Type} (c : outcome A) (default : A) : A :=
  match c with
  | Ret a => a
  | Raise _ => default
  end.

(** ** normalize_key *)

Definition normalize_key (name : string) : string :=
  let k := lower (strip name) in
  let k := filter_chars (fun c => is_lower_az c || is_digit c) k in
  let k := replace "lng" "lon" (replace "long" "lon" (replace "longitude" "lon" k)) in
  let k := replace "latitude" "lat" k in
  let k := replace "altitude" "alt" k in
  let k := replace "fixtime" "time" (replace "lastseen" "time" (replace "updatedat" "time" k)) in
  let k := replace "timeunix" "timestamp" (replace "timestampms" "timestamp" k) in
  k.

(** ** flatten_dict

    The dictionary [out] is shared by the recursive calls and is threaded
    through them. *)

Definition dotted (prefix k : string) : string :=
  match prefix with
  | EmptyString => k
  | _ => prefix ++ "." ++ k
  end.

Fixpoint flatten_dict (d : value) (prefix : string) (out : dict) : dict :=
  match d with
  | VDict items =>
      (fix each (items : list (string * value)) (out : dict) : dict :=
         match items with
         | [] => out
         | (k, v) :: rest =>
             let key := normalize_key (dotted prefix k) in
             match v with
             | VDict _ => each rest (flatten_dict v (dotted prefix k) out)
             | _ => each rest (dict_set out key v)
             end
         end) items out
  | _ => out
  end.

(** ** enumerate_records *)

(** One element of a list payload. *)
Definition list_record (rec : value) : list (option string * value) :=
  match rec with
  | VDict _ => [(None, rec)]
  | VList (lat_val :: lon_val :: more) =>
      let alt_km_val := match more with a :: _ => a | [] => VNone end in
      match (lat_num <- py_float lat_val ;; lon_num <- py_float lon_val ;;
             Ret (lat_num, lon_num)) with
      | Raise _ => []
      | Ret (lat_num, lon_num) =>
          let record := [("lat", VFloat lat_num); ("lon", VFloat lon_num)] in
          let record :=
            match alt_km_val with
            | VNone => record
            | _ =>
                match py_float alt_km_val with
                | Ret a => dict_set record "altkm" (VFloat a)
                | Raise _ => record
                end
            end in
          [(None, VDict record)]
      end
  | _ => []
  end.

(** [isinstance(v, list) and (not v or isinstance(v[0], dict))]. *)
Definition is_candidate_list (v : value) : bool :=
  match v with
  | VList [] => true
  | VList (x :: _) => is_dict x
  | _ => false
  end.

Definition list_items (v : value) : list value :=
  match v with
  | VList l => l
  | _ => []
  end.

(** [max(candidates, key=len)] with [first] the best so far: the first of the
    longest lists. *)
Fixpoint longest (first : list value) (candidates : list (list value)) : list value :=
  match candidates with
  | [] => first
  | c :: r =>
      if (List.length first <? List.length c)%nat then longest c r else longest first r
  end.

Definition enumerate_records (obj : value) : list (option string * value) :=
  match obj with
  | VList l => flat_map list_record l
  | VDict d =>
      let candidate_lists :=
        map list_items (filter is_candidate_list (map snd d)) in
      match candidate_lists with
      | c :: r => map (fun rec => (None, rec)) (longest c r)
      | [] =>
          if forallb is_dict (map snd d)
          then map (fun kv => (Some (fst kv), snd kv)) d
          else [(None, obj)]
      end
  | _ => []
  end.

(** ** coerce_float *)

Definition coerce_float (v : value) : option float :=
  match v with
  | VInt _ | VFloat _ => catch (f <- py_float v ;; Ret (Some f)) None
  | VStr s =>
      match search_number (strip s) with
      | None => None
      | Some m => catch (f <- float_of_str m ;; Ret (Some f)) None
      end
  | _ => None
  end.

(** ** extract_lat_lon *)

Definition lat_keys : list string :=
  ["lat"; "late7"; "latitude"; "gpslat"; "positionlat"].

Definition lon_keys : list string :=
  ["lon"; "lnge7"; "lone7"; "longitude"; "gpslon"; "positionlon"].

(** One of the three E7 statements: when the field is present the coordinate
    is overwritten, otherwise it keeps its current value. *)
Definition e7_field (flat : dict) (k : string) (current : option float) : option float :=
  match get_present flat k with
  | Some v =>
      match coerce_float v with
      | Some x => Some (F.div x c_1e7)
      | None => None
      end
  | None => current
  end.

(** The loop over the candidate keys: it stops at the first present key. *)
Definition from_keys (flat : dict) (keys : list string) (current : option float) : option float :=
  match current with
  | Some _ => current
  | None =>
      match first_present flat keys with
      | Some v => coerce_float v
      | None => None
      end
  end.

(** [x is not None and (-bound > x or x > bound)] sets [x] to [None]. *)
Definition range_check (bound : Z) (x : option float) : option float :=
  match x with
  | Some f =>
      if F.gtb (F.of_Z (- bound)) f || F.gtb f (F.of_Z bound) then None else x
  | None => None
  end.

Definition extract_lat_lon (flat : dict) : option float * option float :=
  let lat := e7_field flat "late7" None in
  let lon := e7_field flat "lone7" None in
  let lon := e7_field flat "lnge7" lon in
  let lat := from_keys flat lat_keys lat in
  let lon := from_keys flat lon_keys lon in
  let lat := range_check 90 lat in
  let lon := range_check 180 lon in
  (lat, lon).

(** ** extract_alt_m *)

Definition feet_to_meters (feet : float) : float := F.mul feet c_0_3048.

Definition meter_keys : list string :=
  ["altm"; "altitudem"; "altitude"; "alt"; "msl"; "baroaltitude"; "elevation";
   "height"; "agl"].

Definition feet_keys : list string :=
  ["altft"; "altitudeft"; "altfeet"; "feet"; "altftmsl"].

(** The loops over [meter_keys] and [feet_keys]: the first key that is present
    and coerces to a number. *)
Fixpoint first_coerced (flat : dict) (keys : list string) : option float :=
  match keys with
  | [] => None
  | k :: r =>
      match get_present flat k with
      | Some v =>
          match coerce_float v with
          | Some val => Some val
          | None => first_coerced flat r
          end
      | None => first_coerced flat r
      end
  end.

(** [float(m.group(1))] for a text the number regex matched; such a text is
    always a float literal (lemma [float_of_str_number]). *)
Definition float_of_number (m : string) : float := catch (float_of_str m) F.nan.

(** The three returns that follow a match of the unit regex. *)
Definition convert_unit (num : float) (unit : string) : float :=
  if starts_with "m" unit && negb (String.eqb unit "meters") then num
  else if starts_with "km" unit then F.mul num c_1000
  else if starts_with "m" unit then num else feet_to_meters num.

(** The scan of the string values in the order of the dictionary. *)
Fixpoint scan_units (items : dict) : option float :=
  match items with
  | [] => None
  | (_, VStr v) :: r =>
      match match_number_unit (lower (strip v)) with
      | Some (g1, unit) => Some (convert_unit (float_of_number g1) unit)
      | None => scan_units r
      end
  | _ :: r => scan_units r
  end.

Definition extract_alt_m (flat : dict) : option float :=
  let km :=
    match get_present flat "altkm" with
    | Some v => coerce_float v
    | None => None
    end in
  match km with
  | Some val => Some (F.mul val c_1000)
  | None =>
      match first_coerced flat meter_keys with
      | Some val => Some val
      | None =>
          match first_coerced flat feet_keys with
          | Some val => Some (feet_to_meters val)
          | None => scan_units flat
          end
      end
  end.

(** ** The standard record *)

(** The dictionary [standardize_record] returns, its fields in the order of
    the dictionary display.  [lat], [lon] and [time_iso] are never [None]. *)
Record StandardRecord : Type := mkRecord {
  id : option string;
  lat : float;
  lon : float;
  alt_m : option float;
  time_iso : string;
  source_hour : Z;
  raw_index : nat
}.

(** The values a standard record holds. *)
Inductive scalar : Type :=
| SNone
| SStr (s : string)
| SFloat (f : float)
| SInt (z : Z).

Definition opt_str (o : option string) : scalar :=
  match o with
  | Some s => SStr s
  | None => SNone
  end.

Definition opt_float (o : option float) : scalar :=
  match o with
  | Some f => SFloat f
  | None => SNone
  end.

(** The items of the dictionary, in insertion order. *)
Definition record_items (r : StandardRecord) : list (string * scalar) :=
  [("id", opt_str (id r));
   ("lat", SFloat (lat r));
   ("lon", SFloat (lon r));
   ("alt_m", opt_float (alt_m r));
   ("time_iso", SStr (time_iso r));
   ("source_hour", SInt (source_hour r));
   ("raw_index", SInt (Z.of_nat (raw_index r)))].

(** [rec.get(k)]. *)
Fixpoint record_get (items : list (string * scalar)) (k : string) : scalar :=
  match items with
  | [] => SNone
  | (k', v) :: r => if String.eqb k k' then v else record_get r k
  end.

(** ** Encoding of scalars *)

Definition hex_digit (n : nat) : ascii :=
  if (n <? 10)%nat then ascii_of_nat (48 + n) else ascii_of_nat (87 + n).

(** The escape of one character by [json.dumps(..., ensure_ascii=False)]. *)
Definition json_escape_char (c : ascii) : string :=
  let n := code c in
  let bs := String (ascii_of_nat 92) EmptyString in
  if (n =? 34)%nat then bs ++ dquote
  else if (n =? 92)%nat then bs ++ bs
  else if (n =? 10)%nat then bs ++ "n"
  else if (n =? 13)%nat then bs ++ "r"
  else if (n =? 9)%nat then bs ++ "t"
  else if (n =? 8)%nat then bs ++ "b"
  else if (n =? 12)%nat then bs ++ "f"
  else if (n <? 32)%nat
  then bs ++ "u00" ++ String (hex_digit (n / 16)) (String (hex_digit (n mod 16)) EmptyString)
  else String c EmptyString.

Fixpoint json_escape (s : string) : string :=
  match s with
  | EmptyString => EmptyString
  | String c r => json_escape_char c ++ json_escape r
  end.

Definition json_quote (s : string) : string := dquote ++ json_escape s ++ dquote.

(** A field needs quotes in the CSV dialect [excel] when it holds the
    delimiter, the quote character or a line break. *)
Fixpoint csv_needs_quotes (s : string) : bool :=
  match s with
  | EmptyString => false
  | String c r =>
      let n := code c in
      (n =? 44)%nat || (n =? 34)%nat || (n =? 13)%nat || (n =? 10)%nat
      || csv_needs_quotes r
  end.

Definition csv_quote (s : string) : string :=
  if csv_needs_quotes s
  then dquote ++ replace dquote (dquote ++ dquote) s ++ dquote
  else s.

Definition id_candidates : list string :=
  ["id"; "balloonid"; "flightid"; "deviceid"; "serial"; "name"; "identifier"; "uuid"].

Definition time_candidates : list string :=
  ["time"; "timestamp"; "ts"; "datetime"; "date"; "lastseen"; "updated";
   "updatedat"; "fixtime"].

(** The value of the first key of [keys] whose value is true:
    [k in flat and flat[k]]. *)
Fixpoint first_truthy (flat : dict) (keys : list string) : option value :=
  match keys with
  | [] => None
  | k :: r =>
      match dict_get flat k with
      | Some v => if truthy v then Some v else first_truthy flat r
      | None => first_truthy flat r
      end
  end.

(** The two branches [if sec > 1e12 ... elif sec > 1e10 ...]. *)
Definition scale_epoch (sec : float) : float :=
  if F.gtb sec c_1e12 then F.div sec c_1000
  else if F.gtb sec c_1e10 then F.div sec c_1000
  else sec.

(** Stable sort on a key, as [list.sort(key=...)]. *)
Fixpoint insert_by {A : Type} (key : A -> Z) (x : A) (l : list A) : list A :=
  match l with
  | [] => [x]
  | y :: r => if (key x <=? key y)%Z then x :: l else y :: insert_by key x r
  end.

Fixpoint sort_by {A : Type} (key : A -> Z) (l : list A) : list A :=
  match l with
  | [] => []
  | x :: r => insert_by key x (sort_by key r)
  end.

(** [enumerate(l)] from [i]. *)
Fixpoint enumerate_from {A : Type} (i : nat) (l : list A) : list (nat * A) :=
  match l with
  | [] => []
  | x :: r => (i, x) :: enumerate_from (S i) r
  end.

(** [range(n)]. *)
Definition range (n : Z) : list Z := map Z.of_nat (seq 0 (Z.to_nat n)).

(** Command-line options [main] reads. *)
Record Args : Type := mkArgs {
  arg_hours : Z;
  arg_max_concurrency : Z;
  arg_save_raw : bool;
  arg_verbose : bool
}.

(** What a run leaves behind: the exit code, the two files, the lines on the
    error stream. *)
Record RunResult : Type := mkRun {
  exit_code : Z;
  ndjson_file : string;
  csv_file : string;
  stdout_count : nat;
  stderr_lines : list string
}.

(** ** The reader of [utils.py]

    [read_constellation_csv] over the rows [csv.DictReader] yields: a row maps
    a column name to the text of its cell, or to [None] when the line is
    shorter than the header. *)

Module Utils.

Definition row : Type := list (string * option string).

(** [r.get(k)]. *)
Fixpoint get (r : row) (k : string) : option string :=
  match r with
  | [] => None
  | (k', v) :: rest => if String.eqb k k' then v else get rest k
  end.

(** The dictionary appended to [rows]. *)
Record Sample : Type := mkSample {
  id : option string;
  time_iso : option string;
  lat : option float;
  lon : option float;
  alt_m : option float
}.

(** [x or ""]. *)
Definition id_or_empty (x : option string) : string :=
  match x with
  | Some i => i
  | None => ""
  end.

(** [float(r[k]) if r.get(k) not in (None, "") else None]. *)
Definition number_cell (r : row) (k : string) : outcome (option float) :=
  match get r k with
  | None => Ret None
  | Some text =>
      if String.eqb text "" then Ret None
      else f <- float_of_str text ;; Ret (Some f)
  end.

(** [balloon_id is not None and (r.get("id") or "") != balloon_id]. *)
Definition skipped (balloon_id : option string) (r : row) : bool :=
  match balloon_id with
  | Some b => negb (String.eqb (id_or_empty (get r "id")) b)
  | None => false
  end.

(** The body of the loop: the rows it appends for one line. *)
Definition read_row (balloon_id : option string) (r : row) : list Sample :=
  if skipped balloon_id r then []
  else
    match (lat <- number_cell r "lat" ;;
           lon <- number_cell r "lon" ;;
           alt_m <- number_cell r "alt_m" ;;
           Ret (lat, lon, alt_m)) with
    | Ret (lat, lon, alt_m) => [mkSample (get r "id") (get r "time_iso") lat lon alt_m]
    | Raise _ => []
    end.

Definition read_constellation_csv (reader : list row) (balloon_id : option string)
    : list Sample :=
  flat_map (read_row balloon_id) reader.

End Utils.

(** ** A closed environment

    Fixed stand-ins for the libraries, to run the pipeline on concrete
    inputs: a feed that is unreachable, parsers that reject everything, an
    identity rounding, tasks that complete in descending hour order, a
    client that can be built and a file system that accepts every call. *)

Module Offline.

Definition parser (text : string) : outcome value :=
  Raise (Exn "ValueError" "not a JSON document").

Definition iso_of_epoch (sec : float) : outcome string :=
  match sec with
  | S754_zero _ => Ret "epoch+0"
  | S754_finite false m e => Ret ("epoch+" ++ str_of_Z (Zpos m) ++ "p" ++ str_of_Z e)
  | _ => Raise (Exn "ValueError" "year out of range")
  end.

Definition date_parser (text : string) : outcome string :=
  Raise (Exn "ParserError" "unknown string format").

Definition clock (source_hour : Z) (raw_index : nat) : string :=
  "now-" ++ str_of_Z source_hour ++ "h".

Definition repr_float (f : float) : string := "<float>".

Definition repr_container (v : value) : string := "<object>".

Definition round6 (f : float) : float := f.

Definition http_get (hour : Z) : outcome string :=
  Raise (Exn "ConnectError" "all connection attempts failed").

Definition save_raw (hour : Z) (text : string) : outcome unit := Ret tt.

Definition finish_time (hour : Z) : Z := (- hour)%Z.

(** A client that can be built and a file system that accepts every call;
    and a device that is full. *)
Definition new_client : outcome unit := Ret tt.

Definition ensure_out_dir : outcome unit := Ret tt.

Definition open_file (name : string) : outcome unit := Ret tt.

Definition write_text (name text : string) : outcome unit := Ret tt.

Definition close_file (name : string) : outcome unit := Ret tt.


(** A feed that serves the same payload for every hour: one balloon listed
    twice and one positional entry. *)
Definition feed (hour : Z) : outcome string := Ret "snapshot".

Definition balloon : value :=
  VDict [("id", VStr "b1"); ("lat", VInt 5); ("lon", VInt 6); ("time", VInt 1700000000)].

Definition feed_parser (text : string) : outcome value :=
  if String.eqb text "snapshot"
  then Ret (VList [balloon; balloon; VList [VInt 7; VInt 8]])
  else Raise (Exn "ValueError" "not a JSON document").

End Offline.

Section Pipeline.

(** *** The libraries *)

(** [json.loads] and [json5.loads]. *)
Variable json_loads : string -> outcome value.
Variable json5_loads : string -> outcome value.

(** [datetime.fromtimestamp(sec, tz=timezone.utc).isoformat()]. *)
Variable fromtimestamp_iso : float -> outcome string.

(** [dtparser.parse(val)], made UTC, then [isoformat()]. *)
Variable dateutil_iso : string -> outcome string.

(** The fallback time stamp [standardize_record] builds from the clock for
    the record [raw_index] of the hour [source_hour]. *)
Variable approx_time_iso : Z -> nat -> string.

(** [repr] of a float, and [str] of a list or a dictionary. *)
Variable repr_float : float -> string.
Variable repr_container : value -> string.

(** [round(x, 6)]. *)
Variable round6 : float -> float.

(** The HTTP request of an hour, the status check and the body text. *)
Variable http_get : Z -> outcome string.

(** The write of a raw payload under the archive directory. *)
Variable save_raw : Z -> string -> outcome unit.

(** The instant the task of an hour completes. *)
Variable finish_time : Z -> Z.

(** The construction of the HTTP client of a task and the entry into it;
    every task builds its client from the same arguments. *)
Variable new_client : outcome unit.

(** [ensure_dir(out_dir)]; the opening of an output file for writing; the
    write of a text to it, encoded as UTF-8; its closing. *)
Variable ensure_out_dir : outcome unit.
Variable open_file : string -> outcome unit.
Variable write_text : string -> string -> outcome unit.
Variable close_file : string -> outcome unit.

(** ** try_json_loads *)

(** The scan of [try_extract_json_fragment] from [start_idx]: the index at
    which the balance returns to zero. *)
Fixpoint balanced_end (opener closer : ascii) (balance : Z) (i : nat) (s : string) : option nat :=
  match s with
  | EmptyString => None
  | String ch r =>
      if Ascii.eqb ch opener then balanced_end opener closer (balance + 1) (S i) r
      else if Ascii.eqb ch closer then
        if (balance - 1 =? 0)%Z then Some i
        else balanced_end opener closer (balance - 1) (S i) r
      else balanced_end opener closer balance (S i) r
  end.

(** One round of the loop over the bracket pairs: [Some] is a [return],
    [None] goes on to the next pair. *)
Definition fragment_of (text : string) (opener closer : ascii) : outcome (option value) :=
  match find_index (Ascii.eqb opener) text with
  | None => Ret None
  | Some start_idx =>
      match balanced_end opener closer 0 start_idx (drop start_idx text) with
      | Some i =>
          let fragment := slice start_idx (i + 1) text in
          try_except (v <- json5_loads fragment ;; Ret (Some v))
                     (fun _ => Ret None)
      | None => Ret None
      end
  end.

Definition try_extract_json_fragment (text : string) : outcome value :=
  r <- fragment_of text "["%char "]"%char ;;
  match r with
  | Some v => Ret v
  | None =>
      r <- fragment_of text "{"%char "}"%char ;;
      match r with
      | Some v => Ret v
      | None => Ret VNone
      end
  end.

Definition try_json_loads (text : string) : outcome value :=
  try_except (json_loads text) (fun _ =>
  try_except (json5_loads text) (fun _ =>
  let repaired := sub_trailing_commas 0 text in
  let repaired := trim_to_brackets repaired in
  try_except (json5_loads repaired) (fun _ =>
  try_extract_json_fragment repaired))).

(** ** parse_time_to_iso *)

Definition parse_time_to_iso (flat : dict) : option string :=
  match first_present flat time_candidates with
  | None => None
  | Some val =>
      catch
        match val with
        | VInt _ | VFloat _ =>
            sec <- py_float val ;;
            iso <- fromtimestamp_iso (scale_epoch sec) ;;
            Ret (Some iso)
        | VStr s =>
            if fullmatch_number (strip s) then
              sec <- float_of_str s ;;
              iso <- fromtimestamp_iso (scale_epoch sec) ;;
              Ret (Some iso)
            else
              iso <- dateutil_iso s ;;
              Ret (Some iso)
        | _ => Ret None
        end
        None
  end.

(** ** extract_id *)

(** [str(v)]. *)
Definition py_str (v : value) : string :=
  match v with
  | VNone => "None"
  | VBool b => if b then "True" else "False"
  | VInt z => str_of_Z z
  | VFloat f => repr_float f
  | VStr s => s
  | _ => repr_container v
  end.

Definition extract_id (parent_key : option string) (flat : dict) : option string :=
  match first_truthy flat id_candidates with
  | Some v => Some (py_str v)
  | None =>
      match parent_key with
      | Some pk => if String.eqb pk "" then None else Some pk
      | None => None
      end
  end.

(** ** standardize_record *)

Definition standardize_record (parent_key : option string) (rec : value)
    (source_hour : Z) (raw_index : nat) : option StandardRecord :=
  let flat := flatten_dict rec "" [] in
  match extract_lat_lon flat with
  | (Some lat, Some lon) =>
      let alt_m := extract_alt_m flat in
      let time_iso :=
        match parse_time_to_iso flat with
        | Some t => t
        | None => approx_time_iso source_hour raw_index
        end in
      let id_value := extract_id parent_key flat in
      Some (mkRecord id_value lat lon alt_m time_iso source_hour raw_index)
  | _ => None
  end.

(** ** build_records *)

(** The tuple [(id, time_iso, round(lat, 6), round(lon, 6))]. *)
Definition key : Type := option string * string * float * float.

Definition dedup_key (s : StandardRecord) : key :=
  (id s, time_iso s, round6 (lat s), round6 (lon s)).

Definition opt_str_eqb (a b : option string) : bool :=
  match a, b with
  | Some x, Some y => String.eqb x y
  | None, None => true
  | _, _ => false
  end.

(** Equality of two keys, as [==] on the tuples. *)
Definition key_eqb (a b : key) : bool :=
  let '(i1, t1, la1, lo1) := a in
  let '(i2, t2, la2, lo2) := b in
  opt_str_eqb i1 i2 && String.eqb t1 t2 && F.eqb la1 la2 && F.eqb lo1 lo2.

(** [key in seen]. *)
Definition key_in (k : key) (seen : list key) : bool := existsb (key_eqb k) seen.

(** The body of the inner loop, on the pair [(seen, standardized)]. *)
Definition add_record (st : list key * list StandardRecord) (s : option StandardRecord)
    : list key * list StandardRecord :=
  match s with
  | None => st
  | Some s =>
      let k := dedup_key s in
      if key_in k (fst st) then st
      else (k :: fst st, (snd st ++ [s])%list)
  end.

Definition build_hour (st : list key * list StandardRecord) (hd : Z * value)
    : list key * list StandardRecord :=
  fold_left
    (fun st ir =>
       add_record st (standardize_record (fst (snd ir)) (snd (snd ir)) (fst hd) (fst ir)))
    (enumerate_from 0 (enumerate_records (snd hd))) st.

Definition build_records (fetched : list (Z * value)) : list StandardRecord :=
  snd (fold_left build_hour fetched ([], [])).

(** ** write_outputs *)

Definition newline : string := String (ascii_of_nat 10) EmptyString.

Definition crlf : string := String (ascii_of_nat 13) newline.

Definition json_scalar (v : scalar) : string :=
  match v with
  | SNone => "null"
  | SStr s => json_quote s
  | SFloat (S754_nan) => "NaN"
  | SFloat (S754_infinity false) => "Infinity"
  | SFloat (S754_infinity true) => "-Infinity"
  | SFloat f => repr_float f
  | SInt z => str_of_Z z
  end.

(** [json.dumps] of a dictionary of scalars: the items in insertion order. *)
Definition json_dumps (items : list (string * scalar)) : string :=
  "{" ++ join ", " (map (fun kv => json_quote (fst kv) ++ ": " ++ json_scalar (snd kv)) items)
      ++ "}".

Definition csv_field (v : scalar) : string :=
  csv_quote
    match v with
    | SNone => ""
    | SStr s => s
    | SFloat f => repr_float f
    | SInt z => str_of_Z z
    end.

(** [writer.writerow]. *)
Definition csv_row (cells : list scalar) : string :=
  join "," (map csv_field cells) ++ crlf.

Definition csv_header : list string :=
  ["id"; "time_iso"; "lat"; "lon"; "alt_m"; "source_hour"; "raw_index"].

Definition csv_cells (rec : list (string * scalar)) : list scalar :=
  [record_get rec "id";
   record_get rec "time_iso";
   record_get rec "lat";
   record_get rec "lon";
   record_get rec "alt_m";
   record_get rec "source_hour";
   record_get rec "raw_index"].

(** The texts written to the record file, one per record, and to the table,
    one per row, in the order of the writes. *)
Definition ndjson_texts (records : list StandardRecord) : list string :=
  map (fun rec => json_dumps (record_items rec) ++ newline) records.

Definition csv_texts (records : list StandardRecord) : list string :=
  csv_row (map SStr csv_header)
  :: map (fun rec => csv_row (csv_cells (record_items rec))) records.

(** What a file holds once the texts are written to it. *)
Fixpoint file_content (texts : list string) : string :=
  match texts with
  | [] => ""
  | t :: r => t ++ file_content r
  end.

Fixpoint write_each (name : string) (texts : list string) : outcome unit :=
  match texts with
  | [] => Ret tt
  | t :: r => _ <- write_text name t ;; write_each name r
  end.

(** [with open(path, "w", encoding="utf-8") as f:] and the writes of its
    body; the result is the content of the file. *)
Definition write_file (name : string) (texts : list string) : outcome string :=
  _ <- open_file name ;;
  _ <- write_each name texts ;;
  _ <- close_file name ;;
  Ret (file_content texts).

(** [write_outputs]; the result is the contents of [constellation.ndjson]
    and of [constellation.csv]. *)
Definition write_outputs (records : list StandardRecord) : outcome (string * string) :=
  _ <- ensure_out_dir ;;
  fnd <- write_file "constellation.ndjson" (ndjson_texts records) ;;
  fcsv <- write_file "constellation.csv" (csv_texts records) ;;
  Ret (fnd, fcsv).

(** ** fetch_one and fetch_all *)

Definition describe (e : exn) : string :=
  match e with
  | Exn name msg => name ++ ": " ++ msg
  end.

Definition fetch_one (hour : Z) (save_raw_dir : bool) : outcome (Z * value * option string) :=
  try_except
    (text <- http_get hour ;;
     _ <- (if save_raw_dir then save_raw hour text else Ret tt) ;;
     data <- try_json_loads text ;;
     Ret (hour, data, None))
    (fun e => Ret (hour, VNone, Some (describe e))).

Definition is_none (v : value) : bool :=
  match v with
  | VNone => true
  | _ => false
  end.

(** The body of [task]: one append to [results] or to [errors]. *)
Definition task (save_raw_dir : bool) (st : list (Z * value) * list (Z * string)) (hour : Z)
    : outcome (list (Z * value) * list (Z * string)) :=
  _ <- new_client ;;
  r <- fetch_one hour save_raw_dir ;;
  let '(h, data, err) := r in
  match err with
  | None =>
      if is_none data
      then Ret (fst st, (snd st ++ [(h, "unknown error")])%list)
      else Ret ((fst st ++ [(h, data)])%list, snd st)
  | Some e =>
      Ret (fst st, (snd st ++ [(h, if String.eqb e "" then "unknown error" else e)])%list)
  end.

Fixpoint gather (save_raw_dir : bool) (hours : list Z)
    (st : list (Z * value) * list (Z * string))
    : outcome (list (Z * value) * list (Z * string)) :=
  match hours with
  | [] => Ret st
  | h :: r => st' <- task save_raw_dir st h ;; gather save_raw_dir r st'
  end.

(** The order in which the tasks of [range(hours)] append their outcome. *)
Definition completion_order (hours : Z) : list Z := sort_by finish_time (range hours).

Definition semaphore_error : exn := Exn "ValueError" "Semaphore initial value must be >= 0".

(** [asyncio.Semaphore(max_concurrency)] rejects a negative bound; with the
    bound 0 no task ever enters the semaphore and [asyncio.gather] never
    completes, unless there is no task at all; an exception that leaves a
    task leaves [asyncio.gather] and the event loop. *)
Definition fetch_all (hours max_concurrency : Z) (save_raw_dir : bool)
    : run (list (Z * value) * list (Z * string)) :=
  if (max_concurrency <? 0)%Z then Aborts semaphore_error
  else
    match range hours with
    | [] => Returns ([], [])
    | _ =>
        if (max_concurrency =? 0)%Z then Hangs
        else
          match gather save_raw_dir (completion_order hours) ([], []) with
          | Ret st => Returns (sort_by fst (fst st), sort_by fst (snd st))
          | Raise e => Aborts e
          end
    end.

(** ** main *)

Definition pad2 (h : Z) : string :=
  if (0 <=? h)%Z && (h <? 10)%Z then "0" ++ str_of_Z h else str_of_Z h.

Definition base_url (hour : Z) : string :=
  "https://a.windbornesystems.com/treasure/" ++ pad2 hour ++ ".json".

Definition clamp_hours (hours : Z) : Z := Z.max 1 (Z.min 24 hours).

Definition main (args : Args) : run RunResult :=
  let hours := clamp_hours (arg_hours args) in
  let banner :=
    if arg_verbose args
    then ["Fetching " ++ str_of_Z hours ++ " hours from " ++ base_url 0 ++ " .. "
          ++ base_url (hours - 1)]
    else [] in
  match fetch_all hours (arg_max_concurrency args) (arg_save_raw args) with
  | Returns (fetched, errors) =>
      let verbose_lines :=
        if arg_verbose args
        then map (fun he => "Hour " ++ pad2 (fst he) ++ ": ERROR " ++ snd he) errors
        else [] in
      let records := build_records fetched in
      match write_outputs records with
      | Ret (fnd, fcsv) =>
          let summary :=
            match errors with
            | [] => []
            | _ => ["Had " ++ str_of_Z (Z.of_nat (List.length errors)) ++ " fetch/parse errors"]
            end in
          Returns (mkRun 0 fnd fcsv (List.length records)
                     (banner ++ verbose_lines ++ summary)%list)
      | Raise e => Aborts e
      end
  | Aborts e => Aborts e
  | Hangs => Hangs
  end.

(** ** Notions the properties are stated with *)

(** The decoder as the specification words it: four strategies tried in
    order, the first success wins, and no value when all fail. *)
Definition success {A : Type} (c : outcome A) : option A :=
  match c with
  | Ret v => Some v
  | Raise _ => None
  end.

Definition strict_parse (text : string) : option value := success (json_loads text).

Definition lenient_parse (text : string) : option value := success (json5_loads text).

Definition repair (text : string) : string := trim_to_brackets (sub_trailing_commas 0 text).

Definition repaired_parse (text : string) : option value := lenient_parse (repair text).

(** The first balanced span that starts at the first [opener]. *)
Definition balanced_span (text : string) (opener closer : ascii) : option string :=
  match find_index (Ascii.eqb opener) text with
  | Some start_idx =>
      match balanced_end opener closer 0 start_idx (drop start_idx text) with
      | Some i => Some (slice start_idx (i + 1) text)
      | None => None
      end
  | None => None
  end.

Definition span_parse (text : string) (opener closer : ascii) : option value :=
  match balanced_span text opener closer with
  | Some fragment => lenient_parse fragment
  | None => None
  end.

Definition fragment_parse (text : string) : option value :=
  match span_parse (repair text) "["%char "]"%char with
  | Some v => Some v
  | None => span_parse (repair text) "{"%char "}"%char
  end.

Fixpoint first_success (strategies : list (string -> option value)) (text : string) : option value :=
  match strategies with
  | [] => None
  | strategy :: r =>
      match strategy text with
      | Some v => Some v
      | None => first_success r text
      end
  end.

Definition decoder_ladder (text : string) : value :=
  match first_success [strict_parse; lenient_parse; repaired_parse; fragment_parse] text with
  | Some v => v
  | None => VNone
  end.

(** The coordinates of [extract_lat_lon] before the range check. *)
Definition resolve_lat (flat : dict) : option float :=
  from_keys flat lat_keys (e7_field flat "late7" None).

Definition resolve_lon (flat : dict) : option float :=
  from_keys flat lon_keys (e7_field flat "lnge7" (e7_field flat "lone7" None)).

(** [-bound <= f <= bound]. *)
Definition in_range (bound : Z) (f : float) : bool :=
  F.leb (F.of_Z (- bound)) f && F.leb f (F.of_Z bound).

(** The standard records of one hour, in enumeration order. *)
Definition hour_candidates (hd : Z * value) : list StandardRecord :=
  flat_map
    (fun ir =>
       match standardize_record (fst (snd ir)) (snd (snd ir)) (fst hd) (fst ir) with
       | Some s => [s]
       | None => []
       end)
    (enumerate_from 0 (enumerate_records (snd hd))).

(** Every standard record of a run, in the order [build_records] meets them. *)
Definition candidates (fetched : list (Z * value)) : list StandardRecord :=
  flat_map hour_candidates fetched.

(** [(source_hour, raw_index)] of one record before that of another. *)
Definition before (a b : StandardRecord) : Prop :=
  (source_hour a < source_hour b)%Z
  \/ (source_hour a = source_hour b /\ (raw_index a < raw_index b)%nat).

Definition same_key (a b : StandardRecord) : bool :=
  key_eqb (dedup_key a) (dedup_key b).

(** The deduplication as the specification words it: a record is kept when no
    record met earlier has the same key. *)
Fixpoint first_occurrences (earlier l : list StandardRecord) : list StandardRecord :=
  match l with
  | [] => []
  | s :: r =>
      if existsb (same_key s) earlier
      then first_occurrences (earlier ++ [s])%list r
      else s :: first_occurrences (earlier ++ [s])%list r
  end.

(** What [task] appends for an hour: to [results] on the left, to [errors] on
    the right. *)
Definition hour_outcome (save_raw_dir : bool) (hour : Z) : (Z * value) + (Z * string) :=
  match fetch_one hour save_raw_dir with
  | Ret (h, data, None) =>
      if is_none data then inr (h, "unknown error") else inl (h, data)
  | Ret (h, _, Some e) => inr (h, if String.eqb e "" then "unknown error" else e)
  | Raise e => inr (hour, describe e)
  end.

Definition lefts {A B : Type} (l : list (A + B)) : list A :=
  flat_map (fun x => match x with inl a => [a] | inr _ => [] end) l.

Definition rights {A B : Type} (l : list (A + B)) : list B :=
  flat_map (fun x => match x with inl _ => [] | inr b => [b] end) l.


(** The outcomes of the hours of [range(hours)], in ascending order. *)
Definition outcomes (save_raw_dir : bool) (hours : Z) : list ((Z * value) + (Z * string)) :=
  map (hour_outcome save_raw_dir) (range hours).

(** What the record file and the table hold after a run of [write_outputs]
    that returns. *)
Definition outputs_text (records : list StandardRecord) : string * string :=
  (String.concat "" (map (fun rec => json_dumps (record_items rec) ++ newline) records),
   csv_row (map SStr csv_header)
   ++ String.concat "" (map (fun rec => csv_row (csv_cells (record_items rec))) records)).

(** A file system that accepts every call of [write_outputs]. *)
Definition files_accepted : Prop :=
  ensure_out_dir = Ret tt
  /\ (forall name, open_file name = Ret tt)
  /\ (forall name text, write_text name text = Ret tt)
  /\ (forall name, close_file name = Ret tt).



(** Strings of digits, strings without whitespace. *)
Fixpoint all_digits (s : string) : bool :=
  match s with
  | EmptyString => true
  | String c r => is_digit c && all_digits r
  end.

Fixpoint no_space (s : string) : bool :=
  match s with
  | EmptyString => true
  | String c r => negb (is_space c) && no_space r
  end.

(** The texts the number regex matches. *)
Definition number_text (m : string) : Prop :=
  exists sg d ds tail,
    m = sg ++ String d ds ++ tail
    /\ (sg = "" \/ exists c, is_sign c = true /\ sg = String c "")
    /\ is_digit d = true /\ all_digits ds = true
    /\ (tail = "" \/ exists c f fs, is_dot c = true /\ tail = String c (String f fs)
                                    /\ is_digit f = true /\ all_digits fs = true).

(** A text without a line break. *)
Fixpoint one_line (s : string) : bool :=
  match s with
  | EmptyString => true
  | String c r => negb ((code c =? 10)%nat || (code c =? 13)%nat) && one_line r
  end.

(** The hour an outcome of [task] is about. *)
Definition tag (x : (Z * value) + (Z * string)) : Z :=
  match x with
  | inl a => fst a
  | inr b => fst b
  end.

(** ** Notions of the further properties *)

(** Every character of [s] is in the class [p]; some character is. *)
Fixpoint all_chars (p : ascii -> bool) (s : string) : bool :=
  match s with
  | EmptyString => true
  | String c r => p c && all_chars p r
  end.

Fixpoint any_char (p : ascii -> bool) (s : string) : bool :=
  match s with
  | EmptyString => false
  | String c r => p c || any_char p r
  end.

(** [p in s]. *)
Fixpoint contains (p s : string) : bool :=
  prefix p s ||
  match s with
  | EmptyString => false
  | String _ r => contains p r
  end.

(** [s.count(c)] and [s[-1]]. *)
Fixpoint count_char (c : ascii) (s : string) : nat :=
  match s with
  | EmptyString => O
  | String ch r => if Ascii.eqb ch c then S (count_char c r) else count_char c r
  end.

Fixpoint last_char (s : string) : option ascii :=
  match s with
  | EmptyString => None
  | String ch EmptyString => Some ch
  | String _ r => last_char r
  end.

(** The class [[a-z0-9]] that [normalize_key] keeps. *)
Definition is_key_char (c : ascii) : bool := is_lower_az c || is_digit c.

(** A key that [normalize_key] returns for some name. *)
Definition normalized (k : string) : Prop := exists name, k = normalize_key name.

(** The invariant of the dictionary [flatten_dict] fills: no key twice, every
    key canonical, no value an object. *)
Definition flat_ok (flat : dict) : Prop :=
  NoDup (map fst flat)
  /\ Forall (fun kv => normalized (fst kv) /\ is_dict (snd kv) = false) flat.

(** The leaves of a record in document order, each with its dotted path. *)
Fixpoint leaves (d : value) (prefix : string) : list (string * value) :=
  match d with
  | VDict items =>
      (fix each (items : list (string * value)) : list (string * value) :=
         match items with
         | [] => []
         | (k, v) :: rest =>
             (match v with
              | VDict _ => leaves v (dotted prefix k)
              | _ => [(dotted prefix k, v)]
              end ++ each rest)%list
         end) items
  | _ => []
  end.

(** The value of the last leaf of [items] whose path has the canonical key
    [k]. *)
Fixpoint last_value (k : string) (items : list (string * value)) : option value :=
  match items with
  | [] => None
  | (name, v) :: r =>
      match last_value k r with
      | Some w => Some w
      | None => if String.eqb k (normalize_key name) then Some v else None
      end
  end.

(** The assignment [out[key] = v] of [flatten_dict] for one leaf. *)
Definition set_leaf (out : dict) (leaf : string * value) : dict :=
  dict_set out (normalize_key (fst leaf)) (snd leaf).

(** The characters the comma repair never deletes. *)
Definition repair_keeps (c : ascii) : bool := negb (is_comma c || is_space c).

(** * Properties *)

(** ** Numbers in text *)

Lemma digit_facts (c : ascii) :
  is_digit c = true ->
  is_space c = false /\ is_sign c = false /\ is_dot c = false
  /\ (code c =? 95)%nat = false
  /\ Ascii.eqb (lower_char c) "i" = false /\ Ascii.eqb (lower_char c) "n" = false.
Proof.
  destruct c as [[] [] [] [] [] [] [] []]; intros H; try discriminate H;
    repeat split; reflexivity.
Qed.

Lemma sign_dot_not_space (c : ascii) :
  is_sign c = true \/ is_dot c = true ->
  is_space c = false /\ is_digit c = false /\ (code c =? 95)%nat = false.
Proof.
  destruct c as [[] [] [] [] [] [] [] []]; intros [H|H]; try discriminate H;
    repeat split; reflexivity.
Qed.

Lemma strip_no_space (s : string) : no_space s = true -> strip s = s.
Proof.
  unfold strip. intros H.
  assert (Hl : lstrip s = s).
  { destruct s as [|c r]; [reflexivity|]. simpl in *.
    apply andb_true_iff in H as [Hc _]. now destruct (is_space c). }
  rewrite Hl. clear Hl.
  induction s as [|c r IH]; [reflexivity|]. simpl in *.
  apply andb_true_iff in H as [Hc Hr].
  destruct (is_space c); [discriminate|]. simpl. now rewrite IH.
Qed.

Lemma float_space_is_space (c : ascii) : is_float_space c = true -> is_space c = true.
Proof. destruct c as [[] [] [] [] [] [] [] []]; intros H; try discriminate H; reflexivity. Qed.

Lemma float_strip_no_space (s : string) : no_space s = true -> float_strip s = s.
Proof.
  unfold float_strip. intros H.
  assert (Hc : forall c, is_space c = false -> is_float_space c = false).
  { intros c Hs. destruct (is_float_space c) eqn:Hf; [|reflexivity].
    apply float_space_is_space in Hf. congruence. }
  assert (Hl : float_lstrip s = s).
  { destruct s as [|c r]; [reflexivity|]. simpl in *.
    apply andb_true_iff in H as [Hs _]. apply negb_true_iff in Hs.
    now rewrite (Hc c Hs). }
  rewrite Hl. clear Hl.
  induction s as [|c r IH]; [reflexivity|]. simpl in *.
  apply andb_true_iff in H as [Hs Hr]. apply negb_true_iff in Hs.
  rewrite (Hc c Hs). simpl. now rewrite IH.
Qed.

Lemma no_space_app (a b : string) :
  no_space (a ++ b) = no_space a && no_space b.
Proof. induction a as [|c r IH]; simpl; [reflexivity|]. now rewrite IH, andb_assoc. Qed.

Lemma all_digits_no_space (s : string) : all_digits s = true -> no_space s = true.
Proof.
  induction s as [|c r IH]; simpl; [reflexivity|].
  rewrite andb_true_iff. intros [Hc Hr].
  destruct (digit_facts c Hc) as [-> _]. now apply IH.
Qed.

Lemma append_empty_r (s : string) : s ++ "" = s.
Proof. induction s as [|c r IH]; simpl; [reflexivity|now rewrite IH]. Qed.

Lemma span_digits_spec (s : string) :
  s = fst (span_digits s) ++ snd (span_digits s)
  /\ all_digits (fst (span_digits s)) = true.
Proof.
  induction s as [|c r [IH1 IH2]]; simpl; [now split|].
  destruct (is_digit c) eqn:Hc; [|now split].
  destruct (span_digits r) as [ds rest]. simpl in *. split; [now f_equal|].
  now rewrite Hc.
Qed.

Lemma split_sign_spec (s : string) :
  s = fst (split_sign s) ++ snd (split_sign s)
  /\ (fst (split_sign s) = "" \/ exists c, is_sign c = true /\ fst (split_sign s) = String c "").
Proof.
  destruct s as [|c r]; simpl; [split; [reflexivity|now left]|].
  destruct (is_sign c) eqn:Hc; simpl; split; try reflexivity; [right; eauto|now left].
Qed.

Lemma match_number_text (s m r : string) :
  match_number s = Some (m, r) -> number_text m.
Proof.
  unfold match_number, number_text.
  destruct (split_sign_spec s) as [_ Hsg].
  destruct (split_sign s) as [sg r0]. simpl in Hsg.
  destruct (span_digits_spec r0) as [_ Hds].
  destruct (span_digits r0) as [ds r1]. simpl in Hds.
  destruct ds as [|d ds]; [discriminate|].
  simpl in Hds. apply andb_true_iff in Hds as [Hd Hds].
  destruct r1 as [|c r2].
  - intros [= <- <-]. exists sg, d, ds, "". rewrite append_empty_r. repeat split; auto.
  - destruct (is_dot c) eqn:Hc.
    + destruct (span_digits_spec r2) as [_ Hfs].
      destruct (span_digits r2) as [fs r3]. simpl in Hfs.
      destruct fs as [|f fs].
      * intros [= <- <-]. exists sg, d, ds, "". rewrite append_empty_r. repeat split; auto.
      * simpl in Hfs. apply andb_true_iff in Hfs as [Hf Hfs].
        intros [= <- <-]. exists sg, d, ds, (String c (String f fs)).
        repeat split; auto. right. exists c, f, fs. repeat split; auto.
    + intros [= <- <-]. exists sg, d, ds, "". rewrite append_empty_r. repeat split; auto.
Qed.

Lemma digits_go_digits (ds tail : string) :
  all_digits ds = true ->
  (tail = "" \/ exists c t, tail = String c t /\ is_digit c = false /\ (code c =? 95)%nat = false) ->
  forall acc n, exists acc' n', digits_go acc n (ds ++ tail) = (acc', n', tail).
Proof.
  intros Hds Htail. induction ds as [|d ds IH]; intros acc n; simpl.
  - destruct Htail as [->|(c & t & -> & Hc & Hu)]; simpl; [eauto|].
    rewrite Hc, Hu. eauto.
  - simpl in Hds. apply andb_true_iff in Hds as [Hd Hds]. rewrite Hd. now apply IH.
Qed.

Lemma float_of_str_number_text (m : string) :
  number_text m -> exists f, float_of_str m = Ret f.
Proof.
  intros (sg & d & ds & tail & -> & Hsg & Hd & Hds & Htail).
  destruct (digit_facts d Hd) as (Hdsp & Hdsg & Hddot & Hdu & Hi & Hn).
  assert (Hns : no_space (sg ++ String d ds ++ tail) = true).
  { rewrite !no_space_app. simpl. rewrite Hdsp, (all_digits_no_space _ Hds). simpl.
    apply andb_true_iff. split.
    - destruct Hsg as [->|(c & Hc & ->)]; [reflexivity|]. simpl.
      destruct (sign_dot_not_space c (or_introl Hc)) as [-> _]. reflexivity.
    - destruct Htail as [->|(c & f & fs & Hc & -> & Hf & Hfs)]; [reflexivity|]. simpl.
      destruct (sign_dot_not_space c (or_intror Hc)) as [-> _].
      destruct (digit_facts f Hf) as [-> _]. simpl. now apply all_digits_no_space. }
  unfold float_of_str. rewrite (float_strip_no_space _ Hns).
  assert (Hsplit : exists sg', split_sign (sg ++ String d ds ++ tail) = (sg', String d ds ++ tail)).
  { destruct Hsg as [->|(c & Hc & ->)]; simpl; [rewrite Hdsg|rewrite Hc]; eauto. }
  destruct Hsplit as (sg' & ->).
  simpl. rewrite Hi, Hn. simpl.
  unfold mantissa, digitpart. rewrite Hd.
  destruct Htail as [->|(c & f & fs & Hc & -> & Hf & Hfs)].
  - destruct (digits_go_digits ds "" Hds (or_introl eq_refl) (0 * 10 + digit_val d)%Z 1)
      as (a & n & ->).
    simpl. eauto.
  - destruct (sign_dot_not_space c (or_intror Hc)) as (_ & Hcd & Hcu).
    destruct (digits_go_digits ds (String c (String f fs)) Hds
                (or_intror (ex_intro _ c (ex_intro _ (String f fs) (conj eq_refl (conj Hcd Hcu)))))
                (0 * 10 + digit_val d)%Z 1) as (a & n & ->).
    rewrite Hc, Hf.
    destruct (digits_go_digits fs "" Hfs (or_introl eq_refl) (a * 10 + digit_val f)%Z 1)
      as (a' & k & Hgo).
    rewrite append_empty_r in Hgo. rewrite Hgo. simpl.
    destruct (_ <=? _)%Z; eauto.
Qed.

Lemma float_of_str_number (s m r : string) :
  match_number s = Some (m, r) -> exists f, float_of_str m = Ret f.
Proof. intros H. eapply float_of_str_number_text, match_number_text, H. Qed.

Lemma append_assoc_s (a b c : string) : (a ++ b) ++ c = a ++ b ++ c.
Proof. induction a as [|x a IH]; simpl; [reflexivity|now rewrite IH]. Qed.

Lemma match_number_app (s m r : string) : match_number s = Some (m, r) -> s = m ++ r.
Proof.
  unfold match_number.
  destruct (split_sign_spec s) as [Hs _].
  destruct (split_sign s) as [sg r0]. simpl in Hs.
  destruct (span_digits_spec r0) as [Hr0 _].
  destruct (span_digits r0) as [ds r1]. simpl in Hr0.
  destruct ds as [|d ds]; [discriminate|].
  assert (Hshort : s = (sg ++ String d ds) ++ r1)
    by (rewrite append_assoc_s; congruence).
  destruct r1 as [|c r2]; [intros [= <- <-]; exact Hshort|].
  destruct (is_dot c); [|intros [= <- <-]; exact Hshort].
  destruct (span_digits_spec r2) as [Hr2 _].
  destruct (span_digits r2) as [fs r3]. simpl in Hr2.
  destruct fs as [|f fs]; [intros [= <- <-]; exact Hshort|].
  intros [= <- <-]. rewrite Hshort, Hr2.
  rewrite ?append_assoc_s. simpl. rewrite ?append_assoc_s. simpl.
  rewrite ?append_assoc_s. reflexivity.
Qed.

Lemma number_text_no_space (m : string) : number_text m -> no_space m = true.
Proof.
  intros (sg & d & ds & tail & -> & Hsg & Hd & Hds & Htail).
  destruct (digit_facts d Hd) as (Hdsp & _).
  rewrite !no_space_app. simpl. rewrite Hdsp, (all_digits_no_space _ Hds). simpl.
  apply andb_true_iff. split.
  - destruct Hsg as [->|(c & Hc & ->)]; [reflexivity|]. simpl.
    destruct (sign_dot_not_space c (or_introl Hc)) as [-> _]. reflexivity.
  - destruct Htail as [->|(c & f & fs & Hc & -> & Hf & Hfs)]; [reflexivity|]. simpl.
    destruct (sign_dot_not_space c (or_intror Hc)) as [-> _].
    destruct (digit_facts f Hf) as [-> _]. simpl. now apply all_digits_no_space.
Qed.

Lemma fullmatch_number_float (s : string) :
  fullmatch_number (strip s) = true ->
  float_strip s = strip s ->
  exists sec, float_of_str s = Ret sec.
Proof.
  unfold fullmatch_number.
  destruct (match_number (strip s)) as [[m r]|] eqn:Hm; [|discriminate].
  destruct r; [|discriminate]. intros _ Hfs.
  assert (Hs : strip s = m).
  { apply match_number_app in Hm. now rewrite append_empty_r in Hm. }
  assert (Hns : no_space m = true)
    by (eapply number_text_no_space, match_number_text, Hm).
  assert (Hsame : float_of_str s = float_of_str m).
  { unfold float_of_str. now rewrite Hfs, Hs, (float_strip_no_space m Hns). }
  rewrite Hsame. eapply float_of_str_number, Hm.
Qed.

(** [float(m.group(1))] never raises in [extract_alt_m]. *)
Lemma float_of_number_returns (s m r : string) :
  match_number s = Some (m, r) -> float_of_str m = Ret (float_of_number m).
Proof.
  intros H. unfold float_of_number.
  destruct (float_of_str_number _ _ _ H) as (f & ->). reflexivity.
Qed.

(** ** The decoder *)

Lemma fragment_of_span (text : string) (opener closer : ascii) :
  fragment_of text opener closer = Ret (span_parse text opener closer).
Proof.
  unfold fragment_of, span_parse, balanced_span, lenient_parse.
  destruct (find_index (Ascii.eqb opener) text) as [start_idx|]; [|reflexivity].
  destruct (balanced_end opener closer 0 start_idx (drop start_idx text)) as [i|];
    [|reflexivity].
  destruct (json5_loads (slice start_idx (i + 1) text)); reflexivity.
Qed.

Lemma try_extract_json_fragment_spans (text : string) :
  try_extract_json_fragment text =
  Ret match span_parse text "["%char "]"%char with
      | Some v => v
      | None =>
          match span_parse text "{"%char "}"%char with
          | Some v => v
          | None => VNone
          end
      end.
Proof.
  unfold try_extract_json_fragment.
  rewrite !fragment_of_span. simpl.
  destruct (span_parse text "[" "]"); [reflexivity|].
  simpl. destruct (span_parse text "{" "}"); reflexivity.
Qed.

Lemma try_json_loads_ladder (text : string) :
  try_json_loads text = Ret (decoder_ladder text).
Proof.
  unfold try_json_loads, decoder_ladder, first_success.
  unfold strict_parse, repaired_parse, fragment_parse, lenient_parse, repair.
  destruct (json_loads text) as [v|e]; [reflexivity|]. simpl.
  destruct (json5_loads text) as [v|e']; [reflexivity|]. simpl.
  destruct (json5_loads (trim_to_brackets (sub_trailing_commas 0 text))) as [v|e''];
    [reflexivity|]. simpl.
  rewrite try_extract_json_fragment_spans.
  unfold lenient_parse.
  destruct (span_parse _ "[" "]"); [reflexivity|].
  destruct (span_parse _ "{" "}"); reflexivity.
Qed.

(** C10.  The decoder is total: for every text [try_json_loads] returns, and
    what it returns is the result of the first of the four strategies (strict
    parse, lenient parse, repair then lenient parse, balanced fragment then
    lenient parse) that succeeds, or [None] when all four fail.  It never
    raises to its caller. *)
Theorem decoder_never_raises (text : string) :
  try_json_loads text = Ret (decoder_ladder text)
  /\ (exists v, try_json_loads text = Ret v)
  /\ (strict_parse text = None /\ lenient_parse text = None
      /\ repaired_parse text = None /\ fragment_parse text = None ->
      try_json_loads text = Ret VNone).
Proof.
  pose proof (try_json_loads_ladder text) as H.
  split; [exact H|]. split; [eauto|].
  intros (H1 & H2 & H3 & H4). rewrite H.
  unfold decoder_ladder, first_success. now rewrite H1, H2, H3, H4.
Qed.

(** ** Sorting on a key *)

Section SortBy.

Context {A : Type} (sort_key : A -> Z).

Lemma insert_by_perm (x : A) (l : list A) :
  Permutation (insert_by sort_key x l) (x :: l).
Proof.
  induction l as [|y r IH]; simpl; [reflexivity|].
  destruct (sort_key x <=? sort_key y)%Z; [reflexivity|].
  rewrite IH. apply perm_swap.
Qed.

Lemma sort_by_perm (l : list A) : Permutation (sort_by sort_key l) l.
Proof.
  induction l as [|x r IH]; simpl; [reflexivity|].
  rewrite insert_by_perm. now constructor.
Qed.

Lemma insert_by_sorted (x : A) (l : list A) :
  StronglySorted (fun a b => (sort_key a <= sort_key b)%Z) l ->
  StronglySorted (fun a b => (sort_key a <= sort_key b)%Z) (insert_by sort_key x l).
Proof.
  induction 1 as [|y r Hr IH Hy]; simpl.
  - repeat constructor.
  - destruct (Z.leb_spec (sort_key x) (sort_key y)) as [Hlt|Hge].
    + constructor; [now constructor|].
      constructor; [lia|].
      rewrite Forall_forall in *. intros z Hz. specialize (Hy z Hz). lia.
    + constructor; [assumption|].
      rewrite Forall_forall in *. intros z Hz.
      apply (Permutation_in _ (insert_by_perm x r)) in Hz.
      destruct Hz as [<-|Hz]; [lia|now apply Hy].
Qed.

Lemma sort_by_sorted (l : list A) :
  StronglySorted (fun a b => (sort_key a <= sort_key b)%Z) (sort_by sort_key l).
Proof.
  induction l as [|x r IH]; simpl; [constructor|now apply insert_by_sorted].
Qed.

Lemma sorted_nodup_strict (l : list A) :
  StronglySorted (fun a b => (sort_key a <= sort_key b)%Z) l ->
  NoDup (map sort_key l) ->
  StronglySorted Z.lt (map sort_key l).
Proof.
  induction 1 as [|x r Hr IH Hx]; simpl; intros Hnd; [constructor|].
  inversion Hnd as [|? ? Hnotin Hnd']; subst.
  constructor; [now apply IH|].
  rewrite Forall_forall in *. intros k Hk.
  apply in_map_iff in Hk as (y & <- & Hy).
  specialize (Hx y Hy).
  assert (sort_key x <> sort_key y)
    by (intros Heq; apply Hnotin; rewrite Heq; now apply in_map).
  lia.
Qed.

Lemma sort_by_strict (l : list A) :
  NoDup (map sort_key l) ->
  StronglySorted Z.lt (map sort_key (sort_by sort_key l)).
Proof.
  intros Hnd. apply sorted_nodup_strict; [apply sort_by_sorted|].
  eapply Permutation_NoDup; [|exact Hnd].
  apply Permutation_map, Permutation_sym, sort_by_perm.
Qed.

End SortBy.

Lemma range_nodup (n : Z) : NoDup (range n).
Proof.
  unfold range. apply Finite.Injective_map_NoDup; [|apply seq_NoDup].
  intros a b. apply Nat2Z.inj.
Qed.


(** ** The fetcher and [main] *)

Lemma fetch_one_returns (hour : Z) (save_raw_dir : bool) :
  exists data err, fetch_one hour save_raw_dir = Ret (hour, data, err).
Proof.
  unfold fetch_one.
  destruct (http_get hour) as [text|e]; simpl; [|eauto].
  destruct (if save_raw_dir then save_raw hour text else Ret tt) as [[]|e]; simpl; [|eauto].
  rewrite try_json_loads_ladder. simpl. eauto.
Qed.

Lemma hour_outcome_tag (save_raw_dir : bool) (hour : Z) :
  tag (hour_outcome save_raw_dir hour) = hour.
Proof.
  unfold hour_outcome.
  destruct (fetch_one_returns hour save_raw_dir) as (data & err & ->).
  destruct err; [reflexivity|]. destruct (is_none data); reflexivity.
Qed.

Lemma task_outcome (save_raw_dir : bool) (st : list (Z * value) * list (Z * string)) (hour : Z) :
  new_client = Ret tt ->
  task save_raw_dir st hour =
  Ret match hour_outcome save_raw_dir hour with
      | inl x => ((fst st ++ [x])%list, snd st)
      | inr y => (fst st, (snd st ++ [y])%list)
      end.
Proof.
  intros Hclient. unfold task, hour_outcome. rewrite Hclient. cbn [bind].
  destruct (fetch_one_returns hour save_raw_dir) as (data & err & ->). simpl.
  destruct err; [reflexivity|]. destruct (is_none data); reflexivity.
Qed.

Lemma gather_outcomes (save_raw_dir : bool) (hours : list Z) :
  new_client = Ret tt ->
  forall st,
    gather save_raw_dir hours st =
    Ret ((fst st ++ lefts (map (hour_outcome save_raw_dir) hours))%list,
         (snd st ++ rights (map (hour_outcome save_raw_dir) hours))%list).
Proof.
  intros Hclient. induction hours as [|h r IH]; intros [ok bad]; simpl.
  - now rewrite !app_nil_r.
  - rewrite (task_outcome _ _ _ Hclient). simpl.
    destruct (hour_outcome save_raw_dir h); rewrite IH; simpl;
      now rewrite <- ?app_assoc.
Qed.

(** A client that cannot be built stops the first task that completes. *)
Lemma gather_aborts (save_raw_dir : bool) (hours : list Z) (e : exn) :
  new_client = Raise e -> hours <> [] ->
  forall st, gather save_raw_dir hours st = Raise e.
Proof.
  intros Hclient Hne st. destruct hours as [|h r]; [congruence|].
  simpl. unfold task. now rewrite Hclient.
Qed.

Lemma completion_order_perm (hours : Z) :
  Permutation (completion_order hours) (range hours).
Proof. apply sort_by_perm. Qed.

Lemma lefts_rights_perm (l : list ((Z * value) + (Z * string))) :
  Permutation (map fst (lefts l) ++ map fst (rights l)) (map tag l).
Proof.
  induction l as [|[a|b] r IH]; simpl; [reflexivity|now constructor|].
  rewrite <- Permutation_middle. now constructor.
Qed.

Lemma lefts_tags_nodup (l : list ((Z * value) + (Z * string))) :
  NoDup (map tag l) -> NoDup (map fst (lefts l)).
Proof.
  intros Hnd.
  eapply Permutation_NoDup in Hnd; [|apply Permutation_sym, lefts_rights_perm].
  now apply NoDup_app_remove_r in Hnd.
Qed.

Lemma outcome_tags (save_raw_dir : bool) (hours : list Z) :
  map tag (map (hour_outcome save_raw_dir) hours) = hours.
Proof.
  induction hours as [|h r IH]; simpl; [reflexivity|].
  now rewrite hour_outcome_tag, IH.
Qed.

Lemma strictly_sorted_perm_eq {A : Type} (sort_key : A -> Z) (l1 : list A) :
  forall l2,
    StronglySorted Z.lt (map sort_key l1) ->
    StronglySorted Z.lt (map sort_key l2) ->
    Permutation l1 l2 -> l1 = l2.
Proof.
  induction l1 as [|x r IH]; intros l2 H1 H2 Hp.
  - apply Permutation_nil in Hp. now subst.
  - destruct l2 as [|y r2]; [apply Permutation_sym, Permutation_nil in Hp; discriminate|].
    simpl in H1, H2.
    inversion H1 as [|? ? Hr Hx]; subst. inversion H2 as [|? ? Hr2 Hy]; subst.
    rewrite Forall_forall in Hx, Hy.
    assert (Hxy : x = y).
    { assert (Hin : In x (y :: r2)) by (apply (Permutation_in _ Hp); now left).
      assert (Hin' : In y (x :: r))
        by (apply (Permutation_in _ (Permutation_sym Hp)); now left).
      destruct Hin as [->|Hin]; [reflexivity|].
      destruct Hin' as [->|Hin']; [reflexivity|].
      specialize (Hy _ (in_map sort_key _ _ Hin)).
      specialize (Hx _ (in_map sort_key _ _ Hin')). lia. }
    subst y. f_equal. apply IH; try assumption.
    now apply Permutation_cons_inv in Hp.
Qed.

Lemma range_sorted (n : Z) : StronglySorted Z.lt (range n).
Proof.
  unfold range. generalize 0%nat as a. induction (Z.to_nat n) as [|k IH]; intros a; simpl.
  - constructor.
  - constructor; [apply IH|].
    apply Forall_forall. intros z Hz. apply in_map_iff in Hz as (m & <- & Hm).
    apply in_seq in Hm. lia.
Qed.

Lemma lefts_rights_tags (l : list ((Z * value) + (Z * string))) (z : Z) :
  In z (map fst (lefts l)) \/ In z (map fst (rights l)) -> In z (map tag l).
Proof.
  intros H. apply (Permutation_in _ (lefts_rights_perm l)). now apply in_or_app.
Qed.

Lemma lefts_sorted (l : list ((Z * value) + (Z * string))) :
  StronglySorted Z.lt (map tag l) ->
  StronglySorted Z.lt (map fst (lefts l)) /\ StronglySorted Z.lt (map fst (rights l)).
Proof.
  induction l as [|x r IH]; simpl; intros H; [split; constructor|].
  inversion H as [|? ? Hr Hx]; subst. destruct (IH Hr) as [Hl Hrt].
  rewrite Forall_forall in Hx.
  destruct x as [a|b]; simpl; split; try assumption; constructor; try assumption;
    apply Forall_forall; intros z Hz; apply Hx, lefts_rights_tags; tauto.
Qed.

Lemma lefts_perm {A B : Type} (l1 l2 : list (A + B)) :
  Permutation l1 l2 -> Permutation (lefts l1) (lefts l2) /\ Permutation (rights l1) (rights l2).
Proof.
  intros H. split; unfold lefts, rights; now apply Permutation_flat_map.
Qed.

(** Sorted on the hour, the outcomes appended in the order of completion are
    the outcomes of [range(hours)] in ascending order. *)
Lemma sorted_outcomes (hours : Z) (save_raw_dir : bool) :
  sort_by fst (lefts (map (hour_outcome save_raw_dir) (completion_order hours)))
  = lefts (outcomes save_raw_dir hours)
  /\ sort_by fst (rights (map (hour_outcome save_raw_dir) (completion_order hours)))
     = rights (outcomes save_raw_dir hours).
Proof.
  unfold outcomes.
  set (done := map (hour_outcome save_raw_dir) (completion_order hours)).
  set (asc := map (hour_outcome save_raw_dir) (range hours)).
  assert (Hperm : Permutation done asc)
    by (apply Permutation_map, completion_order_perm).
  assert (Hasc : StronglySorted Z.lt (map tag asc))
    by (unfold asc; rewrite outcome_tags; apply range_sorted).
  assert (Hnd : NoDup (map tag done)).
  { unfold done. rewrite outcome_tags.
    eapply Permutation_NoDup; [apply Permutation_sym, completion_order_perm|].
    apply range_nodup. }
  destruct (lefts_sorted asc Hasc) as [Hl Hr].
  destruct (lefts_perm _ _ Hperm) as [Pl Pr].
  split.
  - apply (strictly_sorted_perm_eq fst); [|exact Hl|].
    + apply sort_by_strict, lefts_tags_nodup, Hnd.
    + now rewrite sort_by_perm.
  - apply (strictly_sorted_perm_eq fst); [|exact Hr|].
    + apply sort_by_strict.
      eapply Permutation_NoDup in Hnd; [|apply Permutation_sym, lefts_rights_perm].
      now apply NoDup_app_remove_l in Hnd.
    + now rewrite sort_by_perm.
Qed.

(** How [fetch_all] ends, for every bound, every client and every order of
    completion. *)
Lemma fetch_all_cases (hours max_concurrency : Z) (save_raw_dir : bool) :
  fetch_all hours max_concurrency save_raw_dir =
  if (max_concurrency <? 0)%Z then Aborts semaphore_error
  else
    match range hours with
    | [] => Returns ([], [])
    | _ =>
        if (max_concurrency =? 0)%Z then Hangs
        else
          match new_client with
          | Ret _ =>
              Returns (lefts (outcomes save_raw_dir hours),
                       rights (outcomes save_raw_dir hours))
          | Raise e => Aborts e
          end
    end.
Proof.
  unfold fetch_all.
  destruct (max_concurrency <? 0)%Z; [reflexivity|].
  destruct (range hours) as [|h r] eqn:Hrange; [reflexivity|].
  destruct (max_concurrency =? 0)%Z; [reflexivity|].
  destruct new_client as [[]|e] eqn:Hclient.
  - rewrite (gather_outcomes _ _ Hclient). cbn [fst snd app].
    destruct (sorted_outcomes hours save_raw_dir) as [-> ->]. reflexivity.
  - rewrite (gather_aborts _ _ _ Hclient); [reflexivity|].
    intros Hnil.
    assert (Hlen := Permutation_length (completion_order_perm hours)).
    rewrite Hnil, Hrange in Hlen. discriminate Hlen.
Qed.

(** With a positive bound and a client that can be built, [fetch_all]
    returns. *)
Lemma fetch_all_completes (hours max_concurrency : Z) (save_raw_dir : bool) :
  (0 < max_concurrency)%Z -> new_client = Ret tt ->
  fetch_all hours max_concurrency save_raw_dir =
  Returns (lefts (outcomes save_raw_dir hours), rights (outcomes save_raw_dir hours)).
Proof.
  intros Hpos Hclient. rewrite fetch_all_cases, Hclient.
  destruct (Z.ltb_spec max_concurrency 0); [lia|].
  destruct (Z.eqb_spec max_concurrency 0); [lia|].
  unfold outcomes. now destruct (range hours).
Qed.

(** When [fetch_all] returns, every hour of [range(hours)] is in [results]
    or in [errors], once, and both are in ascending hour order. *)
Lemma fetch_all_returns (hours max_concurrency : Z) (save_raw_dir : bool)
    (fetched : list (Z * value)) (errors : list (Z * string)) :
  fetch_all hours max_concurrency save_raw_dir = Returns (fetched, errors) ->
  fetched = lefts (outcomes save_raw_dir hours)
  /\ errors = rights (outcomes save_raw_dir hours)
  /\ Permutation (map fst fetched ++ map fst errors) (range hours)
  /\ StronglySorted Z.lt (map fst fetched).
Proof.
  intros Hfetch.
  assert (Heq : fetched = lefts (outcomes save_raw_dir hours)
                /\ errors = rights (outcomes save_raw_dir hours)).
  { rewrite fetch_all_cases in Hfetch. unfold outcomes in *.
    destruct (max_concurrency <? 0)%Z; [discriminate|].
    destruct (range hours) as [|h r]; [injection Hfetch as <- <-; now split|].
    destruct (max_concurrency =? 0)%Z; [discriminate|].
    destruct new_client; [|discriminate].
    injection Hfetch as <- <-. now split. }
  destruct Heq as [-> ->]. split; [reflexivity|]. split; [reflexivity|].
  unfold outcomes. split.
  - rewrite lefts_rights_perm, outcome_tags. reflexivity.
  - apply lefts_sorted. rewrite outcome_tags. apply range_sorted.
Qed.



(** *** The writes *)

Lemma file_content_concat (texts : list string) :
  file_content texts = String.concat "" texts.
Proof.
  induction texts as [|t r IH]; [reflexivity|].
  cbn [file_content]. rewrite IH.
  destruct r as [|u r']; [apply append_empty_r|reflexivity].
Qed.

Lemma write_each_accepted (name : string) (texts : list string) :
  (forall n t, write_text n t = Ret tt) -> write_each name texts = Ret tt.
Proof.
  intros Hw. induction texts as [|t r IH]; [reflexivity|].
  cbn [write_each]. now rewrite Hw.
Qed.

Lemma write_file_content (name : string) (texts : list string) (content : string) :
  write_file name texts = Ret content -> content = file_content texts.
Proof.
  unfold write_file.
  destruct (open_file name); [|discriminate]. cbn [bind].
  destruct (write_each name texts); [|discriminate]. cbn [bind].
  destruct (close_file name); [|discriminate]. cbn [bind].
  now intros [= <-].
Qed.

(** What the two files hold when [write_outputs] returns. *)
Lemma write_outputs_content (records : list StandardRecord) (out : string * string) :
  write_outputs records = Ret out -> out = outputs_text records.
Proof.
  unfold write_outputs, outputs_text.
  destruct ensure_out_dir; [|discriminate]. cbn [bind].
  destruct (write_file "constellation.ndjson" _) as [fnd|] eqn:Hnd; [|discriminate].
  cbn [bind].
  destruct (write_file "constellation.csv" _) as [fcsv|] eqn:Hcsv; [|discriminate].
  cbn [bind]. intros [= <-].
  apply write_file_content in Hnd, Hcsv. subst fnd fcsv.
  rewrite !file_content_concat. unfold ndjson_texts, csv_texts.
  f_equal.
  destruct (map _ records) as [|x xs]; [symmetry; apply append_empty_r|reflexivity].
Qed.

(** [write_outputs] returns when the file system accepts every call. *)
Lemma write_outputs_accepted (records : list StandardRecord) :
  files_accepted -> write_outputs records = Ret (outputs_text records).
Proof.
  intros (Hdir & Hopen & Hwrite & Hclose).
  assert (Hfile : forall name texts, write_file name texts = Ret (file_content texts)).
  { intros name texts. unfold write_file.
    now rewrite Hopen, (write_each_accepted _ _ Hwrite), Hclose. }
  assert (Hout : exists out, write_outputs records = Ret out).
  { unfold write_outputs. rewrite Hdir, !Hfile. cbn [bind]. eauto. }
  destruct Hout as (out & Hout). rewrite Hout.
  now rewrite (write_outputs_content _ _ Hout).
Qed.





(** ** Coordinates *)

Lemma extract_lat_lon_resolve (flat : dict) :
  extract_lat_lon flat = (range_check 90 (resolve_lat flat), range_check 180 (resolve_lon flat)).
Proof. reflexivity. Qed.

Lemma coerce_float_int (z : Z) :
  F.is_finite (F.of_Z z) = true -> coerce_float (VInt z) = Some (F.of_Z z).
Proof. intros H. unfold coerce_float, py_float. now rewrite H. Qed.

Lemma get_present_int (flat : dict) (k : string) (z : Z) :
  dict_get flat k = Some (VInt z) -> get_present flat k = Some (VInt z).
Proof. unfold get_present. now intros ->. Qed.

Lemma e7_field_int (flat : dict) (k : string) (z : Z) (current : option float) :
  dict_get flat k = Some (VInt z) ->
  F.is_finite (F.of_Z z) = true ->
  e7_field flat k current = Some (F.div (F.of_Z z) c_1e7).
Proof.
  intros Hk Hz. unfold e7_field.
  now rewrite (get_present_int _ _ _ Hk), (coerce_float_int _ Hz).
Qed.

Lemma e7_field_overflow (flat : dict) (k : string) (z : Z) (current : option float) :
  dict_get flat k = Some (VInt z) ->
  F.is_finite (F.of_Z z) = false ->
  e7_field flat k current = None.
Proof.
  intros Hk Hz. unfold e7_field. rewrite (get_present_int _ _ _ Hk).
  unfold coerce_float, py_float. now rewrite Hz.
Qed.

Lemma e7_field_absent (flat : dict) (k : string) (current : option float) :
  get_present flat k = None -> e7_field flat k current = current.
Proof. unfold e7_field. now intros ->. Qed.

(** C4, as amended.  An integer E7 field that converts to a float decides its
    axis, whatever plain fields the record holds: the latitude resolved before
    the range check is ['late7' / 1e7]; the longitude is ['lnge7' / 1e7], or
    ['lone7' / 1e7] when ['lnge7'] is absent or null.  The latitude does not
    look at the longitude fields, nor the longitude at the latitude fields.
    When the axis has no E7 field (absent or null), the first present key of
    the ordered candidate list supplies the value.  [extract_lat_lon] returns
    these two values after the range check.  An integer E7 field too large
    for a float is read like a value that cannot be parsed: the first present
    key of the ordered candidate list supplies the value of the axis. *)
Theorem e7_takes_precedence :
  (forall flat z,
      dict_get flat "late7" = Some (VInt z) ->
      F.is_finite (F.of_Z z) = true ->
      resolve_lat flat = Some (F.div (F.of_Z z) c_1e7))
  /\ (forall flat z,
        dict_get flat "lnge7" = Some (VInt z) ->
        F.is_finite (F.of_Z z) = true ->
        resolve_lon flat = Some (F.div (F.of_Z z) c_1e7))
  /\ (forall flat z,
        get_present flat "lnge7" = None ->
        dict_get flat "lone7" = Some (VInt z) ->
        F.is_finite (F.of_Z z) = true ->
        resolve_lon flat = Some (F.div (F.of_Z z) c_1e7))
  /\ (forall flat,
        get_present flat "late7" = None ->
        resolve_lat flat =
        match first_present flat lat_keys with
        | Some v => coerce_float v
        | None => None
        end)
  /\ (forall flat,
        get_present flat "lone7" = None ->
        get_present flat "lnge7" = None ->
        resolve_lon flat =
        match first_present flat lon_keys with
        | Some v => coerce_float v
        | None => None
        end)
  /\ (forall flat,
        extract_lat_lon flat =
        (range_check 90 (resolve_lat flat), range_check 180 (resolve_lon flat)))
  /\ (forall flat z,
        dict_get flat "late7" = Some (VInt z) ->
        F.is_finite (F.of_Z z) = false ->
        resolve_lat flat =
        match first_present flat lat_keys with
        | Some v => coerce_float v
        | None => None
        end)
  /\ (forall flat z,
        dict_get flat "lnge7" = Some (VInt z) ->
        F.is_finite (F.of_Z z) = false ->
        resolve_lon flat =
        match first_present flat lon_keys with
        | Some v => coerce_float v
        | None => None
        end)
  /\ (forall flat z,
        get_present flat "lnge7" = None ->
        dict_get flat "lone7" = Some (VInt z) ->
        F.is_finite (F.of_Z z) = false ->
        resolve_lon flat =
        match first_present flat lon_keys with
        | Some v => coerce_float v
        | None => None
        end).
Proof.
  repeat split.
  - intros flat z Hk Hz. unfold resolve_lat. now rewrite (e7_field_int _ _ _ _ Hk Hz).
  - intros flat z Hk Hz. unfold resolve_lon. now rewrite (e7_field_int _ _ _ _ Hk Hz).
  - intros flat z Hn Hk Hz. unfold resolve_lon.
    now rewrite (e7_field_absent _ _ _ Hn), (e7_field_int _ _ _ _ Hk Hz).
  - intros flat Hn. unfold resolve_lat. now rewrite (e7_field_absent _ _ _ Hn).
  - intros flat H1 H2. unfold resolve_lon.
    now rewrite (e7_field_absent _ _ _ H2), (e7_field_absent _ _ _ H1).
  - intros flat z Hk Hz. unfold resolve_lat.
    now rewrite (e7_field_overflow _ _ _ _ Hk Hz).
  - intros flat z Hk Hz. unfold resolve_lon.
    now rewrite (e7_field_overflow _ _ _ _ Hk Hz).
  - intros flat z Hn Hk Hz. unfold resolve_lon.
    now rewrite (e7_field_absent _ _ _ Hn), (e7_field_overflow _ _ _ _ Hk Hz).
Qed.

(** ** The range check and the emission of a record *)

Lemma SFcompare_swap (a b : float) :
  SFcompare b a = option_map CompOpp (SFcompare a b).
Proof.
  destruct a as [sa|sa| |sa ma ea], b as [sb|sb| |sb mb eb]; simpl;
    try reflexivity; try (destruct sa; reflexivity); try (destruct sb; reflexivity);
    try (destruct sa, sb; reflexivity).
  destruct sa, sb; simpl; try reflexivity;
    rewrite (Z.compare_antisym ea eb);
    change (Pos.compare_cont Eq mb ma) with (Pos.compare mb ma);
    change (Pos.compare_cont Eq ma mb) with (Pos.compare ma mb);
    rewrite (Pos.compare_antisym ma mb);
    destruct (ea ?= eb)%Z; simpl; try reflexivity;
    destruct (ma ?= mb)%positive; reflexivity.
Qed.

Lemma leb_not_gtb (a b : float) :
  F.is_nan a = false -> F.is_nan b = false -> F.leb a b = negb (F.gtb a b).
Proof.
  unfold F.leb, F.gtb, F.ltb, SFleb, SFltb. rewrite (SFcompare_swap a b).
  destruct a, b; try discriminate; intros _ _;
    destruct (SFcompare _ _) as [[]|] eqn:H; try reflexivity; discriminate H.
Qed.

(** Off NaN the test of [extract_lat_lon] is membership in
    [[-bound, bound]]; NaN passes the test and is in no interval. *)
Lemma range_check_in_range (bound : Z) (f : float) :
  bound = 90%Z \/ bound = 180%Z ->
  range_check bound (Some f) =
  if F.is_nan f || in_range bound f then Some f else None.
Proof.
  intros Hb. unfold range_check, in_range.
  destruct (F.is_nan f) eqn:Hnan.
  - destruct f; try discriminate. destruct Hb as [-> | ->]; reflexivity.
  - rewrite !leb_not_gtb by (try assumption; destruct Hb as [-> | ->]; reflexivity).
    simpl. rewrite <- negb_orb.
    destruct (F.gtb (F.of_Z (- bound)) f || F.gtb f (F.of_Z bound)); reflexivity.
Qed.

(** A record is emitted exactly when both coordinates resolve and pass the
    test of [extract_lat_lon], which rejects a value [x] when [-bound > x] or
    [x > bound]; no other field decides. *)
Lemma standardize_record_emitted (parent_key : option string) (rec : value)
    (hour : Z) (idx : nat) :
  let flat := flatten_dict rec "" [] in
  standardize_record parent_key rec hour idx =
  match range_check 90 (resolve_lat flat), range_check 180 (resolve_lon flat) with
  | Some la, Some lo =>
      Some (mkRecord (extract_id parent_key flat) la lo (extract_alt_m flat)
              match parse_time_to_iso flat with
              | Some t => t
              | None => approx_time_iso hour idx
              end
              hour idx)
  | _, _ => None
  end.
Proof.
  intros flat. unfold standardize_record. fold flat.
  rewrite extract_lat_lon_resolve.
  destruct (range_check 90 (resolve_lat flat)), (range_check 180 (resolve_lon flat));
    reflexivity.
Qed.

(** A record is emitted exactly when both coordinates resolve and each is in
    its range or is NaN. *)
Lemma standardize_record_emitted_iff (parent_key : option string) (rec : value)
    (hour : Z) (idx : nat) :
  let flat := flatten_dict rec "" [] in
  (exists s, standardize_record parent_key rec hour idx = Some s) <->
  (exists la lo,
      resolve_lat flat = Some la /\ resolve_lon flat = Some lo
      /\ F.is_nan la || in_range 90 la = true
      /\ F.is_nan lo || in_range 180 lo = true).
Proof.
  intros flat. rewrite standardize_record_emitted. fold flat.
  destruct (resolve_lat flat) as [la|], (resolve_lon flat) as [lo|].
  - rewrite (range_check_in_range 90 la), (range_check_in_range 180 lo) by auto.
    split.
    + intros [s Hs]. exists la, lo.
      destruct (F.is_nan la || in_range 90 la); [|discriminate].
      destruct (F.is_nan lo || in_range 180 lo); [|discriminate]. auto.
    + intros (la' & lo' & [= <-] & [= <-] & -> & ->). eauto.
  - split; [|intros (? & ? & _ & [=] & _)].
    change (range_check 180 None) with (@None float).
    intros [s Hs]. destruct (range_check 90 (Some la)); discriminate Hs.
  - split; [intros [s [=]]|intros (? & ? & [=] & _)].
  - split; [intros [s [=]]|intros (? & ? & [=] & _)].
Qed.

(** C1, the input on which the code departs from the claim.  The payload
    [[["nan", 5]]] is enumerated as one record whose latitude is the float
    NaN; NaN is not in [-90, 90], yet neither [-90 > lat] nor [lat > 90]
    holds, and the record is emitted. *)
Theorem nan_latitude_is_emitted :
  let payload := VList [VList [VStr "nan"; VInt 5]] in
  enumerate_records payload
  = [(None, VDict [("lat", VFloat F.nan); ("lon", VFloat (F.of_Z 5))])]
  /\ build_records [(0%Z, payload)]
     = [mkRecord None F.nan (F.of_Z 5) None (approx_time_iso 0 0) 0 0]
  /\ in_range 90 F.nan = false.
Proof. repeat split. Qed.

(** ** Altitude *)

(** Rules (a) to (c) on the values of the specification: 1.5 km is 1500 m,
    1000 ft is 304.8 m, a meters field is taken as it is; and rule (d) on
    texts with a unit. *)
Lemma altitude_conversions :
  extract_alt_m [("altkm", VFloat (F.of_ratio false 15 10))] = Some (F.of_Z 1500)
  /\ extract_alt_m [("altft", VInt 1000)] = Some (F.of_ratio false 3048 10)
  /\ extract_alt_m [("alt", VInt 120); ("altft", VInt 1000)] = Some (F.of_Z 120)
  /\ extract_alt_m [("note", VStr "12 Meters")] = Some (F.of_Z 12)
  /\ extract_alt_m [("note", VStr "3km")] = Some (F.of_Z 3000)
  /\ extract_alt_m [("note", VStr "1000 ft")] = Some (F.of_ratio false 3048 10)
  /\ extract_alt_m [("note", VStr "high")] = None.
Proof. repeat split; vm_compute; reflexivity. Qed.

(** C3, the input on which the code departs from the claim.  The unit regex
    recognises [kilometer] and [kilometers], but the conversion tests
    [startswith("km")], which neither word satisfies: the number is converted
    as feet.  [km] itself is converted as kilometers. *)
Theorem kilometers_are_read_as_feet :
  extract_alt_m [("range", VStr "5 kilometers")] = Some (feet_to_meters (F.of_Z 5))
  /\ extract_alt_m [("range", VStr "5 kilometer")] = Some (feet_to_meters (F.of_Z 5))
  /\ feet_to_meters (F.of_Z 5) = F.of_ratio false 1524 1000
  /\ extract_alt_m [("range", VStr "5 km")] = Some (F.of_Z 5000)
  /\ match_number_unit "5 kilometers" = Some ("5", "kilometers")
  /\ option_map alt_m
       (standardize_record None
          (VDict [("lat", VInt 5); ("lon", VInt 6); ("range", VStr "5 kilometers")]) 0 0)
     = Some (Some (F.of_ratio false 1524 1000)).
Proof. repeat split; vm_compute; reflexivity. Qed.

(** ** Time stamps *)

Lemma above_1e12_above_1e10 (sec : float) :
  F.gtb sec c_1e12 = true -> F.gtb sec c_1e10 = true.
Proof.
  unfold F.gtb, F.ltb, SFltb.
  change c_1e12 with (S754_finite false 8192000000000000 (-13)).
  change c_1e10 with (S754_finite false 5242880000000000 (-19)).
  destruct sec as [s|s| |s m e]; cbn -[Z.compare]; try discriminate.
  - destruct s; [discriminate|reflexivity].
  - destruct s; [discriminate|].
    destruct (Z.compare_spec (-13) e) as [<-| |]; try discriminate.
    + intros _. reflexivity.
    + intros _. destruct (Z.compare_spec (-19) e); [lia|reflexivity|lia].
Qed.

(** The two branches of the heuristic are one: above [1e10] the value is
    milliseconds. *)
Lemma scale_epoch_threshold (sec : float) :
  scale_epoch sec = if F.gtb sec c_1e10 then F.div sec c_1000 else sec.
Proof.
  unfold scale_epoch.
  destruct (F.gtb sec c_1e12) eqn:H12; [|reflexivity].
  now rewrite (above_1e12_above_1e10 sec H12).
Qed.

Lemma parse_time_numeric (flat : dict) (val : value) (sec : float) :
  first_present flat time_candidates = Some val ->
  (exists z, val = VInt z) \/ (exists f, val = VFloat f) ->
  py_float val = Ret sec ->
  parse_time_to_iso flat =
  success (fromtimestamp_iso (if F.gtb sec c_1e10 then F.div sec c_1000 else sec)).
Proof.
  intros Hval Hnum Hsec. unfold parse_time_to_iso. rewrite Hval.
  rewrite <- scale_epoch_threshold.
  destruct Hnum as [[z ->]|[f ->]]; rewrite Hsec; simpl;
    destruct (fromtimestamp_iso (scale_epoch sec)); reflexivity.
Qed.

Lemma parse_time_bare_number (flat : dict) (s : string) (sec : float) :
  first_present flat time_candidates = Some (VStr s) ->
  fullmatch_number (strip s) = true ->
  float_of_str s = Ret sec ->
  parse_time_to_iso flat =
  success (fromtimestamp_iso (if F.gtb sec c_1e10 then F.div sec c_1000 else sec)).
Proof.
  intros Hval Hfull Hsec. unfold parse_time_to_iso. rewrite Hval, Hfull, Hsec.
  rewrite <- scale_epoch_threshold. simpl.
  destruct (fromtimestamp_iso (scale_epoch sec)); reflexivity.
Qed.

Lemma parse_time_numeric_cases (flat : dict) (val : value) :
  first_present flat time_candidates = Some val ->
  (exists z, val = VInt z) \/ (exists f, val = VFloat f) ->
  parse_time_to_iso flat =
  match py_float val with
  | Ret sec => success (fromtimestamp_iso (if F.gtb sec c_1e10 then F.div sec c_1000 else sec))
  | Raise _ => None
  end.
Proof.
  intros Hval Hnum. destruct (py_float val) as [sec|e] eqn:Hsec.
  - now apply parse_time_numeric with (val := val).
  - unfold parse_time_to_iso. rewrite Hval.
    destruct Hnum as [[z ->]|[f ->]]; now rewrite Hsec.
Qed.

Lemma parse_time_bare_number_cases (flat : dict) (s : string) :
  first_present flat time_candidates = Some (VStr s) ->
  fullmatch_number (strip s) = true ->
  parse_time_to_iso flat =
  match float_of_str s with
  | Ret sec => success (fromtimestamp_iso (if F.gtb sec c_1e10 then F.div sec c_1000 else sec))
  | Raise _ => None
  end.
Proof.
  intros Hval Hfull. destruct (float_of_str s) as [sec|e] eqn:Hsec.
  - now apply parse_time_bare_number with (s := s).
  - unfold parse_time_to_iso. now rewrite Hval, Hfull, Hsec.
Qed.

(** C5, as amended.  A numeric time stamp that converts to a float (every
    float does, and every integer that is not too large for one) is read as
    seconds unless it exceeds [1e10]; above that it is read as milliseconds
    and divided by 1000; the result is handed to the conversion to a UTC
    instant.  A numeric time stamp that does not convert gives no time stamp.
    A text that is a bare number follows the same rule, with [float] of the
    text for the value: [float] accepts it whenever the whitespace around the
    number is whitespace for [float] too, and a text [float] rejects gives no
    time stamp.  1,700,000,000 and 1,700,000,000,000, as numbers or as texts,
    resolve to the same instant. *)
Theorem timestamp_seconds_or_milliseconds :
  (forall flat val,
      first_present flat time_candidates = Some val ->
      (exists z, val = VInt z) \/ (exists f, val = VFloat f) ->
      parse_time_to_iso flat =
      match py_float val with
      | Ret sec =>
          success (fromtimestamp_iso (if F.gtb sec c_1e10 then F.div sec c_1000 else sec))
      | Raise _ => None
      end)
  /\ (forall f, py_float (VFloat f) = Ret f)
  /\ (forall z, F.is_finite (F.of_Z z) = true -> py_float (VInt z) = Ret (F.of_Z z))
  /\ (forall z, F.is_finite (F.of_Z z) = false -> exists e, py_float (VInt z) = Raise e)
  /\ (forall flat s,
        first_present flat time_candidates = Some (VStr s) ->
        fullmatch_number (strip s) = true ->
        parse_time_to_iso flat =
        match float_of_str s with
        | Ret sec =>
            success (fromtimestamp_iso (if F.gtb sec c_1e10 then F.div sec c_1000 else sec))
        | Raise _ => None
        end)
  /\ (forall s,
        fullmatch_number (strip s) = true ->
        float_strip s = strip s ->
        exists sec, float_of_str s = Ret sec)
  /\ parse_time_to_iso [("time", VInt 1700000000)]
     = success (fromtimestamp_iso (F.of_Z 1700000000))
  /\ parse_time_to_iso [("time", VInt 1700000000000)]
     = parse_time_to_iso [("time", VInt 1700000000)]
  /\ parse_time_to_iso [("time", VStr "1700000000000")]
     = parse_time_to_iso [("time", VStr "1700000000")]
  /\ parse_time_to_iso [("time", VStr "1700000000")]
     = parse_time_to_iso [("time", VInt 1700000000)].
Proof.
  split; [exact parse_time_numeric_cases|].
  split; [reflexivity|].
  split; [intros z Hz; unfold py_float; now rewrite Hz|].
  split; [intros z Hz; unfold py_float; rewrite Hz; eauto|].
  split; [exact parse_time_bare_number_cases|].
  split; [exact fullmatch_number_float|].
  assert (Hs : forall z, py_float (VInt z) = Ret (F.of_Z z) ->
               parse_time_to_iso [("time", VInt z)] =
               success (fromtimestamp_iso
                          (if F.gtb (F.of_Z z) c_1e10
                           then F.div (F.of_Z z) c_1000 else F.of_Z z))).
  { intros z Hz. apply parse_time_numeric with (val := VInt z); eauto. }
  assert (Ht : forall s sec, fullmatch_number (strip s) = true ->
               float_of_str s = Ret sec ->
               parse_time_to_iso [("time", VStr s)] =
               success (fromtimestamp_iso
                          (if F.gtb sec c_1e10 then F.div sec c_1000 else sec))).
  { intros s sec H1 H2. apply parse_time_bare_number with (s := s); auto. }
  rewrite (Hs 1700000000%Z), (Hs 1700000000000%Z) by reflexivity.
  rewrite (Ht "1700000000" (F.of_Z 1700000000)) by (vm_compute; reflexivity).
  rewrite (Ht "1700000000000" (F.of_Z 1700000000000)) by (vm_compute; reflexivity).
  repeat split; vm_compute; reflexivity.
Qed.

(** ** Identity *)

Lemma dicts_are_not_candidate_lists (l : list value) :
  forallb is_dict l = true -> filter is_candidate_list l = [].
Proof.
  induction l as [|v r IH]; simpl; [reflexivity|].
  rewrite andb_true_iff. intros [Hv Hr].
  destruct v; try discriminate. simpl. now apply IH.
Qed.

Lemma enumerate_id_keyed (d : list (string * value)) :
  forallb is_dict (map snd d) = true ->
  enumerate_records (VDict d) = map (fun kv => (Some (fst kv), snd kv)) d.
Proof.
  intros H. unfold enumerate_records.
  now rewrite (dicts_are_not_candidate_lists _ H), H.
Qed.

Lemma first_truthy_absent (flat : dict) (keys : list string) :
  (forall k, In k keys -> dict_get flat k = None) -> first_truthy flat keys = None.
Proof.
  induction keys as [|k r IH]; simpl; intros H; [reflexivity|].
  rewrite (H k) by now left. apply IH. intros k' Hk'. apply H. now right.
Qed.

Lemma standardize_record_id (parent_key : option string) (rec : value)
    (hour : Z) (idx : nat) (s : StandardRecord) :
  standardize_record parent_key rec hour idx = Some s ->
  id s = extract_id parent_key (flatten_dict rec "" []).
Proof.
  unfold standardize_record.
  destruct (extract_lat_lon (flatten_dict rec "" [])) as [[la|] [lo|]]; try discriminate.
  now intros [= <-].
Qed.

(** C7, as amended.  An object all of whose values are objects is enumerated
    as one record per key, the key being the parent key.  For such a record
    with no identity field, the id of the emitted record is the parent key
    when the key is not the empty string, and is absent when it is.  The
    payload [{"b1": {"lat": 5, "lon": 6}}] yields exactly one record, with id
    ["b1"], latitude 5 and longitude 6. *)
Theorem parent_key_is_the_fallback_id :
  (forall d,
      forallb is_dict (map snd d) = true ->
      enumerate_records (VDict d) = map (fun kv => (Some (fst kv), snd kv)) d)
  /\ (forall pk rec hour idx s,
        standardize_record (Some pk) rec hour idx = Some s ->
        (forall k, In k id_candidates -> dict_get (flatten_dict rec "" []) k = None) ->
        id s = if String.eqb pk "" then None else Some pk)
  /\ build_records [(0%Z, VDict [("b1", VDict [("lat", VInt 5); ("lon", VInt 6)])])]
     = [mkRecord (Some "b1") (F.of_Z 5) (F.of_Z 6) None (approx_time_iso 0 0) 0 0].
Proof.
  split; [exact enumerate_id_keyed|]. split; [|reflexivity].
  intros pk rec hour idx s Hs Hnone.
  rewrite (standardize_record_id _ _ _ _ _ Hs). unfold extract_id.
  now rewrite (first_truthy_absent _ _ Hnone).
Qed.

(** ** Equality of floats and of keys *)

Lemma F_eqb_true (a b : float) :
  F.eqb a b = true ->
  (F.is_zero a = true /\ F.is_zero b = true) \/ (a = b /\ F.is_nan a = false).
Proof.
  unfold F.eqb, SFeqb, SFcompare.
  destruct a as [sa|sa| |sa ma ea], b as [sb|sb| |sb mb eb]; simpl;
    try discriminate; try (destruct sa; discriminate); try (destruct sb; discriminate).
  - intros _. now left.
  - destruct sa, sb; try discriminate; intros _; now right.
  - destruct sa, sb; try discriminate.
    + destruct (Z.compare_spec ea eb) as [->| |]; try discriminate.
      change (Pos.compare_cont Eq ma mb) with (Pos.compare ma mb).
      destruct (Pos.compare_spec ma mb) as [->| |]; try discriminate.
      intros _. now right.
    + destruct (Z.compare_spec ea eb) as [->| |]; try discriminate.
      change (Pos.compare_cont Eq ma mb) with (Pos.compare ma mb).
      destruct (Pos.compare_spec ma mb) as [->| |]; try discriminate.
      intros _. now right.
Qed.

Lemma F_eqb_zeros (a b : float) :
  F.is_zero a = true -> F.is_zero b = true -> F.eqb a b = true.
Proof. destruct a, b; simpl; try discriminate; reflexivity. Qed.

Lemma F_eqb_refl (a : float) : F.is_nan a = false -> F.eqb a a = true.
Proof.
  unfold F.eqb, SFeqb, SFcompare.
  destruct a as [sa|sa| |sa ma ea]; simpl; try discriminate; intros _;
    try reflexivity; destruct sa; try reflexivity;
    rewrite Z.compare_refl;
    change (Pos.compare_cont Eq ma ma) with (Pos.compare ma ma);
    now rewrite Pos.compare_refl.
Qed.

Lemma F_eqb_sym (a b : float) : F.eqb a b = true -> F.eqb b a = true.
Proof.
  intros H. destruct (F_eqb_true a b H) as [[Ha Hb]|[-> Hn]].
  - now apply F_eqb_zeros.
  - assumption.
Qed.

Lemma F_eqb_trans (a b c : float) :
  F.eqb a b = true -> F.eqb b c = true -> F.eqb a c = true.
Proof.
  intros Hab Hbc.
  destruct (F_eqb_true a b Hab) as [[Ha Hb]|[-> _]]; [|assumption].
  destruct (F_eqb_true b c Hbc) as [[_ Hc]|[<- _]]; [|assumption].
  now apply F_eqb_zeros.
Qed.

Lemma opt_str_eqb_eq (a b : option string) : opt_str_eqb a b = true <-> a = b.
Proof.
  destruct a as [x|], b as [y|]; simpl; try (split; [discriminate|congruence]).
  - rewrite String.eqb_eq. split; congruence.
  - split; reflexivity.
Qed.

Lemma key_eqb_true (a b : key) :
  key_eqb a b = true <->
  fst (fst (fst a)) = fst (fst (fst b)) /\ snd (fst (fst a)) = snd (fst (fst b))
  /\ F.eqb (snd (fst a)) (snd (fst b)) = true /\ F.eqb (snd a) (snd b) = true.
Proof.
  destruct a as [[[i1 t1] la1] lo1], b as [[[i2 t2] la2] lo2]. simpl.
  rewrite !andb_true_iff, opt_str_eqb_eq, String.eqb_eq. tauto.
Qed.

Lemma key_eqb_sym (a b : key) : key_eqb a b = true -> key_eqb b a = true.
Proof.
  rewrite !key_eqb_true. intros (H1 & H2 & H3 & H4).
  repeat split; try congruence; now apply F_eqb_sym.
Qed.

Lemma key_eqb_trans (a b c : key) :
  key_eqb a b = true -> key_eqb b c = true -> key_eqb a c = true.
Proof.
  rewrite !key_eqb_true. intros (H1 & H2 & H3 & H4) (G1 & G2 & G3 & G4).
  repeat split; try congruence; eapply F_eqb_trans; eassumption.
Qed.

Lemma same_key_sym (a b : StandardRecord) : same_key a b = same_key b a.
Proof.
  unfold same_key.
  destruct (key_eqb (dedup_key a) (dedup_key b)) eqn:Hab,
           (key_eqb (dedup_key b) (dedup_key a)) eqn:Hba; try reflexivity.
  - apply key_eqb_sym in Hab. congruence.
  - apply key_eqb_sym in Hba. congruence.
Qed.

(** ** The deduplicator *)

Lemma add_records_first_occurrences (l : list StandardRecord) :
  forall earlier seen out,
    (forall k, key_in k seen = existsb (fun e => key_eqb k (dedup_key e)) earlier) ->
    snd (fold_left add_record (map Some l) (seen, out)) =
    (out ++ first_occurrences earlier l)%list.
Proof.
  induction l as [|s r IH]; intros earlier seen out Hinv; simpl.
  - now rewrite app_nil_r.
  - unfold same_key at 1. rewrite <- (Hinv (dedup_key s)).
    destruct (key_in (dedup_key s) seen) eqn:Hseen.
    + apply IH. intros k. rewrite existsb_app, Hinv. simpl.
      rewrite orb_false_r.
      destruct (key_eqb k (dedup_key s)) eqn:Hks; [|now rewrite orb_false_r].
      rewrite orb_true_r.
      rewrite Hinv in Hseen. apply existsb_exists in Hseen as (e & He & Hse).
      apply existsb_exists. exists e. split; [assumption|].
      eapply key_eqb_trans; eassumption.
    + rewrite IH with (earlier := (earlier ++ [s])%list).
      * now rewrite <- app_assoc.
      * intros k. rewrite existsb_app. simpl. rewrite orb_false_r, <- Hinv.
        apply orb_comm.
Qed.

Lemma fold_add_record_filter {X : Type} (f : X -> option StandardRecord) (l : list X) :
  forall st,
    fold_left (fun st x => add_record st (f x)) l st =
    fold_left add_record
      (map Some (flat_map (fun x => match f x with Some s => [s] | None => [] end) l)) st.
Proof.
  induction l as [|x r IH]; intros st; simpl; [reflexivity|].
  rewrite map_app, fold_left_app, IH.
  destruct (f x); reflexivity.
Qed.

Lemma build_hour_candidates (st : list key * list StandardRecord) (hd : Z * value) :
  build_hour st hd = fold_left add_record (map Some (hour_candidates hd)) st.
Proof. unfold build_hour, hour_candidates. apply fold_add_record_filter. Qed.

Lemma fold_build_hour (fetched : list (Z * value)) :
  forall st,
    fold_left build_hour fetched st =
    fold_left add_record (map Some (candidates fetched)) st.
Proof.
  induction fetched as [|hd r IH]; intros st; simpl; [reflexivity|].
  unfold candidates in *. simpl.
  now rewrite map_app, fold_left_app, IH, build_hour_candidates.
Qed.

(** [build_records] keeps exactly the first occurrence of every key. *)
Lemma build_records_first_occurrences (fetched : list (Z * value)) :
  build_records fetched = first_occurrences [] (candidates fetched).
Proof.
  unfold build_records. rewrite fold_build_hour.
  now rewrite (add_records_first_occurrences _ [] [] []).
Qed.

Lemma first_occurrences_in (l : list StandardRecord) :
  forall earlier s,
    In s (first_occurrences earlier l) <->
    exists l1 l2, l = (l1 ++ s :: l2)%list /\ existsb (same_key s) (earlier ++ l1) = false.
Proof.
  induction l as [|x r IH]; intros earlier s; simpl.
  - split; [intros []|]. intros (l1 & l2 & H & _). now destruct l1.
  - assert (Hrest : In s (first_occurrences (earlier ++ [x]) r) <->
                    exists l1 l2, x :: r = ((x :: l1) ++ s :: l2)%list
                                  /\ existsb (same_key s) (earlier ++ x :: l1) = false).
    { rewrite IH. split; intros (l1 & l2 & H & Hk); exists l1, l2.
      - rewrite <- app_assoc in Hk. simpl in *. now subst.
      - rewrite <- app_assoc. simpl in *. split; congruence. }
    destruct (existsb (same_key x) earlier) eqn:Hx.
    + rewrite Hrest. split.
      * intros (l1 & l2 & H & Hk). exists (x :: l1), l2. now split.
      * intros (l1 & l2 & H & Hk). destruct l1 as [|y l1].
        -- simpl in H. injection H as -> ->. rewrite app_nil_r in Hk. congruence.
        -- simpl in H. injection H as -> ->. exists l1, l2. now split.
    + simpl. rewrite Hrest. split.
      * intros [->|(l1 & l2 & H & Hk)].
        -- exists [], r. rewrite app_nil_r. now split.
        -- exists (x :: l1), l2. now split.
      * intros (l1 & l2 & H & Hk). destruct l1 as [|y l1].
        -- simpl in H. injection H as -> ->. now left.
        -- simpl in H. injection H as -> ->. right. exists l1, l2. now split.
Qed.

(** ** The order of the candidates *)







Lemma standardize_record_position (parent_key : option string) (rec : value)
    (hour : Z) (idx : nat) (s : StandardRecord) :
  standardize_record parent_key rec hour idx = Some s ->
  source_hour s = hour /\ raw_index s = idx.
Proof.
  unfold standardize_record.
  destruct (extract_lat_lon (flatten_dict rec "" [])) as [[la|] [lo|]]; try discriminate.
  intros [= <-]. split; reflexivity.
Qed.









(** ** The writer *)

Lemma one_line_app (a b : string) : one_line (a ++ b) = one_line a && one_line b.
Proof. induction a as [|c r IH]; simpl; [reflexivity|]. now rewrite IH, andb_assoc. Qed.

Lemma json_escape_char_one_line (c : ascii) : one_line (json_escape_char c) = true.
Proof. destruct c as [[] [] [] [] [] [] [] []]; reflexivity. Qed.

Lemma json_quote_one_line (s : string) : one_line (json_quote s) = true.
Proof.
  unfold json_quote. rewrite !one_line_app. simpl. rewrite andb_true_r.
  induction s as [|c r IH]; simpl; [reflexivity|].
  now rewrite one_line_app, json_escape_char_one_line, IH.
Qed.

Lemma string_of_uint_one_line (d : Decimal.uint) :
  one_line (NilEmpty.string_of_uint d) = true.
Proof. induction d; simpl; auto. Qed.

Lemma str_of_Z_one_line (z : Z) : one_line (str_of_Z z) = true.
Proof.
  unfold str_of_Z, NilZero.string_of_int, NilZero.string_of_uint.
  destruct (Z.to_int z) as [d|d]; destruct d; simpl; try reflexivity;
    apply string_of_uint_one_line.
Qed.

Lemma join_one_line (sep : string) (l : list string) :
  one_line sep = true -> Forall (fun s => one_line s = true) l ->
  one_line (join sep l) = true.
Proof.
  intros Hsep. induction 1 as [|x r Hx Hr IH]; [reflexivity|].
  simpl. destruct r as [|y r']; [assumption|].
  rewrite !one_line_app, Hx, Hsep. exact IH.
Qed.

Lemma json_scalar_one_line (v : scalar) :
  (forall f, one_line (repr_float f) = true) -> one_line (json_scalar v) = true.
Proof.
  intros Hrepr.
  destruct v as [|s|f|z]; simpl;
    [reflexivity|apply json_quote_one_line| |apply str_of_Z_one_line].
  destruct f as [s|[]| |s m e]; try reflexivity; apply Hrepr.
Qed.

(** An encoded record holds no line break: the record file has one record
    per line. *)
Lemma json_dumps_one_line (items : list (string * scalar)) :
  (forall f, one_line (repr_float f) = true) -> one_line (json_dumps items) = true.
Proof.
  intros Hrepr. unfold json_dumps. rewrite !one_line_app.
  change (one_line "{") with true. change (one_line "}") with true.
  rewrite andb_true_r. cbn [andb].
  apply join_one_line; [reflexivity|].
  apply Forall_forall. intros s Hs. apply in_map_iff in Hs as ([k v] & <- & _).
  cbv beta. cbn [fst snd].
  now rewrite !one_line_app, json_quote_one_line, (json_scalar_one_line _ Hrepr).
Qed.

(** C6, as amended.  When the writes succeed (they do whenever the file
    system accepts every call), the record file holds one encoded record per
    line (an encoded record has no line break whenever the [repr] of a float
    has none), the fields of every line in the order id, lat, lon, alt_m,
    time_iso, source_hour, raw_index.  The table starts with the header row id,
    time_iso, lat, lon, alt_m, source_hour, raw_index, and every row lists
    the fields of a record in the order of the header.  The two outputs carry
    the same set of fields; their orders differ in the place of time_iso. *)
Theorem outputs_share_fields (records : list StandardRecord) (r : StandardRecord) :
  (forall out,
      write_outputs records = Ret out ->
      fst out
      = String.concat "" (map (fun rec => json_dumps (record_items rec) ++ newline) records)
      /\ snd out
         = ("id,time_iso,lat,lon,alt_m,source_hour,raw_index" ++ crlf)
           ++ String.concat ""
                (map (fun rec => csv_row (map (record_get (record_items rec)) csv_header))
                     records))
  /\ (files_accepted -> exists out, write_outputs records = Ret out)
  /\ map fst (record_items r)
     = ["id"; "lat"; "lon"; "alt_m"; "time_iso"; "source_hour"; "raw_index"]
  /\ map (record_get (record_items r)) csv_header
     = [opt_str (id r); SStr (time_iso r); SFloat (lat r); SFloat (lon r);
        opt_float (alt_m r); SInt (source_hour r); SInt (Z.of_nat (raw_index r))]
  /\ Permutation (map fst (record_items r)) csv_header
  /\ ((forall f, one_line (repr_float f) = true) ->
      one_line (json_dumps (record_items r)) = true).
Proof.
  split.
  { intros out Hout. rewrite (write_outputs_content _ _ Hout). split; reflexivity. }
  split.
  { intros Hfs. eexists. now apply write_outputs_accepted. }
  repeat split; [|apply json_dumps_one_line].
  unfold csv_header. simpl.
  do 1 apply perm_skip.
  apply Permutation_sym.
  change ["time_iso"; "lat"; "lon"; "alt_m"; "source_hour"; "raw_index"]
    with (["time_iso"] ++ ["lat"; "lon"; "alt_m"] ++ ["source_hour"; "raw_index"])%list.
  change ["lat"; "lon"; "alt_m"; "time_iso"; "source_hour"; "raw_index"]
    with (["lat"; "lon"; "alt_m"] ++ ["time_iso"] ++ ["source_hour"; "raw_index"])%list.
  apply Permutation_app_swap_app.
Qed.

(** * Further properties *)

(** ** The keys of [normalize_key] *)

Lemma all_chars_app (p : ascii -> bool) (a b : string) :
  all_chars p (a ++ b) = all_chars p a && all_chars p b.
Proof. induction a as [|c r IH]; simpl; [reflexivity|]. now rewrite IH, andb_assoc. Qed.

Lemma filter_chars_all (p : ascii -> bool) (s : string) :
  all_chars p (filter_chars p s) = true.
Proof.
  induction s as [|c r IH]; simpl; [reflexivity|].
  destruct (p c) eqn:Hc; simpl; [now rewrite Hc|assumption].
Qed.

Lemma replace_go_all (p : ascii -> bool) (old new : string) :
  all_chars p new = true ->
  forall s skip, all_chars p s = true -> all_chars p (replace_go old new skip s) = true.
Proof.
  intros Hnew. induction s as [|c r IH]; intros skip Hs; [reflexivity|].
  simpl in Hs. apply andb_true_iff in Hs as [Hc Hr].
  cbn [replace_go]. destruct skip as [|k]; [|now apply IH].
  destruct (prefix old (String c r)).
  - rewrite all_chars_app, Hnew. now apply IH.
  - simpl. rewrite Hc. now apply IH.
Qed.

Lemma replace_all (p : ascii -> bool) (old new s : string) :
  all_chars p new = true -> all_chars p s = true -> all_chars p (replace old new s) = true.
Proof. intros Hn Hs. now apply replace_go_all. Qed.

Lemma normalize_key_key_chars (name : string) :
  all_chars is_key_char (normalize_key name) = true.
Proof.
  unfold normalize_key.
  repeat (apply replace_all; [reflexivity|]).
  apply filter_chars_all.
Qed.

(** X1.  A key returned by [normalize_key] holds only the lowercase letters a
    to z and the digits: no dot, no space, no capital survives. *)
Theorem normalize_key_alphabet (name : string) :
  all_chars is_key_char (normalize_key name) = true.
Proof. apply normalize_key_key_chars. Qed.

Lemma space_not_key_char (c : ascii) :
  is_space c = true -> is_key_char (lower_char c) = false.
Proof. destruct c as [[] [] [] [] [] [] [] []]; intros H; try discriminate H; reflexivity. Qed.

Lemma all_space_no_key (s : string) :
  all_space s = true -> filter_chars is_key_char (lower s) = "".
Proof.
  induction s as [|c r IH]; simpl; [reflexivity|].
  rewrite andb_true_iff. intros [Hc Hr]. now rewrite (space_not_key_char c Hc), IH.
Qed.

Lemma lstrip_key_chars (s : string) :
  filter_chars is_key_char (lower (lstrip s)) = filter_chars is_key_char (lower s).
Proof.
  induction s as [|c r IH]; simpl; [reflexivity|].
  destruct (is_space c) eqn:Hc; [|reflexivity].
  now rewrite (space_not_key_char c Hc).
Qed.

Lemma rstrip_key_chars (s : string) :
  filter_chars is_key_char (lower (rstrip s)) = filter_chars is_key_char (lower s).
Proof.
  induction s as [|c r IH]; [reflexivity|].
  cbn [rstrip]. destruct (all_space (String c r)) eqn:Hs.
  - now rewrite (all_space_no_key _ Hs).
  - simpl. now rewrite IH.
Qed.

Lemma strip_key_chars (s : string) :
  filter_chars is_key_char (lower (strip s)) = filter_chars is_key_char (lower s).
Proof. unfold strip. now rewrite rstrip_key_chars, lstrip_key_chars. Qed.

(** X2.  Two names that agree on their letters and digits, case aside, have the
    same key: the separators, the punctuation, the surrounding blanks and the
    case of a name never tell two fields apart. *)
Theorem normalize_key_ignores_separators (a b : string) :
  filter_chars is_key_char (lower a) = filter_chars is_key_char (lower b) ->
  normalize_key a = normalize_key b.
Proof.
  intros H. unfold normalize_key.
  change (fun c => is_lower_az c || is_digit c) with is_key_char.
  now rewrite !strip_key_chars, H.
Qed.

Lemma prefix_app (p x : string) : prefix p (p ++ x) = true.
Proof.
  induction p as [|c r IH]; simpl; [now destruct x|].
  destruct (ascii_dec c c); [assumption|congruence].
Qed.

Lemma contains_cons (p : string) (c : ascii) (s : string) :
  contains p s = true -> contains p (String c s) = true.
Proof. intros H. cbn [contains]. rewrite H. apply orb_true_r. Qed.

Lemma replace_unchanged_or_new (old new s : string) :
  replace old new s = s \/ contains new (replace old new s) = true.
Proof.
  unfold replace. induction s as [|c r IH]; [now left|].
  cbn [replace_go]. destruct (prefix old (String c r)).
  - right. destruct (new ++ _) eqn:E; cbn [contains]; rewrite <- E, prefix_app; reflexivity.
  - destruct IH as [->|IH]; [now left|right; now apply contains_cons].
Qed.

Ltac step_back H :=
  match type of H with
  | replace ?old ?new ?x = ?t =>
      destruct (replace_unchanged_or_new old new x) as [Heq|Hc];
      [rewrite Heq in H; clear Heq
      |rewrite H in Hc; vm_compute in Hc; discriminate Hc]
  end.

Lemma normalize_key_not_lnge7 (name : string) : normalize_key name <> "lnge7".
Proof.
  unfold normalize_key. intros H.
  set (k := filter_chars _ _) in H. clearbody k.
  do 7 step_back H.
  destruct (replace_unchanged_or_new "lng" "lon" (replace "long" "lon" (replace "longitude" "lon" k)))
    as [Heq|Hc].
  - rewrite H in Heq. rewrite <- Heq in H. vm_compute in H. discriminate H.
  - rewrite H in Hc. vm_compute in Hc. discriminate Hc.
Qed.

(** X3.  No name has the key [lnge7]: the synonym step rewrites [lng] to [lon],
    so a field spelled [lngE7] is filed under [lone7]. *)
Theorem normalize_key_never_lnge7 (name : string) :
  normalize_key name <> "lnge7" /\ normalize_key "lngE7" = "lone7".
Proof. split; [apply normalize_key_not_lnge7|reflexivity]. Qed.

(** ** The flattened record *)

Lemma flatten_dict_cons (name : string) (v : value) (r : list (string * value))
    (prefix : string) (out : dict) :
  flatten_dict (VDict ((name, v) :: r)) prefix out =
  flatten_dict (VDict r) prefix
    (if is_dict v then flatten_dict v (dotted prefix name) out
     else dict_set out (normalize_key (dotted prefix name)) v).
Proof. destruct v; reflexivity. Qed.

Lemma flatten_dict_nil (prefix : string) (out : dict) :
  flatten_dict (VDict []) prefix out = out.
Proof. reflexivity. Qed.

Lemma flatten_dict_scalar (d : value) (prefix : string) (out : dict) :
  is_dict d = false -> flatten_dict d prefix out = out.
Proof. destruct d; try discriminate; reflexivity. Qed.

Lemma dict_set_keys (d : dict) (k : string) (v : value) :
  map fst (dict_set d k v) = map fst d /\ In k (map fst d)
  \/ map fst (dict_set d k v) = (map fst d ++ [k])%list /\ ~ In k (map fst d).
Proof.
  induction d as [|[k' v'] r IH]; simpl; [right; split; [reflexivity|intros []]|].
  destruct (String.eqb_spec k k') as [->|Hne]; simpl.
  - left. split; [reflexivity|now left].
  - destruct IH as [[-> Hin]|[-> Hnin]]; [left|right]; split; try reflexivity.
    + now right.
    + intros [Heq|Hin]; [congruence|contradiction].
Qed.

Lemma dict_set_items (d : dict) (k : string) (v : value) (kv : string * value) :
  In kv (dict_set d k v) -> kv = (k, v) \/ In kv d.
Proof.
  induction d as [|[k' v'] r IH]; simpl; [intros [<-|[]]; now left|].
  destruct (String.eqb_spec k k') as [->|Hne]; simpl.
  - intros [<-|H]; [now left|right; now right].
  - intros [<-|H]; [right; now left|]. destruct (IH H); [now left|right; now right].
Qed.

Lemma dict_get_set (d : dict) (k k' : string) (v : value) :
  dict_get (dict_set d k v) k' = if String.eqb k' k then Some v else dict_get d k'.
Proof.
  induction d as [|[k0 v0] r IH]; simpl.
  - reflexivity.
  - destruct (String.eqb_spec k k0) as [->|Hne]; simpl.
    + destruct (String.eqb k' k0); reflexivity.
    + rewrite IH. destruct (String.eqb_spec k' k0) as [->|Hne'].
      * destruct (String.eqb_spec k0 k); [congruence|reflexivity].
      * reflexivity.
Qed.

Lemma dict_set_ok (d : dict) (k : string) (v : value) :
  flat_ok d -> normalized k -> is_dict v = false -> flat_ok (dict_set d k v).
Proof.
  intros [Hnd Hall] Hk Hv. split.
  - destruct (dict_set_keys d k v) as [[-> _]|[-> Hnin]]; [assumption|].
    apply NoDup_app; [assumption|repeat constructor; tauto|].
    intros x Hx [<-|[]]. contradiction.
  - apply Forall_forall. intros kv Hkv.
    destruct (dict_set_items _ _ _ _ Hkv) as [->|Hin]; [now split|].
    rewrite Forall_forall in Hall. now apply Hall.
Qed.

Lemma flatten_dict_ok : forall (d : value) (prefix : string) (out : dict),
  flat_ok out -> flat_ok (flatten_dict d prefix out).
Proof.
  fix IH 1. intros d prefix out Hout.
  destruct d as [ | | | | | |items]; try exact Hout.
  revert out Hout. induction items as [|[name v] r IHr]; intros out Hout.
  - exact Hout.
  - rewrite flatten_dict_cons. apply IHr.
    destruct (is_dict v) eqn:Hv.
    + apply IH. exact Hout.
    + apply dict_set_ok; [exact Hout|now eexists|exact Hv].
Qed.

Lemma leaves_cons (name : string) (v : value) (r : list (string * value)) (prefix : string) :
  leaves (VDict ((name, v) :: r)) prefix =
  ((if is_dict v then leaves v (dotted prefix name) else [(dotted prefix name, v)])
   ++ leaves (VDict r) prefix)%list.
Proof. destruct v; reflexivity. Qed.

Lemma flatten_dict_leaves : forall (d : value) (prefix : string) (out : dict),
  flatten_dict d prefix out = fold_left set_leaf (leaves d prefix) out.
Proof.
  fix IH 1. intros d prefix out.
  destruct d as [ | | | | | |items]; try reflexivity.
  revert out. induction items as [|[name v] r IHr]; intros out; [reflexivity|].
  rewrite flatten_dict_cons, leaves_cons, fold_left_app, IHr.
  destruct (is_dict v); [now rewrite IH|reflexivity].
Qed.

Lemma fold_set_leaf_get (l : list (string * value)) (k : string) :
  forall out,
    dict_get (fold_left set_leaf l out) k =
    match last_value k l with
    | Some w => Some w
    | None => dict_get out k
    end.
Proof.
  induction l as [|[name v] r IH]; intros out; simpl; [reflexivity|].
  rewrite IH. destruct (last_value k r); [reflexivity|].
  unfold set_leaf. simpl. rewrite dict_get_set.
  destruct (String.eqb k (normalize_key name)); reflexivity.
Qed.

(** X4.  The value filed under a key by [flatten_dict] is that of the last leaf
    of the record, in document order and at any depth, whose dotted path has
    this key; a key that no leaf has is absent. *)
Theorem flatten_dict_last_leaf_wins (rec : value) (k : string) :
  dict_get (flatten_dict rec "" []) k = last_value k (leaves rec "").
Proof.
  rewrite flatten_dict_leaves, fold_set_leaf_get.
  destruct (last_value k (leaves rec "")); reflexivity.
Qed.

(** X5.  The flattened record holds no key twice; each of its keys is made of
    lowercase letters and digits and is not [lnge7]; none of its values is an
    object. *)
Theorem flatten_dict_invariant (rec : value) (prefix : string) :
  let flat := flatten_dict rec prefix [] in
  NoDup (map fst flat)
  /\ (forall k v, In (k, v) flat ->
        all_chars is_key_char k = true /\ k <> "lnge7" /\ is_dict v = false).
Proof.
  intros flat.
  destruct (flatten_dict_ok rec prefix []) as [Hnd Hall]; [split; constructor|].
  split; [exact Hnd|].
  intros k v Hin. rewrite Forall_forall in Hall.
  destruct (Hall _ Hin) as [[name Hk] Hv]. simpl in *. subst k.
  repeat split; [apply normalize_key_key_chars|apply normalize_key_not_lnge7|exact Hv].
Qed.

Lemma dict_get_in (d : dict) (k : string) (v : value) :
  dict_get d k = Some v -> In (k, v) d.
Proof.
  induction d as [|[k' v'] r IH]; simpl; [discriminate|].
  destruct (String.eqb_spec k k') as [->|Hne].
  - intros [= ->]. now left.
  - intros H. right. now apply IH.
Qed.

(** X6.  On a flattened record the test of [extract_lat_lon] for the key
    [lnge7] never fires: the E7 longitude of a record comes from [lone7]
    alone. *)
Theorem flattened_longitude_e7_is_lone7 (rec : value) :
  let flat := flatten_dict rec "" [] in
  dict_get flat "lnge7" = None
  /\ resolve_lon flat = from_keys flat lon_keys (e7_field flat "lone7" None)
  /\ snd (extract_lat_lon flat)
     = range_check 180 (from_keys flat lon_keys (e7_field flat "lone7" None)).
Proof.
  intros flat.
  assert (Hnone : dict_get flat "lnge7" = None).
  { destruct (dict_get flat "lnge7") as [v|] eqn:Hget; [|reflexivity].
    apply dict_get_in in Hget.
    destruct (flatten_dict_ok rec "" []) as [_ Hall]; [split; constructor|].
    rewrite Forall_forall in Hall. destruct (Hall _ Hget) as [[name Hk] _].
    simpl in Hk. symmetry in Hk. now apply normalize_key_not_lnge7 in Hk. }
  assert (Hres : resolve_lon flat = from_keys flat lon_keys (e7_field flat "lone7" None)).
  { unfold resolve_lon. rewrite (e7_field_absent flat "lnge7"); [reflexivity|].
    unfold get_present. now rewrite Hnone. }
  repeat split; try assumption.
  rewrite extract_lat_lon_resolve. simpl. now rewrite Hres.
Qed.

(** ** Numbers read from a text *)

Lemma match_number_digit_start (c : ascii) (r : string) :
  is_digit c = true -> exists m rest, match_number (String c r) = Some (m, rest).
Proof.
  intros Hc. unfold match_number.
  destruct (digit_facts c Hc) as (_ & Hsg & _).
  cbn [split_sign]. rewrite Hsg. cbn [span_digits]. rewrite Hc.
  destruct (span_digits r) as [ds r1].
  destruct r1 as [|d r2]; [eauto|].
  destruct (is_dot d); [|eauto].
  destruct (span_digits r2) as [fs r3]. destruct fs; eauto.
Qed.

Lemma match_number_has_digit (s m r : string) :
  match_number s = Some (m, r) -> any_char is_digit s = true.
Proof.
  unfold match_number.
  destruct s as [|c s']; [discriminate|].
  cbn [split_sign]. destruct (is_sign c).
  - destruct s' as [|d s'']; [discriminate|]. cbn [span_digits].
    destruct (is_digit d) eqn:Hd; [|discriminate].
    intros _. simpl. rewrite Hd. apply orb_true_r.
  - cbn [span_digits]. destruct (is_digit c) eqn:Hc; [|discriminate].
    intros _. simpl. now rewrite Hc.
Qed.

Lemma search_number_match (s m : string) :
  search_number s = Some m -> exists s' r, match_number s' = Some (m, r).
Proof.
  induction s as [|c r IH]; cbn [search_number].
  - destruct (match_number "") as [[m' r']|] eqn:E; [|discriminate].
    intros [= ->]. eauto.
  - destruct (match_number (String c r)) as [[m' r']|] eqn:E; [intros [= ->]; eauto|].
    exact IH.
Qed.

Lemma search_number_digit (s : string) :
  (exists m, search_number s = Some m) <-> any_char is_digit s = true.
Proof.
  induction s as [|c r IH]; cbn [search_number].
  - simpl. split; [intros [m H]; discriminate H|discriminate].
  - destruct (match_number (String c r)) as [[m' r']|] eqn:E.
    + split; [intros _; eapply match_number_has_digit; eauto|eauto].
    + rewrite IH. simpl.
      destruct (is_digit c) eqn:Hc; [|reflexivity].
      destruct (match_number_digit_start c r Hc) as (m & rest & Hm). congruence.
Qed.

Lemma digit_not_space (c : ascii) : is_space c = true -> is_digit c = false.
Proof. destruct c as [[] [] [] [] [] [] [] []]; intros H; try discriminate H; reflexivity. Qed.

Lemma all_space_no_digit (s : string) : all_space s = true -> any_char is_digit s = false.
Proof.
  induction s as [|c r IH]; simpl; [reflexivity|].
  rewrite andb_true_iff. intros [Hc Hr]. now rewrite (digit_not_space c Hc), IH.
Qed.

Lemma strip_digits (s : string) : any_char is_digit (strip s) = any_char is_digit s.
Proof.
  unfold strip.
  assert (Hr : forall t, any_char is_digit (rstrip t) = any_char is_digit t).
  { induction t as [|c r IH]; [reflexivity|]. cbn [rstrip].
    destruct (all_space (String c r)) eqn:Hs.
    - now rewrite (all_space_no_digit _ Hs).
    - simpl. now rewrite IH. }
  rewrite Hr. induction s as [|c r IH]; simpl; [reflexivity|].
  destruct (is_space c) eqn:Hc; [|reflexivity].
  now rewrite (digit_not_space c Hc).
Qed.

(** X7.  [coerce_float] reads a number from a text exactly when the text holds
    a digit: the first run of digits, with its sign and fraction, is always a
    float literal. *)
Theorem coerce_float_text_iff_digit (s : string) :
  (exists f, coerce_float (VStr s) = Some f) <-> any_char is_digit s = true.
Proof.
  rewrite <- strip_digits, <- search_number_digit. unfold coerce_float.
  destruct (search_number (strip s)) as [m|] eqn:Hm.
  - split; [eauto|]. intros _.
    destruct (search_number_match _ _ Hm) as (s' & r & Hmatch).
    destruct (float_of_str_number _ _ _ Hmatch) as (f & ->). simpl. eauto.
  - split; [intros [f H]; discriminate H|intros [m H]; discriminate H].
Qed.

(** ** The comma repair *)

Lemma lstrip_suffix (s : string) :
  all_space (take (String.length s - String.length (lstrip s)) s) = true.
Proof.
  induction s as [|c r IH]; [reflexivity|]. cbn [lstrip].
  destruct (is_space c) eqn:Hc.
  - assert (Hle : (String.length (lstrip r) <= String.length r)%nat).
    { clear. induction r as [|d r IH]; simpl; [lia|]. destruct (is_space d); simpl; lia. }
    cbn [String.length].
    replace (S (String.length r) - String.length (lstrip r))%nat
      with (S (String.length r - String.length (lstrip r))) by lia.
    simpl. now rewrite Hc, IH.
  - now rewrite Nat.sub_diag.
Qed.

Lemma sub_trailing_commas_keeps (s : string) :
  forall skip,
    all_space (take skip s) = true ->
    filter_chars repair_keeps (sub_trailing_commas skip s) = filter_chars repair_keeps s.
Proof.
  induction s as [|c r IH]; intros skip Hskip; [reflexivity|].
  cbn [sub_trailing_commas]. destruct skip as [|k].
  - destruct (is_comma c) eqn:Hc.
    + assert (Hdrop : filter_chars repair_keeps (String c r) = filter_chars repair_keeps r).
      { simpl. unfold repair_keeps at 1. now rewrite Hc. }
      assert (Hkeep : filter_chars repair_keeps (String c (sub_trailing_commas 0 r))
                      = filter_chars repair_keeps r).
      { simpl. unfold repair_keeps at 1. rewrite Hc. simpl. now apply IH. }
      rewrite Hdrop.
      destruct (lstrip r) as [|b t] eqn:Hl; [exact Hkeep|].
      destruct (is_closer b); [|exact Hkeep].
      apply IH. rewrite <- Hl. apply lstrip_suffix.
    + simpl. destruct (repair_keeps c); [f_equal|]; now apply IH.
  - simpl in Hskip. apply andb_true_iff in Hskip as [Hc Hr].
    simpl. unfold repair_keeps at 2. rewrite Hc, orb_true_r. simpl. now apply IH.
Qed.

Lemma sub_trailing_commas_no_comma (s : string) :
  any_char is_comma s = false -> sub_trailing_commas 0 s = s.
Proof.
  induction s as [|c r IH]; simpl; [reflexivity|].
  rewrite orb_false_iff. intros [-> Hr]. now rewrite IH.
Qed.

(** X8.  The comma repair deletes nothing but commas and whitespace: the other
    characters of the text are kept, in their order; the text never grows, and
    a text without a comma is left as it is. *)
Theorem repair_deletes_only_commas_and_spaces (text : string) :
  filter_chars repair_keeps (sub_trailing_commas 0 text) = filter_chars repair_keeps text
  /\ (String.length (sub_trailing_commas 0 text) <= String.length text)%nat
  /\ (any_char is_comma text = false -> sub_trailing_commas 0 text = text).
Proof.
  split; [now apply sub_trailing_commas_keeps|].
  split; [|apply sub_trailing_commas_no_comma].
  assert (H : forall s skip, (String.length (sub_trailing_commas skip s) <= String.length s)%nat).
  { induction s as [|c r IH]; intros skip; [simpl; lia|].
    cbn [sub_trailing_commas]. destruct skip as [|k].
    - destruct (is_comma c).
      + destruct (lstrip r) as [|b t].
        * simpl. specialize (IH 0%nat). lia.
        * destruct (is_closer b).
          -- specialize (IH (String.length r - String.length (String b t))%nat). simpl in *. lia.
          -- simpl. specialize (IH 0%nat). lia.
      + simpl. specialize (IH 0%nat). lia.
    - specialize (IH k). simpl. lia. }
  apply H.
Qed.

(** ** The balanced fragment *)

Lemma take_drop (n : nat) (s : string) : s = take n s ++ drop n s.
Proof.
  revert s. induction n as [|n IH]; intros [|c r]; simpl; try reflexivity.
  now rewrite <- IH.
Qed.

Lemma find_index_drop (p : ascii -> bool) (s : string) (i : nat) :
  find_index p s = Some i ->
  any_char p (take i s) = false
  /\ exists ch r, drop i s = String ch r /\ p ch = true.
Proof.
  revert i. induction s as [|c r IH]; intros i; simpl; [discriminate|].
  destruct (p c) eqn:Hc.
  - intros [= <-]. simpl. eauto.
  - destruct (find_index p r) as [j|]; [|discriminate].
    intros [= <-]. destruct (IH j eq_refl) as [Hpre Hrest].
    simpl. rewrite Hc. now split.
Qed.

Lemma count_take_cons (x ch : ascii) (n : nat) (r : string) :
  count_char x (take (S (S n)) (String ch r)) =
  if Ascii.eqb ch x then S (count_char x (take (S n) r)) else count_char x (take (S n) r).
Proof. reflexivity. Qed.

Lemma balanced_end_spec (opener closer : ascii) (s : string) :
  opener <> closer ->
  forall balance i j,
    balanced_end opener closer balance i s = Some j ->
    exists n,
      j = (i + n)%nat /\ (n < String.length s)%nat
      /\ (balance + Z.of_nat (count_char opener (take (S n) s))
          = Z.of_nat (count_char closer (take (S n) s)))%Z
      /\ last_char (take (S n) s) = Some closer.
Proof.
  intros Hne. induction s as [|ch r IH]; intros balance i j; [discriminate|].
  cbn [balanced_end].
  assert (Hstep : forall b,
             balanced_end opener closer b (S i) r = Some j ->
             exists n' : nat,
               j = (S i + n')%nat /\ (n' < String.length r)%nat
               /\ (b + Z.of_nat (count_char opener (take (S n') r))
                   = Z.of_nat (count_char closer (take (S n') r)))%Z
               /\ last_char (String ch (take (S n') r)) = Some closer).
  { intros b Hb. destruct (IH _ _ _ Hb) as (n' & -> & Hlt & Hcount & Hlast).
    exists n'. repeat split; try assumption.
    destruct r as [|c2 r2]; [simpl in Hlt; lia|]. exact Hlast. }
  destruct (Ascii.eqb_spec ch opener) as [->|Hno].
  - intros H. destruct (Hstep _ H) as (n' & -> & Hlt & Hcount & Hlast).
    exists (S n'). split; [lia|]. split; [simpl; lia|]. split; [|exact Hlast].
    rewrite !count_take_cons, Ascii.eqb_refl.
    destruct (Ascii.eqb_spec opener closer); [contradiction|]. lia.
  - destruct (Ascii.eqb_spec ch closer) as [->|Hnc].
    + destruct (Z.eqb_spec (balance - 1) 0) as [Hz|Hz].
      * intros [= <-]. exists O. split; [lia|]. split; [simpl; lia|].
        cbn [take count_char]. rewrite Ascii.eqb_refl.
        destruct (Ascii.eqb_spec closer opener); [congruence|].
        split; [simpl; lia|reflexivity].
      * intros H. destruct (Hstep _ H) as (n' & -> & Hlt & Hcount & Hlast).
        exists (S n'). split; [lia|]. split; [simpl; lia|]. split; [|exact Hlast].
        rewrite !count_take_cons, Ascii.eqb_refl.
        destruct (Ascii.eqb_spec closer opener); [congruence|]. lia.
    + intros H. destruct (Hstep _ H) as (n' & -> & Hlt & Hcount & Hlast).
      exists (S n'). split; [lia|]. split; [simpl; lia|]. split; [|exact Hlast].
      rewrite !count_take_cons.
      destruct (Ascii.eqb_spec ch opener); [contradiction|].
      destruct (Ascii.eqb_spec ch closer); [contradiction|]. exact Hcount.
Qed.

(** X9.  The fragment [try_extract_json_fragment] hands to the parser starts at
    the first opening bracket of the text, ends with a closing bracket and
    holds as many opening as closing brackets. *)
Theorem balanced_span_is_balanced (text fragment : string) (opener closer : ascii) :
  opener <> closer ->
  balanced_span text opener closer = Some fragment ->
  (exists rest, fragment = String opener rest)
  /\ last_char fragment = Some closer
  /\ count_char opener fragment = count_char closer fragment
  /\ exists before after,
       text = before ++ fragment ++ after
       /\ any_char (Ascii.eqb opener) before = false.
Proof.
  intros Hne. unfold balanced_span.
  destruct (find_index (Ascii.eqb opener) text) as [start|] eqn:Hfind; [|discriminate].
  destruct (find_index_drop _ _ _ Hfind) as (Hpre & ch & r & Hdrop & Hch).
  apply Ascii.eqb_eq in Hch. subst ch.
  destruct (balanced_end opener closer 0 start (drop start text)) as [j|] eqn:Hend;
    [|discriminate].
  intros [= <-].
  destruct (balanced_end_spec _ _ _ Hne _ _ _ Hend) as (n & -> & Hlt & Hcount & Hlast).
  unfold slice. replace (start + n + 1 - start)%nat with (S n) by lia.
  split; [rewrite Hdrop; simpl; eauto|].
  split; [exact Hlast|]. split; [lia|].
  exists (take start text), (drop (S n) (drop start text)).
  split; [|exact Hpre].
  rewrite <- take_drop. apply take_drop.
Qed.

(** ** Wrapper objects *)

Lemma longest_spec (candidates : list (list value)) :
  forall first,
    In (longest first candidates) (first :: candidates)
    /\ forall x, In x (first :: candidates) ->
                 (List.length x <= List.length (longest first candidates))%nat.
Proof.
  induction candidates as [|c r IH]; intros first; simpl.
  - split; [now left|]. intros x [<-|[]]. lia.
  - destruct (Nat.ltb_spec (List.length first) (List.length c)) as [Hlt|Hge].
    + destruct (IH c) as [Hin Hmax]. split.
      * right. exact Hin.
      * intros x [<-|Hx]; [|now apply Hmax].
        specialize (Hmax c (or_introl eq_refl)). lia.
    + destruct (IH first) as [Hin Hmax]. split.
      * destruct Hin as [<-|Hin]; [now left|right; now right].
      * intros x [<-|[<-|Hx]].
        -- apply Hmax. now left.
        -- specialize (Hmax first (or_introl eq_refl)). lia.
        -- apply Hmax. now right.
Qed.

(** X10.  An object with a value that is an empty list or a list starting with
    an object is a wrapper: its records are the elements of one such list,
    none shorter than any other, each without a parent key. *)
Theorem wrapper_yields_longest_list (d : list (string * value)) (l : list value) :
  In (VList l) (map snd d) ->
  is_candidate_list (VList l) = true ->
  exists best,
    enumerate_records (VDict d) = map (fun rec => (None, rec)) best
    /\ In (VList best) (map snd d)
    /\ is_candidate_list (VList best) = true
    /\ (List.length l <= List.length best)%nat.
Proof.
  intros Hin Hcand. unfold enumerate_records.
  assert (Hmem : forall x, In x (map list_items (filter is_candidate_list (map snd d))) <->
                           In (VList x) (map snd d) /\ is_candidate_list (VList x) = true).
  { intros x. rewrite in_map_iff. split.
    - intros (v & <- & Hv). apply filter_In in Hv as [Hv Hc].
      destruct v; try discriminate Hc. simpl. now split.
    - intros [Hx Hc]. exists (VList x). split; [reflexivity|]. now apply filter_In. }
  destruct (map list_items (filter is_candidate_list (map snd d))) as [|c r] eqn:Hcl.
  - exfalso. apply (proj2 (Hmem l)). now split.
  - destruct (longest_spec r c) as [Hbest Hmax].
    exists (longest c r). split; [reflexivity|].
    apply Hmem in Hbest. destruct Hbest as [H1 H2].
    repeat split; try assumption.
    apply Hmax. apply Hmem. now split.
Qed.

(** ** The results and the errors of the fetcher *)

Lemma hour_outcome_success (save_raw_dir : bool) (hour : Z) (h : Z) (data : value) :
  hour_outcome save_raw_dir hour = inl (h, data) <->
  h = hour /\ data <> VNone
  /\ exists text,
       http_get hour = Ret text
       /\ (save_raw_dir = true -> save_raw hour text = Ret tt)
       /\ try_json_loads text = Ret data.
Proof.
  assert (Hnone : forall v, is_none v = false <-> v <> VNone).
  { intros v. destruct v; simpl; split; congruence. }
  unfold hour_outcome, fetch_one.
  destruct (http_get hour) as [text|e] eqn:Hget; simpl.
  - rewrite try_json_loads_ladder.
    destruct (if save_raw_dir then save_raw hour text else Ret tt) as [[]|e] eqn:Hsave; simpl.
    + split.
      * destruct (is_none (decoder_ladder text)) eqn:Hn; [discriminate|].
        intros [= <- <-]. split; [reflexivity|]. split; [now apply Hnone|].
        exists text. split; [reflexivity|]. split; [|apply try_json_loads_ladder].
        intros ->. exact Hsave.
      * intros (-> & Hd & t & [= <-] & _ & Ht).
        rewrite try_json_loads_ladder in Ht. injection Ht as <-.
        apply Hnone in Hd. now rewrite Hd.
    + split; [destruct (String.eqb (describe e) ""); discriminate|].
      intros (_ & _ & t & [= <-] & Hs & _).
      destruct save_raw_dir; [|discriminate Hsave].
      rewrite (Hs eq_refl) in Hsave. discriminate Hsave.
  - split; [destruct (String.eqb (describe e) ""); discriminate|].
    intros (_ & _ & t & [=] & _).
Qed.

Lemma lefts_in {A B : Type} (l : list (A + B)) (a : A) : In a (lefts l) <-> In (inl a) l.
Proof.
  unfold lefts. rewrite in_flat_map. split.
  - intros ([a'|b] & Hin & Ha); [destruct Ha as [<-|[]]; exact Hin|contradiction].
  - intros H. exists (inl a). split; [exact H|now left].
Qed.

(** X11.  Whenever [fetch_all] returns, and it does for every positive bound
    and every client that can be built, [results] holds exactly the hours the
    feed served and the decoder read to a value other than [None] (the raw
    payload written first when an archive is asked for), each with that
    value. *)
Theorem results_are_what_the_feed_served (hours max_concurrency : Z) (save_raw_dir : bool) :
  ((0 < max_concurrency)%Z -> new_client = Ret tt ->
   exists fetched errors,
     fetch_all hours max_concurrency save_raw_dir = Returns (fetched, errors))
  /\ (forall fetched errors,
        fetch_all hours max_concurrency save_raw_dir = Returns (fetched, errors) ->
        forall h data,
          In (h, data) fetched <->
          In h (range hours) /\ data <> VNone
          /\ exists text,
               http_get h = Ret text
               /\ (save_raw_dir = true -> save_raw h text = Ret tt)
               /\ try_json_loads text = Ret data).
Proof.
  split.
  { intros Hpos Hclient. do 2 eexists. now apply fetch_all_completes. }
  intros fetched errors Hfetch h data.
  destruct (fetch_all_returns _ _ _ _ _ Hfetch) as (-> & _).
  unfold outcomes. rewrite lefts_in, in_map_iff. split.
  - intros (hour & Hout & Hin).
    apply hour_outcome_success in Hout as (-> & Hrest). now split.
  - intros (Hin & Hrest). exists h. split; [|exact Hin].
    apply hour_outcome_success. now split.
Qed.

Lemma describe_not_empty (e : exn) : String.eqb (describe e) "" = false.
Proof. destruct e as [name msg]. destruct name; reflexivity. Qed.

Lemma rights_in {A B : Type} (l : list (A + B)) (b : B) : In b (rights l) <-> In (inr b) l.
Proof.
  unfold rights. rewrite in_flat_map. split.
  - intros ([a|b'] & Hin & Hb); [contradiction|destruct Hb as [<-|[]]; exact Hin].
  - intros H. exists (inr b). split; [exact H|now left].
Qed.

Lemma hour_outcome_failure (save_raw_dir : bool) (hour : Z) (h : Z) (msg : string) :
  hour_outcome save_raw_dir hour = inr (h, msg) <->
  h = hour
  /\ ((exists e, http_get hour = Raise e /\ msg = describe e)
      \/ (exists text e,
             http_get hour = Ret text /\ save_raw_dir = true
             /\ save_raw hour text = Raise e /\ msg = describe e)
      \/ (exists text,
             http_get hour = Ret text
             /\ (save_raw_dir = true -> save_raw hour text = Ret tt)
             /\ try_json_loads text = Ret VNone /\ msg = "unknown error")).
Proof.
  unfold hour_outcome, fetch_one.
  destruct (http_get hour) as [text|e] eqn:Hget; simpl.
  - rewrite try_json_loads_ladder.
    destruct (if save_raw_dir then save_raw hour text else Ret tt) as [[]|e] eqn:Hsave; simpl.
    + split.
      * destruct (is_none (decoder_ladder text)) eqn:Hn; [|discriminate].
        intros [= <- <-]. split; [reflexivity|]. right. right.
        exists text. split; [reflexivity|]. split; [intros ->; exact Hsave|].
        split; [|reflexivity]. rewrite try_json_loads_ladder.
        now destruct (decoder_ladder text).
      * intros (-> & [(e & [=] & _)|[(t & e & [= <-] & -> & Hs & _)|(t & [= <-] & _ & Ht & ->)]]).
        -- rewrite Hs in Hsave. discriminate Hsave.
        -- rewrite try_json_loads_ladder in Ht. injection Ht as ->. reflexivity.
    + rewrite describe_not_empty. split.
      * intros [= <- <-]. split; [reflexivity|]. right. left.
        destruct save_raw_dir; [|discriminate Hsave]. now exists text, e.
      * intros (-> & [(e' & [=] & _)|[(t & e' & [= <-] & -> & Hs & ->)|(t & [= <-] & Hs & _)]]).
        -- rewrite Hs in Hsave. now injection Hsave as ->.
        -- destruct save_raw_dir; [|discriminate Hsave].
           rewrite (Hs eq_refl) in Hsave. discriminate Hsave.
  - rewrite describe_not_empty. split.
    + intros [= <- <-]. split; [reflexivity|]. left. now exists e.
    + intros (-> & [(e' & [= <-] & ->)|[(t & e' & [=] & _)|(t & [=] & _)]]). reflexivity.
Qed.

(** X12.  Whenever [fetch_all] returns, and it does for every positive bound
    and every client that can be built, [errors] holds exactly the hours
    whose request failed, whose raw payload could not be written, or whose
    body no strategy of the decoder could read; the message is the name and
    the text of the exception in the first two cases and [unknown error] in
    the third. *)
Theorem errors_are_the_failed_hours (hours max_concurrency : Z) (save_raw_dir : bool) :
  ((0 < max_concurrency)%Z -> new_client = Ret tt ->
   exists fetched errors,
     fetch_all hours max_concurrency save_raw_dir = Returns (fetched, errors))
  /\ (forall fetched errors,
        fetch_all hours max_concurrency save_raw_dir = Returns (fetched, errors) ->
        forall h msg,
          In (h, msg) errors <->
          In h (range hours)
          /\ ((exists e, http_get h = Raise e /\ msg = describe e)
              \/ (exists text e,
                     http_get h = Ret text /\ save_raw_dir = true
                     /\ save_raw h text = Raise e /\ msg = describe e)
              \/ (exists text,
                     http_get h = Ret text
                     /\ (save_raw_dir = true -> save_raw h text = Ret tt)
                     /\ try_json_loads text = Ret VNone /\ msg = "unknown error"))).
Proof.
  split.
  { intros Hpos Hclient. do 2 eexists. now apply fetch_all_completes. }
  intros fetched errors Hfetch h msg.
  destruct (fetch_all_returns _ _ _ _ _ Hfetch) as (_ & -> & _).
  unfold outcomes. rewrite rights_in, in_map_iff. split.
  - intros (hour & Hout & Hin).
    apply hour_outcome_failure in Hout as (-> & Hrest). now split.
  - intros (Hin & Hrest). exists h. split; [|exact Hin].
    apply hour_outcome_failure. now split.
Qed.

(** ** The deduplicator on any list of results *)

Lemma same_key_trans (a b c : StandardRecord) :
  same_key a b = true -> same_key b c = true -> same_key a c = true.
Proof. unfold same_key. apply key_eqb_trans. Qed.

Lemma first_occurrences_distinct (l : list StandardRecord) :
  forall earlier,
    ForallOrdPairs (fun a b => same_key a b = false) (first_occurrences earlier l)
    /\ (forall s e, In s (first_occurrences earlier l) -> In e earlier -> same_key s e = false).
Proof.
  induction l as [|x r IH]; intros earlier; simpl.
  - split; [constructor|intros s e []].
  - destruct (IH (earlier ++ [x])%list) as [Hp He].
    destruct (existsb (same_key x) earlier) eqn:Hx.
    + split; [exact Hp|]. intros s e Hs Hin.
      apply He; [exact Hs|apply in_or_app; now left].
    + split.
      * constructor; [|exact Hp]. apply Forall_forall. intros b Hb.
        rewrite same_key_sym. apply He; [exact Hb|apply in_or_app; right; now left].
      * intros s e [<-|Hs] Hin.
        -- destruct (same_key x e) eqn:Hxe; [|reflexivity].
           assert (existsb (same_key x) earlier = true)
             by (apply existsb_exists; exists e; now split).
           congruence.
        -- apply He; [exact Hs|apply in_or_app; now left].
Qed.

Lemma first_occurrences_cover (l : list StandardRecord) :
  forall earlier c,
    In c l ->
    existsb (same_key c) earlier = true
    \/ exists s, In s (first_occurrences earlier l) /\ (s = c \/ same_key s c = true).
Proof.
  induction l as [|x r IH]; intros earlier c; simpl; [intros []|].
  intros [<-|Hc].
  - destruct (existsb (same_key x) earlier) eqn:Hx; [now left|].
    right. exists x. split; [now left|now left].
  - destruct (IH (earlier ++ [x])%list c Hc) as [Hex|(s & Hs & Hsc)].
    + rewrite existsb_app in Hex. simpl in Hex. rewrite orb_false_r in Hex.
      apply orb_true_iff in Hex as [Hex|Hcx]; [now left|].
      destruct (existsb (same_key x) earlier) eqn:Hx.
      * left. apply existsb_exists in Hx as (e & He & Hxe).
        apply existsb_exists. exists e. split; [exact He|].
        eapply same_key_trans; eassumption.
      * right. exists x. split; [now left|]. right. now rewrite same_key_sym.
    + right. exists s. split; [|exact Hsc].
      destruct (existsb (same_key x) earlier); [exact Hs|now right].
Qed.

(** X13.  Whatever the order of the results, the records [build_records]
    returns have pairwise different keys, each of them is a record of the
    payloads, and every record of the payloads is returned or has the key of a
    returned record. *)
Theorem build_records_distinct_keys (fetched : list (Z * value)) :
  let out := build_records fetched in
  ForallOrdPairs (fun a b => same_key a b = false) out
  /\ (forall s, In s out -> In s (candidates fetched))
  /\ (forall c, In c (candidates fetched) ->
        exists s, In s out /\ (s = c \/ same_key s c = true)).
Proof.
  cbv zeta. rewrite build_records_first_occurrences. split; [|split].
  - apply first_occurrences_distinct.
  - intros s Hs. apply first_occurrences_in in Hs as (l1 & l2 & -> & _).
    apply in_or_app. right. now left.
  - intros c Hc.
    destruct (first_occurrences_cover _ [] c Hc) as [Hex|H]; [discriminate Hex|exact H].
Qed.

(** ** The records of a run *)

Lemma enumerate_from_index {X : Type} (l : list X) :
  forall i ix, In ix (enumerate_from i l) -> (i <= fst ix < i + List.length l)%nat.
Proof.
  induction l as [|x r IH]; intros i ix; simpl; [intros []|].
  intros [<-|H]; [simpl; lia|]. apply IH in H. lia.
Qed.

Lemma range_check_some (bound : Z) (x : option float) (f : float) :
  bound = 90%Z \/ bound = 180%Z ->
  range_check bound x = Some f -> F.is_nan f || in_range bound f = true.
Proof.
  intros Hb. destruct x as [g|]; [|discriminate].
  rewrite (range_check_in_range bound g Hb).
  destruct (F.is_nan g || in_range bound g) eqn:Hg; [|discriminate].
  now intros [= <-].
Qed.

(** X14.  Every record of the output has a latitude in [-90, 90] or NaN and a
    longitude in [-180, 180] or NaN, carries the hour of one of the results,
    and its index is a position in the enumeration of the payload of that
    hour. *)
Theorem records_have_checked_coordinates (fetched : list (Z * value)) (s : StandardRecord) :
  In s (build_records fetched) ->
  F.is_nan (lat s) || in_range 90 (lat s) = true
  /\ F.is_nan (lon s) || in_range 180 (lon s) = true
  /\ exists data,
       In (source_hour s, data) fetched
       /\ (raw_index s < List.length (enumerate_records data))%nat.
Proof.
  intros Hs. rewrite build_records_first_occurrences in Hs.
  apply first_occurrences_in in Hs as (l1 & l2 & Hc & _).
  assert (Hin : In s (candidates fetched))
    by (rewrite Hc; apply in_or_app; right; now left).
  apply in_flat_map in Hin as ([hour data] & Hhd & Hin).
  apply in_flat_map in Hin as ([idx [pk rec]] & Hir & Hin).
  cbn [fst snd] in Hin.
  destruct (standardize_record pk rec hour idx) as [s'|] eqn:Hstd; [|contradiction].
  destruct Hin as [<-|[]].
  destruct (standardize_record_position _ _ _ _ _ Hstd) as [Hh Hi].
  rewrite standardize_record_emitted in Hstd.
  destruct (range_check 90 _) as [la|] eqn:Hla; [|discriminate].
  destruct (range_check 180 _) as [lo|] eqn:Hlo; [|discriminate].
  injection Hstd as <-. cbn [lat lon source_hour raw_index] in *.
  split; [apply (range_check_some 90 _ _ (or_introl eq_refl) Hla)|].
  split; [apply (range_check_some 180 _ _ (or_intror eq_refl) Hlo)|].
  exists data. split; [exact Hhd|].
  apply enumerate_from_index in Hir. simpl in Hir. lia.
Qed.

(** ** The shape of the enumerated records *)

Lemma list_record_shape (rec : value) :
  (List.length (list_record rec) <= 1)%nat
  /\ Forall (fun pr => fst pr = None /\ is_dict (snd pr) = true) (list_record rec).
Proof.
  assert (Hnil : (@List.length (option string * value) [] <= 1)%nat
                 /\ Forall (fun pr : option string * value =>
                              fst pr = None /\ is_dict (snd pr) = true) [])
    by (split; [simpl; lia|constructor]).
  assert (Hone : forall d,
             (List.length [(@None string, VDict d)] <= 1)%nat
             /\ Forall (fun pr : option string * value =>
                          fst pr = None /\ is_dict (snd pr) = true) [(None, VDict d)]).
  { intros d. split; [simpl; lia|]. constructor; [split; reflexivity|constructor]. }
  destruct rec as [| | | | |l|d]; try exact Hnil; [|apply Hone].
  destruct l as [|a [|b more]]; try exact Hnil.
  unfold list_record.
  destruct (py_float a) as [fa|]; [|exact Hnil].
  destruct (py_float b) as [fb|]; [|exact Hnil].
  apply Hone.
Qed.

Lemma list_payload_shape (l : list value) :
  (List.length (enumerate_records (VList l)) <= List.length l)%nat
  /\ Forall (fun pr => fst pr = None /\ is_dict (snd pr) = true) (enumerate_records (VList l)).
Proof.
  simpl. induction l as [|x r [IHn IHf]]; simpl; [split; [lia|constructor]|].
  destruct (list_record_shape x) as [Hn Hf].
  rewrite length_app. split; [lia|]. apply Forall_app. now split.
Qed.

Lemma list_record_skips (x : value) :
  is_dict x = false ->
  (forall a b more fa fb,
      x = VList (a :: b :: more) -> py_float a = Ret fa -> py_float b = Ret fb -> False) ->
  list_record x = [].
Proof.
  intros Hd Hno. destruct x as [| | | | |l|d]; try reflexivity; [|discriminate Hd].
  destruct l as [|a [|b more]]; try reflexivity.
  unfold list_record.
  destruct (py_float a) as [fa|] eqn:Ha; [|reflexivity].
  destruct (py_float b) as [fb|] eqn:Hb; [|reflexivity].
  destruct (Hno a b more fa fb eq_refl Ha Hb).
Qed.

Lemma list_record_pair (a b : value) (more : list value) (fa fb : float) :
  py_float a = Ret fa -> py_float b = Ret fb ->
  exists record,
    list_record (VList (a :: b :: more)) = [(None, VDict record)]
    /\ dict_get record "lat" = Some (VFloat fa)
    /\ dict_get record "lon" = Some (VFloat fb).
Proof.
  intros Ha Hb. unfold list_record. rewrite Ha, Hb. cbn [bind].
  eexists. split; [reflexivity|].
  destruct (match more with a0 :: _ => a0 | [] => VNone end);
    try (split; reflexivity);
    match goal with
    | |- context [py_float ?w] => destruct (py_float w); split; reflexivity
    end.
Qed.

(** X15.  A list payload is enumerated element by element, in order.  An
    element that is an object is yielded as it is.  A list of two or more
    values whose first two convert to floats yields one dictionary that holds
    them under [lat] and [lon].  Every other element is passed over.  So a
    list payload yields at most one record per element, each a dictionary
    without a parent key. *)
Theorem list_payload_yields_dicts (l : list value) :
  (List.length (enumerate_records (VList l)) <= List.length l)%nat
  /\ Forall (fun pr => fst pr = None /\ is_dict (snd pr) = true) (enumerate_records (VList l))
  /\ (forall x,
        is_dict x = true ->
        enumerate_records (VList (x :: l)) = (None, x) :: enumerate_records (VList l))
  /\ (forall a b more fa fb,
        py_float a = Ret fa -> py_float b = Ret fb ->
        exists record,
          enumerate_records (VList (VList (a :: b :: more) :: l))
          = (None, VDict record) :: enumerate_records (VList l)
          /\ dict_get record "lat" = Some (VFloat fa)
          /\ dict_get record "lon" = Some (VFloat fb))
  /\ (forall x,
        is_dict x = false ->
        (forall a b more fa fb,
            x = VList (a :: b :: more) ->
            py_float a = Ret fa -> py_float b = Ret fb -> False) ->
        enumerate_records (VList (x :: l)) = enumerate_records (VList l)).
Proof.
  destruct (list_payload_shape l) as [Hn Hf].
  split; [exact Hn|]. split; [exact Hf|]. split; [|split].
  - intros x Hx. destruct x; try discriminate Hx. reflexivity.
  - intros a b more fa fb Ha Hb.
    destruct (list_record_pair a b more fa fb Ha Hb) as (record & Hrec & Hlat & Hlon).
    exists record. split; [|now split].
    cbn [enumerate_records flat_map]. now rewrite Hrec.
  - intros x Hd Hno. cbn [enumerate_records flat_map].
    now rewrite (list_record_skips x Hd Hno).
Qed.

(** X16.  A parent key is only ever the key of an entry of an object all of
    whose values are objects and none of whose values is a list of records. *)
Theorem parent_keys_come_from_id_maps (obj : value) (k : string) (rec : value) :
  In (Some k, rec) (enumerate_records obj) ->
  exists d,
    obj = VDict d /\ In (k, rec) d
    /\ Forall (fun v => is_dict v = true) (map snd d)
    /\ Forall (fun v => is_candidate_list v = false) (map snd d).
Proof.
  destruct obj as [| | | | |l|d]; simpl; try (intros []).
  - intros H. destruct (list_payload_shape l) as [_ Hf].
    rewrite Forall_forall in Hf. apply Hf in H as [H _]. discriminate H.
  - destruct (filter is_candidate_list (map snd d)) as [|c r] eqn:Hfilter; simpl.
    + destruct (forallb is_dict (map snd d)) eqn:Hall.
      * intros H. apply in_map_iff in H as ([k' v] & [= <- <-] & Hin).
        exists d. split; [reflexivity|]. split; [exact Hin|]. split.
        -- apply Forall_forall. intros w Hw.
           rewrite forallb_forall in Hall. now apply Hall.
        -- apply Forall_forall. intros w Hw.
           destruct (is_candidate_list w) eqn:Hc; [|reflexivity].
           assert (Hf : In w (filter is_candidate_list (map snd d)))
             by (apply filter_In; now split).
           rewrite Hfilter in Hf. destruct Hf.
      * intros [[=]|[]].
    + intros H. apply in_map_iff in H as (x & [=] & _).
Qed.

(** X17.  A positional element [[lat, lon, alt_km, ...]] whose three leading
    values convert to floats, the first two passing the range test, is emitted
    with exactly these coordinates, the altitude times 1000, no id and the
    approximated time of its hour; the values after the third are ignored. *)
Theorem positional_element_record (lat_val lon_val alt_val : value) (more : list value)
    (la lo a : float) (hour : Z) :
  py_float lat_val = Ret la ->
  py_float lon_val = Ret lo ->
  py_float alt_val = Ret a ->
  F.gtb (F.of_Z (-90)) la || F.gtb la (F.of_Z 90) = false ->
  F.gtb (F.of_Z (-180)) lo || F.gtb lo (F.of_Z 180) = false ->
  build_records [(hour, VList [VList (lat_val :: lon_val :: alt_val :: more)])]
  = [mkRecord None la lo (Some (F.mul a c_1000)) (approx_time_iso hour 0) hour 0].
Proof.
  intros Hla Hlo Ha Rla Rlo.
  assert (Henum : enumerate_records (VList [VList (lat_val :: lon_val :: alt_val :: more)])
                  = [(None, VDict [("lat", VFloat la); ("lon", VFloat lo);
                                   ("altkm", VFloat a)])]).
  { cbn [enumerate_records flat_map list_record app]. rewrite Hla, Hlo. cbn [bind].
    destruct alt_val; try (rewrite Ha; reflexivity). discriminate Ha. }
  assert (Hstd : standardize_record None
                   (VDict [("lat", VFloat la); ("lon", VFloat lo); ("altkm", VFloat a)]) hour 0
                 = Some (mkRecord None la lo (Some (F.mul a c_1000))
                           (approx_time_iso hour 0) hour 0)).
  { rewrite standardize_record_emitted.
    change (flatten_dict (VDict [("lat", VFloat la); ("lon", VFloat lo); ("altkm", VFloat a)])
              "" [])
      with [("lat", VFloat la); ("lon", VFloat lo); ("altkm", VFloat a)].
    change (resolve_lat [("lat", VFloat la); ("lon", VFloat lo); ("altkm", VFloat a)])
      with (Some la).
    change (resolve_lon [("lat", VFloat la); ("lon", VFloat lo); ("altkm", VFloat a)])
      with (Some lo).
    unfold range_check. cbn [Z.opp]. rewrite Rla, Rlo. reflexivity. }
  unfold build_records. cbn [fold_left]. unfold build_hour. cbn [fst snd].
  rewrite Henum. cbn [enumerate_from fold_left fst snd]. rewrite Hstd.
  unfold add_record, key_in. reflexivity.
Qed.

(** ** Identity *)

Lemma str_of_Z_not_empty (z : Z) : str_of_Z z <> "".
Proof.
  unfold str_of_Z, NilZero.string_of_int, NilZero.string_of_uint.
  destruct (Z.to_int z) as [d|d]; destruct d; simpl; discriminate.
Qed.

Lemma first_truthy_truthy (flat : dict) (keys : list string) (v : value) :
  first_truthy flat keys = Some v -> truthy v = true.
Proof.
  induction keys as [|k r IH]; simpl; [discriminate|].
  destruct (dict_get flat k) as [w|]; [|exact IH].
  destruct (truthy w) eqn:Hw; [|exact IH]. now intros [= <-].
Qed.

(** X18.  The id of a record is never the empty text, as long as the display of
    a float, of a list and of an object is not empty: an id field that is
    empty, zero, false or null is passed over, and so is an empty parent key. *)
Theorem extract_id_never_empty (parent_key : option string) (flat : dict) :
  (forall f, repr_float f <> "") ->
  (forall v, repr_container v <> "") ->
  extract_id parent_key flat <> Some "".
Proof.
  intros Hf Hc. unfold extract_id.
  destruct (first_truthy flat id_candidates) as [v|] eqn:Hv.
  - apply first_truthy_truthy in Hv. intros [= H].
    destruct v as [|b|z|f|s|l|d]; simpl in H, Hv.
    + discriminate Hv.
    + destruct b; discriminate H.
    + now apply str_of_Z_not_empty in H.
    + now apply Hf in H.
    + subst s. discriminate Hv.
    + now apply Hc in H.
    + now apply Hc in H.
  - destruct parent_key as [pk|]; [|discriminate].
    destruct (String.eqb pk "") eqn:Hpk; [discriminate|].
    intros [= ->]. discriminate Hpk.
Qed.

(** ** The lines of the record file *)

Lemma count_char_app (c : ascii) (a b : string) :
  count_char c (a ++ b) = (count_char c a + count_char c b)%nat.
Proof.
  induction a as [|x r IH]; simpl; [reflexivity|].
  destruct (Ascii.eqb x c); simpl; now rewrite IH.
Qed.

Lemma one_line_no_newline (s : string) :
  one_line s = true -> count_char (ascii_of_nat 10) s = O.
Proof.
  induction s as [|c r IH]; simpl; [reflexivity|].
  intros H. apply andb_true_iff in H as [Hc Hr].
  apply negb_true_iff, orb_false_iff in Hc as [Hc _].
  destruct (Ascii.eqb c (ascii_of_nat 10)) eqn:E; [|now apply IH].
  apply Ascii.eqb_eq in E. subst c. discriminate Hc.
Qed.

Lemma ndjson_lines (records : list StandardRecord) :
  (forall f, one_line (repr_float f) = true) ->
  count_char (ascii_of_nat 10) (fst (outputs_text records)) = List.length records.
Proof.
  intros Hrepr. unfold outputs_text. cbn [fst].
  induction records as [|r rs IH]; [reflexivity|].
  cbn [map String.concat List.length].
  assert (Hline : count_char (ascii_of_nat 10) (json_dumps (record_items r) ++ newline) = 1%nat).
  { rewrite count_char_app, (one_line_no_newline _ (json_dumps_one_line _ Hrepr)).
    reflexivity. }
  destruct (map _ rs) as [|x xs] eqn:Hmap.
  - destruct rs; [|discriminate Hmap]. exact Hline.
  - change (String.concat "" (?a :: x :: xs)) with (a ++ "" ++ String.concat "" (x :: xs)).
    rewrite count_char_app, Hline. cbn [append]. now rewrite IH.
Qed.

Lemma last_char_app (u t : string) (c : ascii) :
  last_char t = Some c -> last_char (u ++ t) = Some c.
Proof.
  intros Ht. induction u as [|x u IH]; [exact Ht|].
  simpl append. destruct (u ++ t) eqn:E; [discriminate IH|]. exact IH.
Qed.

Lemma ndjson_last (records : list StandardRecord) :
  records <> [] ->
  last_char (fst (outputs_text records)) = Some (ascii_of_nat 10).
Proof.
  unfold outputs_text. cbn [fst].
  destruct records as [|x rs]; [congruence|]. intros _.
  revert x. induction rs as [|y rs IH]; intros x.
  - cbn [map String.concat]. now apply last_char_app.
  - cbn [map String.concat]. apply last_char_app, (last_char_app ""), (IH y).
Qed.

(** X19.  When the display of a float has no line break, the record file of a
    run that returns has as many line feeds as the run reports records, and
    the file is empty or ends with a line feed. *)
Theorem record_file_has_one_line_per_record (args : Args) (r : RunResult) :
  (forall f, one_line (repr_float f) = true) ->
  main args = Returns r ->
  count_char (ascii_of_nat 10) (ndjson_file r) = stdout_count r
  /\ (ndjson_file r = "" \/ last_char (ndjson_file r) = Some (ascii_of_nat 10)).
Proof.
  intros Hrepr. unfold main.
  destruct (fetch_all _ _ _) as [[fetched errors]| |]; try discriminate.
  destruct (write_outputs (build_records fetched)) as [[fnd fcsv]|] eqn:Hw; [|discriminate].
  intros [= <-]. cbn [ndjson_file stdout_count].
  apply write_outputs_content in Hw.
  assert (Hnd : fnd = fst (outputs_text (build_records fetched))) by now rewrite <- Hw.
  rewrite Hnd. split; [now apply ndjson_lines|].
  destruct (build_records fetched) as [|x rs] eqn:Hrecs; [now left|].
  right. now apply ndjson_last.
Qed.

(** ** The trimming of a payload text *)

Lemma find_index_none (p : ascii -> bool) (s : string) :
  find_index p s = None <-> any_char p s = false.
Proof.
  induction s as [|c r IH]; simpl; [split; reflexivity|].
  destruct (p c); simpl; [split; discriminate|].
  destruct (find_index p r); [|tauto].
  split; [discriminate|]. intros H. apply IH in H. discriminate H.
Qed.

Lemma find_last_index_none (p : ascii -> bool) (s : string) :
  find_last_index p s = None <-> any_char p s = false.
Proof.
  induction s as [|c r IH]; simpl; [split; reflexivity|].
  destruct (find_last_index p r).
  - split; [discriminate|]. intros H. apply orb_false_iff in H as [_ H].
    apply IH in H. discriminate H.
  - destruct (p c); simpl; [split; discriminate|]. tauto.
Qed.

Lemma find_last_index_drop (p : ascii -> bool) (s : string) :
  forall j,
    find_last_index p s = Some j ->
    exists c rest, drop j s = String c rest /\ p c = true /\ any_char p rest = false.
Proof.
  induction s as [|c r IH]; intros j; simpl; [discriminate|].
  destruct (find_last_index p r) as [k|] eqn:Hk.
  - intros [= <-]. simpl. now apply IH.
  - destruct (p c) eqn:Hc; [|discriminate]. intros [= <-]. simpl.
    exists c, r. split; [reflexivity|]. split; [exact Hc|].
    now apply find_last_index_none.
Qed.

Lemma drop_drop (a b : nat) (s : string) : drop b (drop a s) = drop (a + b) s.
Proof.
  revert s. induction a as [|a IH]; intros s; simpl; [reflexivity|].
  destruct s as [|c r]; [now destruct b|]. apply IH.
Qed.

Lemma last_char_take (n : nat) :
  forall t c r, drop n t = String c r -> last_char (take (S n) t) = Some c.
Proof.
  induction n as [|n IH]; intros t c r H.
  - simpl in H. subst t. reflexivity.
  - destruct t as [|x t']; [discriminate H|]. simpl in H.
    specialize (IH t' c r H).
    change (take (S (S n)) (String x t')) with (String x (take (S n) t')).
    destruct (take (S n) t') eqn:E; [discriminate IH|]. exact IH.
Qed.

Lemma take_add (a b : nat) (s : string) : take (a + b) s = take a s ++ take b (drop a s).
Proof.
  revert s. induction a as [|a IH]; intros s; simpl; [reflexivity|].
  destruct s as [|c r]; [now destruct b|]. simpl. now rewrite IH.
Qed.

Lemma any_char_app (p : ascii -> bool) (a b : string) :
  any_char p (a ++ b) = any_char p a || any_char p b.
Proof. induction a as [|c r IH]; simpl; [reflexivity|]. now rewrite IH, orb_assoc. Qed.

(** X20.  The trimming leaves a text without an opening or without a closing
    bracket as it is.  A text with both is cut to the part from its first
    opening bracket to its last closing bracket, nothing before the one and
    nothing after the other being kept; when the last closing bracket comes
    before the first opening one, the result is empty. *)
Theorem trim_to_brackets_span (s : string) :
  (any_char is_opener s = false \/ any_char is_closer s = false -> trim_to_brackets s = s)
  /\ (any_char is_opener s = true -> any_char is_closer s = true ->
      (exists before after o rest c,
          s = before ++ trim_to_brackets s ++ after
          /\ any_char is_opener before = false
          /\ any_char is_closer after = false
          /\ trim_to_brackets s = String o rest /\ is_opener o = true
          /\ last_char (trim_to_brackets s) = Some c /\ is_closer c = true)
      \/ (trim_to_brackets s = ""
          /\ exists pre c mid o post,
               s = pre ++ String c mid ++ String o post
               /\ is_closer c = true /\ is_opener o = true
               /\ any_char is_opener (pre ++ String c mid) = false
               /\ any_char is_closer (mid ++ String o post) = false)).
Proof.
  unfold trim_to_brackets.
  destruct (find_index is_opener s) as [i|] eqn:Hi.
  2: { apply find_index_none in Hi. split; [reflexivity|]. intros H. congruence. }
  destruct (find_last_index is_closer s) as [j|] eqn:Hj.
  2: { apply find_last_index_none in Hj. split; [reflexivity|]. intros _ H. congruence. }
  split.
  - intros [H|H].
    + apply find_index_none in H. congruence.
    + apply find_last_index_none in H. congruence.
  - intros _ _. unfold slice.
    destruct (find_index_drop _ _ _ Hi) as (Hpre & o & r1 & Hdrop & Ho).
    destruct (find_last_index_drop _ _ _ Hj) as (c & rest & Hdj & Hc & Hrest).
    destruct (le_lt_dec i j) as [Hij|Hji].
    + left.
      replace (j + 1 - i)%nat with (S (j - i)) by lia.
      assert (Hlast : drop (j - i) (drop i s) = String c rest).
      { rewrite drop_drop. now replace (i + (j - i))%nat with j by lia. }
      assert (Hafter : drop (S (j - i)) (drop i s) = rest).
      { replace (S (j - i)) with ((j - i) + 1)%nat by lia.
        now rewrite <- drop_drop, Hlast. }
      exists (take i s), rest, o, (take (j - i) r1), c.
      split; [|split; [exact Hpre|split; [exact Hrest|]]].
      * rewrite <- Hafter, <- take_drop. apply take_drop.
      * split; [now rewrite Hdrop|]. split; [exact Ho|].
        split; [|exact Hc]. now apply last_char_take with (r := rest).
    + right. split; [now replace (j + 1 - i)%nat with O by lia|].
      assert (Hrest' : drop (S j) s = rest).
      { replace (S j) with (j + 1)%nat by lia. now rewrite <- drop_drop, Hdj. }
      assert (Hpost : drop (i - S j) rest = String o r1).
      { rewrite <- Hrest', drop_drop. now replace (S j + (i - S j))%nat with i by lia. }
      assert (Hmid : rest = take (i - S j) rest ++ String o r1)
        by (rewrite <- Hpost; apply take_drop).
      assert (Htake : take i s = take j s ++ String c (take (i - S j) rest)).
      { replace i with (j + S (i - S j))%nat at 1 by lia.
        rewrite take_add, Hdj. reflexivity. }
      exists (take j s), c, (take (i - S j) rest), o, r1.
      split; [|split; [exact Hc|split; [exact Ho|split]]].
      * change (String c (take (i - S j) rest) ++ String o r1)
          with (String c (take (i - S j) rest ++ String o r1)).
        rewrite <- Hmid, <- Hdj. apply take_drop.
      * now rewrite <- Htake.
      * now rewrite <- Hmid.
Qed.

(** ** Altitude fields that carry a unit *)

Lemma first_coerced_single (k : string) (v : value) (keys : list string) :
  v <> VNone ->
  first_coerced [(k, v)] keys = if existsb (String.eqb k) keys then coerce_float v else None.
Proof.
  intros Hv. induction keys as [|k' r IH]; [reflexivity|].
  cbn [first_coerced existsb]. unfold get_present. cbn [dict_get].
  rewrite (String.eqb_sym k' k). destruct (String.eqb k k'); cbn [orb].
  - destruct v; try congruence;
      match goal with
      | |- context [coerce_float ?w] =>
          destruct (coerce_float w) eqn:E; [reflexivity|];
          rewrite IH; destruct (existsb (String.eqb k) r); first [exact E|reflexivity]
      end.
  - exact IH.
Qed.

(** X21.  A text under a meters key or a feet key is read by its first number
    alone: the unit written after the number is not looked at, so the text [3
    km] under [alt] is 3 meters. *)
Theorem altitude_field_ignores_unit (k s : string) (x : float) :
  coerce_float (VStr s) = Some x ->
  (In k meter_keys -> extract_alt_m [(k, VStr s)] = Some x)
  /\ (In k feet_keys -> extract_alt_m [(k, VStr s)] = Some (feet_to_meters x)).
Proof.
  intros Hx. unfold extract_alt_m.
  rewrite !first_coerced_single by discriminate. rewrite Hx.
  split; intros Hk; simpl in Hk;
    repeat (destruct Hk as [<-|Hk]; [reflexivity|]); destruct Hk.
Qed.

(** ** Records with a NaN coordinate *)

Lemma F_eqb_self (a : float) : F.eqb a a = false <-> F.is_nan a = true.
Proof.
  split.
  - intros H. destruct (F.is_nan a) eqn:Hn; [reflexivity|].
    rewrite (F_eqb_refl a Hn) in H. discriminate H.
  - destruct a; try discriminate. reflexivity.
Qed.

Lemma F_eqb_nan (a b : float) : F.is_nan a = true -> F.eqb a b = false.
Proof. destruct a; try discriminate. reflexivity. Qed.

Lemma opt_str_eqb_refl (a : option string) : opt_str_eqb a a = true.
Proof. now apply opt_str_eqb_eq. Qed.

Lemma same_key_self (c : StandardRecord) :
  same_key c c = false <->
  F.is_nan (round6 (lat c)) || F.is_nan (round6 (lon c)) = true.
Proof.
  unfold same_key, dedup_key, key_eqb.
  rewrite opt_str_eqb_refl, String.eqb_refl. cbn [andb].
  rewrite andb_false_iff, orb_true_iff, !F_eqb_self. reflexivity.
Qed.

Lemma same_key_nan (c e : StandardRecord) : same_key c c = false -> same_key c e = false.
Proof.
  intros H. apply same_key_self, orb_true_iff in H.
  unfold same_key, dedup_key, key_eqb.
  destruct H as [H|H]; rewrite (F_eqb_nan _ _ H); [now rewrite andb_false_r|].
  apply andb_false_r.
Qed.

(** X22.  A record whose rounded latitude or longitude is NaN has a key that
    compares unequal to the key of every record, of a record with the same
    fields too; every such record of the payloads is returned, however often
    it occurs. *)
Theorem nan_keyed_records_are_all_kept (fetched : list (Z * value)) (c : StandardRecord) :
  (same_key c c = false <->
   F.is_nan (round6 (lat c)) || F.is_nan (round6 (lon c)) = true)
  /\ (In c (candidates fetched) -> same_key c c = false -> In c (build_records fetched)).
Proof.
  split; [apply same_key_self|]. intros Hc Hnan.
  rewrite build_records_first_occurrences. apply first_occurrences_in.
  apply in_split in Hc as (l1 & l2 & ->). exists l1, l2. split; [reflexivity|].
  simpl. destruct (existsb (same_key c) l1) eqn:Hex; [|reflexivity].
  apply existsb_exists in Hex as (e & _ & He).
  now rewrite (same_key_nan c e Hnan) in He.
Qed.

(** ** Time stamps written as text *)

(** X23.  A time stamp written as a text that is a bare number, with around
    it only whitespace that [float] strips as well, always converts: [float]
    cannot fail on it, the date parser is not consulted, and the number is
    read as seconds or, above [1e10], as milliseconds.  The separators
    U+001C to U+001F are whitespace for the bare-number test and not for
    [float]: the text of U+001C followed by 1700000000 passes the test,
    [float] raises, and the record gets no time stamp from it. *)
Theorem bare_number_text_is_a_timestamp :
  (forall flat s,
      first_present flat time_candidates = Some (VStr s) ->
      fullmatch_number (strip s) = true ->
      float_strip s = strip s ->
      exists sec,
        float_of_str s = Ret sec
        /\ parse_time_to_iso flat
           = success (fromtimestamp_iso
                        (if F.gtb sec c_1e10 then F.div sec c_1000 else sec)))
  /\ (let s := String (ascii_of_nat 28) "1700000000" in
      fullmatch_number (strip s) = true
      /\ float_strip s = s
      /\ float_of_str s = Raise value_error
      /\ parse_time_to_iso [("time", VStr s)] = None).
Proof.
  split.
  - intros flat s Hval Hfull Hfs.
    destruct (fullmatch_number_float s Hfull Hfs) as (sec & Hsec).
    exists sec. split; [exact Hsec|].
    now apply parse_time_bare_number with (s := s).
  - repeat split.
Qed.

(** ** The reader of the table *)

Lemma read_row_filter (b : string) (r : Utils.row) :
  Utils.read_row (Some b) r =
  filter (fun s => String.eqb (Utils.id_or_empty (Utils.id s)) b) (Utils.read_row None r).
Proof.
  unfold Utils.read_row, Utils.skipped.
  destruct (Utils.number_cell r "lat") as [la|]; cbn [bind];
    [|now destruct (negb _)].
  destruct (Utils.number_cell r "lon") as [lo|]; cbn [bind];
    [|now destruct (negb _)].
  destruct (Utils.number_cell r "alt_m") as [al|]; cbn [bind];
    [|now destruct (negb _)].
  cbn [filter Utils.id].
  now destruct (String.eqb (Utils.id_or_empty (Utils.get r "id")) b).
Qed.

(** X24.  Reading the table for one balloon gives the rows of the unfiltered
    reading whose id (the empty text when the cell is missing) is that of the
    balloon, in the same order: no row of another balloon is returned, and a
    row with an unreadable number is dropped either way. *)
Theorem read_constellation_csv_filters (reader : list Utils.row) (b : string) :
  Utils.read_constellation_csv reader (Some b)
  = filter (fun s => String.eqb (Utils.id_or_empty (Utils.id s)) b)
      (Utils.read_constellation_csv reader None)
  /\ Forall (fun s => Utils.id_or_empty (Utils.id s) = b)
       (Utils.read_constellation_csv reader (Some b))
  /\ (List.length (Utils.read_constellation_csv reader (Some b))
      <= List.length (Utils.read_constellation_csv reader None) <= List.length reader)%nat.
Proof.
  assert (Hfilter : Utils.read_constellation_csv reader (Some b)
                    = filter (fun s => String.eqb (Utils.id_or_empty (Utils.id s)) b)
                        (Utils.read_constellation_csv reader None)).
  { unfold Utils.read_constellation_csv.
    induction reader as [|r rs IH]; [reflexivity|].
    cbn [flat_map]. now rewrite filter_app, <- IH, read_row_filter. }
  split; [exact Hfilter|]. split.
  - rewrite Hfilter. apply Forall_forall. intros s Hs.
    apply filter_In in Hs as [_ Hs]. now apply String.eqb_eq.
  - rewrite Hfilter. split; [apply filter_length_le|]. clear Hfilter.
    unfold Utils.read_constellation_csv.
    induction reader as [|r rs IH]; [simpl; lia|].
    cbn [flat_map]. rewrite length_app. cbn [List.length].
    assert (List.length (Utils.read_row None r) <= 1)%nat; [|lia].
    unfold Utils.read_row, Utils.skipped.
    destruct (_ <- _ ;; _) as [[[? ?] ?]|]; simpl; lia.
Qed.

End Pipeline.

(** * Concrete runs *)

(** C4, where the claim fails.  In the record [{"latE7": 10^400, "lat": 5,
    "lon": 6}] the field ['late7'] holds an integer too large for a float:
    [coerce_float] catches the overflow and the plain field ['lat'] supplies
    the latitude. *)
Lemma e7_overflow_falls_back :
  let flat := [("late7", VInt (10 ^ 400)); ("lat", VInt 5); ("lon", VInt 6)] in
  flatten_dict (VDict [("latE7", VInt (10 ^ 400)); ("lat", VInt 5); ("lon", VInt 6)]) "" []
  = flat
  /\ dict_get flat "late7" = Some (VInt (10 ^ 400))
  /\ resolve_lat flat = Some (F.of_Z 5)
  /\ resolve_lat flat <> Some (F.div (F.of_Z (10 ^ 400)) c_1e7)
  /\ extract_lat_lon flat = (Some (F.of_Z 5), Some (F.of_Z 6)).
Proof.
  repeat split; try (vm_compute; reflexivity).
  vm_compute. discriminate.
Qed.

(** C6, where the claim fails.  The items of a standard record, which is the
    order of the fields on a line of the record file, are not in the order of
    the header of the table. *)
Lemma field_orders_differ :
  let r := mkRecord (Some "b1") (F.of_Z 5) (F.of_Z 6) None "2023-11-14T22:13:20+00:00" 0 0 in
  map fst (record_items r) <> csv_header
  /\ nth 1 (map fst (record_items r)) "" = "lat"
  /\ nth 1 csv_header "" = "time_iso".
Proof.
  repeat split. vm_compute. discriminate.
Qed.

(** C7, where the claim fails.  In the id-keyed map [{"": {"lat": 5, "lon":
    6}}] the parent key is the empty string; [extract_id] tests the truth of
    the key and the record is emitted without an id. *)
Lemma empty_parent_key_gives_no_id :
  let payload := VDict [("", VDict [("lat", VInt 5); ("lon", VInt 6)])] in
  enumerate_records payload = [(Some "", VDict [("lat", VInt 5); ("lon", VInt 6)])]
  /\ map id
       (build_records Offline.iso_of_epoch Offline.date_parser Offline.clock
          Offline.repr_float Offline.repr_container Offline.round6 [(0%Z, payload)])
     = [None]
  /\ @None string <> Some "".
Proof.
  repeat split. discriminate.
Qed.

(** C4 at a record with both spellings: the E7 fields decide. *)
Lemma e7_takes_precedence_witness :
  resolve_lat [("late7", VInt 123456789); ("lat", VInt 5); ("lone7", VInt (-987654321));
               ("lon", VInt 6)]
  = Some (F.div (F.of_Z 123456789) c_1e7).
Proof.
  apply (proj1 e7_takes_precedence); reflexivity.
Defined.

(** C5 at a millisecond time stamp. *)
Lemma timestamp_seconds_or_milliseconds_witness :
  parse_time_to_iso Offline.iso_of_epoch Offline.date_parser
    [("lat", VInt 5); ("timestamp", VInt 1700000000000)]
  = success (Offline.iso_of_epoch (F.div (F.of_Z 1700000000000) c_1000)).
Proof.
  apply (proj1 (timestamp_seconds_or_milliseconds Offline.iso_of_epoch Offline.date_parser)
           _ (VInt 1700000000000)).
  - reflexivity.
  - left. now exists 1700000000000%Z.
Defined.

(** C5, where the claim fails.  The integer [10^400] is a numeric time stamp
    too large for a float: [float] raises and the record gets no time stamp
    from it.  The text of U+001C followed by 1700000000 is a bare number for
    the test of [parse_time_to_iso], which strips it as [str.strip] does;
    [float] does not strip U+001C, raises, and no time stamp results. *)
Lemma unconvertible_time_stamps_give_none :
  parse_time_to_iso Offline.iso_of_epoch Offline.date_parser [("time", VInt (10 ^ 400))] = None
  /\ fullmatch_number (strip (String (ascii_of_nat 28) "1700000000")) = true
  /\ parse_time_to_iso Offline.iso_of_epoch Offline.date_parser
       [("time", VStr (String (ascii_of_nat 28) "1700000000"))] = None
  /\ parse_time_to_iso Offline.iso_of_epoch Offline.date_parser
       [("time", VStr "1700000000")] <> None.
Proof.
  repeat split; try (vm_compute; reflexivity).
  vm_compute. discriminate.
Qed.

(** C7 at the record of the key ["b1"]. *)
Lemma parent_key_is_the_fallback_id_witness :
  id (mkRecord (Some "b1") (F.of_Z 5) (F.of_Z 6) None (Offline.clock 0 0) 0 0) = Some "b1".
Proof.
  apply (proj1 (proj2 (parent_key_is_the_fallback_id Offline.iso_of_epoch
                         Offline.date_parser Offline.clock Offline.repr_float
                         Offline.repr_container Offline.round6))
           "b1" (VDict [("lat", VInt 5); ("lon", VInt 6)]) 0%Z O).
  - reflexivity.
  - intros k Hk. simpl in Hk.
    repeat (destruct Hk as [<-|Hk]; [reflexivity|]). contradiction.
Defined.





(** C10 at a text no strategy can read. *)
Lemma decoder_never_raises_witness :
  try_json_loads Offline.parser Offline.parser "<html>busy</html>" = Ret VNone.
Proof.
  apply (proj2 (proj2 (decoder_never_raises Offline.parser Offline.parser
                         "<html>busy</html>"))).
  repeat split.
Defined.

(** C6 at a record with an id and no altitude, floats printed as
    [Offline.repr_float] prints them. *)
Lemma outputs_share_fields_witness :
  one_line
    (json_dumps Offline.repr_float
       (record_items
          (mkRecord (Some "b1") (F.of_Z 5) (F.of_Z 6) None "2023-11-14T22:13:20+00:00" 0 0)))
  = true.
Proof.
  apply (proj2 (proj2 (proj2 (proj2 (proj2
           (outputs_share_fields Offline.repr_float Offline.ensure_out_dir
              Offline.open_file Offline.write_text Offline.close_file []
              (mkRecord (Some "b1") (F.of_Z 5) (F.of_Z 6) None
                 "2023-11-14T22:13:20+00:00" 0 0))))))).
  intros f. reflexivity.
Defined.

(** * The run and the order of completion *)

(** X25.  The results, the errors and the whole outcome of a run do not
    depend on the order in which the requests complete: two schedules of the
    same feed end the same way and leave the same files, the same count and
    the same lines on the error stream. *)
Theorem run_independent_of_completion_order
    (json_loads json5_loads : string -> outcome value)
    (fromtimestamp_iso : float -> outcome string) (dateutil_iso : string -> outcome string)
    (approx_time_iso : Z -> nat -> string)
    (repr_float : float -> string) (repr_container : value -> string)
    (round6 : float -> float)
    (http_get : Z -> outcome string) (save_raw : Z -> string -> outcome unit)
    (finish_time finish_time' : Z -> Z)
    (new_client ensure_out_dir : outcome unit) (open_file : string -> outcome unit)
    (write_text : string -> string -> outcome unit) (close_file : string -> outcome unit)
    (args : Args) :
  (forall hours max_concurrency save_raw_dir,
      fetch_all json_loads json5_loads http_get save_raw finish_time new_client
        hours max_concurrency save_raw_dir
      = fetch_all json_loads json5_loads http_get save_raw finish_time' new_client
          hours max_concurrency save_raw_dir)
  /\ main json_loads json5_loads fromtimestamp_iso dateutil_iso approx_time_iso repr_float
       repr_container round6 http_get save_raw finish_time new_client ensure_out_dir
       open_file write_text close_file args
     = main json_loads json5_loads fromtimestamp_iso dateutil_iso approx_time_iso repr_float
         repr_container round6 http_get save_raw finish_time' new_client ensure_out_dir
         open_file write_text close_file args.
Proof.
  assert (Hfetch : forall hours max_concurrency save_raw_dir,
             fetch_all json_loads json5_loads http_get save_raw finish_time new_client
               hours max_concurrency save_raw_dir
             = fetch_all json_loads json5_loads http_get save_raw finish_time' new_client
                 hours max_concurrency save_raw_dir).
  { intros hours max_concurrency save_raw_dir.
    now rewrite !(fetch_all_cases json_loads json5_loads approx_time_iso). }
  split; [exact Hfetch|]. unfold main. now rewrite Hfetch.
Qed.

(** * Concrete runs of the further properties *)

(** X2 at two spellings of one field. *)
Lemma normalize_key_ignores_separators_witness :
  normalize_key "Alt_Ft" = normalize_key " ALT-FT ".
Proof. apply normalize_key_ignores_separators. reflexivity. Defined.

(** X9 at a nested array inside other text. *)
Lemma balanced_span_is_balanced_witness :
  count_char "["%char "[1,[2]]" = count_char "]"%char "[1,[2]]"
  /\ last_char "[1,[2]]" = Some "]"%char.
Proof.
  destruct (balanced_span_is_balanced "x[1,[2]]y{" "[1,[2]]" "["%char "]"%char)
    as (_ & Hlast & Hcount & _); [discriminate|reflexivity|].
  split; assumption.
Defined.

(** X10 at a wrapper with two lists of records. *)
Lemma wrapper_yields_longest_list_witness :
  exists best,
    enumerate_records
      (VDict [("meta", VStr "v1"); ("a", VList [VDict []]); ("b", VList [VDict []; VDict []])])
    = map (fun rec => (None, rec)) best
    /\ (1 <= List.length best)%nat.
Proof.
  destruct (wrapper_yields_longest_list
              [("meta", VStr "v1"); ("a", VList [VDict []]); ("b", VList [VDict []; VDict []])]
              [VDict []])
    as (best & Henum & _ & _ & Hlen); [right; now left|reflexivity|].
  exists best. split; assumption.
Defined.

(** X14 at the record of a positional element. *)
Lemma records_have_checked_coordinates_witness :
  F.is_nan (F.of_Z 5) || in_range 90 (F.of_Z 5) = true.
Proof.
  apply (records_have_checked_coordinates Offline.parser Offline.parser Offline.iso_of_epoch
           Offline.date_parser Offline.clock Offline.repr_float Offline.repr_container
           Offline.round6 Offline.open_file Offline.write_text Offline.close_file
           [(0%Z, VList [VList [VInt 5; VInt 6]])]
           (mkRecord None (F.of_Z 5) (F.of_Z 6) None (Offline.clock 0 0) 0 0)).
  vm_compute. left. reflexivity.
Defined.

(** X16 at a map keyed by id. *)
Lemma parent_keys_come_from_id_maps_witness :
  exists d,
    VDict [("b1", VDict [("lat", VInt 5)])] = VDict d
    /\ In ("b1", VDict [("lat", VInt 5)]) d.
Proof.
  destruct (parent_keys_come_from_id_maps (VDict [("b1", VDict [("lat", VInt 5)])])
              "b1" (VDict [("lat", VInt 5)]))
    as (d & Hobj & Hin & _); [now left|].
  exists d. split; assumption.
Defined.

(** X17 at an element of four values in hour 3. *)
Lemma positional_element_record_witness :
  build_records Offline.iso_of_epoch Offline.date_parser Offline.clock Offline.repr_float
    Offline.repr_container Offline.round6
    [(3%Z, VList [VList [VInt 5; VInt 6; VInt 7; VStr "spare"]])]
  = [mkRecord None (F.of_Z 5) (F.of_Z 6) (Some (F.mul (F.of_Z 7) c_1000))
       (Offline.clock 3 0) 3 0].
Proof. apply positional_element_record; reflexivity. Defined.

(** X18 at a record whose id is empty, in a map whose key is empty. *)
Lemma extract_id_never_empty_witness :
  extract_id Offline.repr_float Offline.repr_container (Some "")
    [("id", VStr ""); ("name", VInt 0)]
  <> Some "".
Proof.
  apply extract_id_never_empty.
  - intros f. discriminate.
  - intros v. discriminate.
Defined.

(** X19 at a run of two hours over [Offline.feed]. *)
Lemma record_file_has_one_line_per_record_witness :
  exists r,
    main Offline.feed_parser Offline.parser Offline.iso_of_epoch Offline.date_parser
      Offline.clock Offline.repr_float Offline.repr_container Offline.round6
      Offline.feed Offline.save_raw Offline.finish_time Offline.new_client
      Offline.ensure_out_dir Offline.open_file Offline.write_text Offline.close_file
      (mkArgs 2 8 false false)
    = Returns r
    /\ count_char (ascii_of_nat 10) (ndjson_file r) = stdout_count r.
Proof.
  assert (Hrun : exists r,
    main Offline.feed_parser Offline.parser Offline.iso_of_epoch Offline.date_parser
      Offline.clock Offline.repr_float Offline.repr_container Offline.round6
      Offline.feed Offline.save_raw Offline.finish_time Offline.new_client
      Offline.ensure_out_dir Offline.open_file Offline.write_text Offline.close_file
      (mkArgs 2 8 false false)
    = Returns r)
    by (vm_compute; eexists; reflexivity).
  destruct Hrun as (r & Hrun). exists r. split; [exact Hrun|].
  refine (proj1 (record_file_has_one_line_per_record Offline.feed_parser Offline.parser
                   Offline.iso_of_epoch Offline.date_parser Offline.clock Offline.repr_float
                   Offline.repr_container Offline.round6 Offline.feed Offline.save_raw
                   Offline.finish_time Offline.new_client Offline.ensure_out_dir
                   Offline.open_file Offline.write_text Offline.close_file
                   (mkArgs 2 8 false false) r _ Hrun)).
  intros f. reflexivity.
Defined.

(** X21 at an altitude written in kilometers under a meters key. *)
Lemma altitude_field_ignores_unit_witness :
  extract_alt_m [("alt", VStr "3 km")] = Some (F.of_Z 3).
Proof.
  refine (proj1 (altitude_field_ignores_unit "alt" "3 km" (F.of_Z 3) _) _).
  - vm_compute. reflexivity.
  - do 3 right. now left.
Defined.

(** X23 at a time stamp in seconds with blanks around it. *)
Lemma bare_number_text_is_a_timestamp_witness :
  exists sec,
    float_of_str " 1700000000 " = Ret sec
    /\ parse_time_to_iso Offline.iso_of_epoch Offline.date_parser
         [("time", VStr " 1700000000 ")]
       = success (Offline.iso_of_epoch
                    (if F.gtb sec c_1e10 then F.div sec c_1000 else sec)).
Proof.
  apply (proj1 (bare_number_text_is_a_timestamp Offline.iso_of_epoch Offline.date_parser)
           [("time", VStr " 1700000000 ")] " 1700000000 "); reflexivity.
Defined.
